(** * Label Studio to YOLO converter: a shallow embedding of [main.go]

    The development follows the source file top to bottom.  Go values are
    modelled as follows:

    - [int] is a 64-bit two's complement integer, embedded in [Z] with the
      wrap-around written out ([wrap_int]);
    - [float64] is IEEE 754 binary64, embedded through the executable
      specification of the Standard Library ([SpecFloat], precision 53,
      exponent bound 1024);
    - [string] is a sequence of bytes;
    - slices are descriptors into a heap of backing arrays, so that
      aliasing between the caller's slice and [shuffled] is visible;
    - the operating system is a tree of directories and files, a working
      directory and a wall clock; [os], [bufio], [io] and [path/filepath]
      are modelled on it from their documented behaviour (Unix paths);
    - [math/rand], [strconv] and [yaml.v3] are interfaces (type classes);
      the contract of the generator is a separate class.

    Console output ([fmt.Printf]) is not part of the model. *)

From Stdlib Require Import ZArith Lia Bool SpecFloat String Ascii Sorting.Sorted.
From stdpp Require Import gmap strings list.

#[local] Set Warnings "-register-all".
#[local] Open Scope Z_scope.

(* ================================================================= *)
(** ** Go [int] *)

Definition min_int : Z := - 2 ^ 63.
Definition max_int : Z := 2 ^ 63 - 1.

(** Two's complement wrap-around of a mathematical integer into [int]. *)
Definition wrap_int (z : Z) : Z := (z - min_int) mod 2 ^ 64 + min_int.

Definition int_add (a b : Z) : Z := wrap_int (a + b).

(** [x++] *)
Definition int_incr (a : Z) : Z := int_add a 1.

(** [len(s)] of a slice or string with [n] elements. *)
Definition len {A} (l : list A) : Z := Z.of_nat (length l).

(* ================================================================= *)
(** ** Go [float64] *)

Definition prec : Z := 53.
Definition emax : Z := 1024.

Definition float64 : Type := spec_float.

(** A value that a [float64] variable can hold. *)
Definition f64_valid (f : float64) : bool := valid_binary prec emax f.

(** [x * y] *)
Definition f64_mul : float64 -> float64 -> float64 := SFmul prec emax.

(** [x / y], used by the reference number parser only. *)
Definition f64_div : float64 -> float64 -> float64 := SFdiv prec emax.

(** [float64(n)] for an [int] [n]: rounding to nearest, ties to even. *)
Definition f64_of_int (n : Z) : float64 := binary_normalize prec emax n 0 false.

Definition f64_zero : float64 := S754_zero false.
Definition f64_one : float64 := f64_of_int 1.

(** [x < y] and [x <= y]; both are false when an operand is NaN. *)
Definition f64_ltb : float64 -> float64 -> bool := SFltb.
Definition f64_leb : float64 -> float64 -> bool := SFleb.

(** The integer part of a finite float, rounding toward zero. *)
Definition f64_trunc (x : float64) : option Z :=
  match x with
  | S754_zero _ => Some 0
  | S754_finite s m e => Some (cond_Zopp s (Z.shiftl (Zpos m) e))
  | _ => None
  end.

(** [int(x)]: the fraction is discarded.  When the value does not fit
    (NaN, infinities, magnitude beyond 64 bits) Go leaves the result to
    the implementation; amd64 yields the most negative integer. *)
Definition int_of_f64 (x : float64) : Z :=
  match f64_trunc x with
  | Some v => if (min_int <=? v) && (v <=? max_int) then v else min_int
  | None => min_int
  end.

(** The largest integer not above the exact product of [n] and [f], for
    comparison with the rounded product the program computes. *)
Definition exact_floor (n : Z) (f : float64) : Z :=
  match f with
  | S754_finite s m e => Z.shiftl (n * cond_Zopp s (Zpos m)) e
  | _ => 0
  end.

(* ================================================================= *)
(** ** Strings: package [strings] and UTF-8 *)

Definition byte_val (c : ascii) : Z := Z.of_N (N_of_ascii c).

Definition is_ascii_byte (c : ascii) : bool := byte_val c <? 128.

Fixpoint is_ascii (s : string) : bool :=
  match s with
  | EmptyString => true
  | String c s' => is_ascii_byte c && is_ascii s'
  end.

(** [unicode.IsSpace] on a code point. *)
Definition unicode_IsSpace (r : Z) : bool :=
  ((9 <=? r) && (r <=? 13)) || (r =? 32) || (r =? 133) || (r =? 160)
  || (r =? 5760) || ((8192 <=? r) && (r <=? 8202))
  || (r =? 8232) || (r =? 8233) || (r =? 8239) || (r =? 8287) || (r =? 12288).

Definition RuneError : Z := 65533.

Definition is_cont (c : ascii) : bool :=
  (128 <=? byte_val c) && (byte_val c <=? 191).

Definition in_range (lo hi : Z) (c : ascii) : bool :=
  (lo <=? byte_val c) && (byte_val c <=? hi).

(** Accepted ranges for the second byte of a three- or four-byte
    encoding, by the first byte (overlong forms and surrogates are
    excluded, as in [unicode/utf8]). *)
Definition second_ok3 (b0 b1 : ascii) : bool :=
  if byte_val b0 =? 224 then in_range 160 191 b1
  else if byte_val b0 =? 237 then in_range 128 159 b1
  else in_range 225 239 b0 && is_cont b1.

Definition second_ok4 (b0 b1 : ascii) : bool :=
  if byte_val b0 =? 240 then in_range 144 191 b1
  else if byte_val b0 =? 244 then in_range 128 143 b1
  else in_range 241 243 b0 && is_cont b1.

Definition low6 (c : ascii) : Z := byte_val c - 128.

(** [for _, r := range s]: the code points of [s], each with the bytes it
    was decoded from.  A byte that starts no valid encoding decodes to
    [RuneError] and is consumed alone. *)
Fixpoint runes (s : string) : list (Z * string) :=
  match s with
  | EmptyString => []
  | String b0 t1 =>
    let bad := (RuneError, String b0 EmptyString) :: runes t1 in
    if is_ascii_byte b0 then (byte_val b0, String b0 EmptyString) :: runes t1
    else
      match t1 with
      | EmptyString => bad
      | String b1 t2 =>
        if in_range 194 223 b0 && is_cont b1 then
          ((byte_val b0 - 192) * 64 + low6 b1,
           String b0 (String b1 EmptyString)) :: runes t2
        else
          match t2 with
          | EmptyString => bad
          | String b2 t3 =>
            if second_ok3 b0 b1 && is_cont b2 then
              ((byte_val b0 - 224) * 4096 + low6 b1 * 64 + low6 b2,
               String b0 (String b1 (String b2 EmptyString))) :: runes t3
            else
              match t3 with
              | EmptyString => bad
              | String b3 t4 =>
                if second_ok4 b0 b1 && is_cont b2 && is_cont b3 then
                  ((byte_val b0 - 240) * 262144 + low6 b1 * 4096
                     + low6 b2 * 64 + low6 b3,
                   String b0 (String b1 (String b2 (String b3 EmptyString))))
                    :: runes t4
                else bad
              end
          end
      end
  end.

Definition rune_is_space (rb : Z * string) : bool := unicode_IsSpace (fst rb).

Definition rune_bytes (rs : list (Z * string)) : string :=
  fold_right (fun rb acc => (snd rb ++ acc)%string) EmptyString rs.

Fixpoint drop_while {A} (p : A -> bool) (l : list A) : list A :=
  match l with
  | [] => []
  | x :: l' => if p x then drop_while p l' else l
  end.

(** [strings.TrimSpace] *)
Definition strings_TrimSpace (s : string) : string :=
  rune_bytes
    (rev (drop_while rune_is_space (rev (drop_while rune_is_space (runes s))))).

(** The loop of [strings.FieldsFunc]: [cur] is the field being read. *)
Fixpoint fields_from (cur : option string) (rs : list (Z * string)) : list string :=
  match rs with
  | [] => match cur with Some f => [f] | None => [] end
  | rb :: rs' =>
    if rune_is_space rb then
      match cur with
      | Some f => f :: fields_from None rs'
      | None => fields_from None rs'
      end
    else
      match cur with
      | Some f => fields_from (Some (f ++ snd rb)%string) rs'
      | None => fields_from (Some (snd rb)) rs'
      end
  end.

(** [strings.Fields] *)
Definition strings_Fields (s : string) : list string := fields_from None (runes s).

Definition lower_byte (c : ascii) : ascii :=
  if (65 <=? byte_val c) && (byte_val c <=? 90)
  then ascii_of_N (N_of_ascii c + 32) else c.

(** [strings.ToLower] on a string of ASCII bytes (the fast path of the
    library).  Bytes outside ASCII are left as they are here; statements
    that depend on case folding assume an ASCII argument. *)
Fixpoint strings_ToLower (s : string) : string :=
  match s with
  | EmptyString => EmptyString
  | String c s' => String (lower_byte c) (strings_ToLower s')
  end.

Definition str_len (s : string) : nat := String.length s.

(** [strings.HasSuffix] *)
Definition strings_HasSuffix (s suffix : string) : bool :=
  (str_len suffix <=? str_len s)%nat
  && String.eqb (substring (str_len s - str_len suffix) (str_len suffix) s) suffix.

(** [strings.TrimSuffix] *)
Definition strings_TrimSuffix (s suffix : string) : string :=
  if strings_HasSuffix s suffix
  then substring 0 (str_len s - str_len suffix) s else s.

(** [strings.Split(s, sep)] for a one-byte separator. *)
Fixpoint split_on (sep : ascii) (s : string) : list string :=
  match s with
  | EmptyString => [EmptyString]
  | String c s' =>
    if Ascii.eqb c sep then EmptyString :: split_on sep s'
    else
      match split_on sep s' with
      | [] => [String c EmptyString]
      | f :: fs => String c f :: fs
      end
  end.

(** [strings.Join] with a one-byte separator written as a string. *)
Fixpoint join_with (sep : string) (l : list string) : string :=
  match l with
  | [] => EmptyString
  | [x] => x
  | x :: l' => (x ++ sep ++ join_with sep l')%string
  end.

(* ================================================================= *)
(** ** Package [path/filepath] (Unix) *)

Definition slash : ascii := "/"%char.
Definition dot : ascii := "."%char.

Definition is_rooted (p : string) : bool :=
  match p with
  | String c _ => Ascii.eqb c slash
  | EmptyString => false
  end.

(** The element stack of [filepath.Clean]: empty and [.] elements are
    dropped, [..] removes the element before it, stays at the root of a
    rooted path and is kept at the front of a relative one.  [acc] is the
    output so far, last element first. *)
Fixpoint clean_elems (rooted : bool) (acc : list string) (elems : list string)
  : list string :=
  match elems with
  | [] => rev acc
  | e :: elems' =>
    if String.eqb e "" || String.eqb e "." then clean_elems rooted acc elems'
    else if String.eqb e ".." then
      match acc with
      | top :: acc' =>
        if String.eqb top ".." then clean_elems rooted (e :: acc) elems'
        else clean_elems rooted acc' elems'
      | [] =>
        if rooted then clean_elems rooted acc elems'
        else clean_elems rooted (e :: acc) elems'
      end
    else clean_elems rooted (e :: acc) elems'
  end.

(** [filepath.Clean] *)
Definition filepath_Clean (p : string) : string :=
  let body := join_with "/" (clean_elems (is_rooted p) [] (split_on slash p)) in
  if is_rooted p then String slash body
  else if String.eqb body "" then "."%string else body.

(** [filepath.Join]: empty elements are ignored, the rest is joined with
    a separator and cleaned; the result is empty when nothing is left. *)
Definition filepath_Join (elems : list string) : string :=
  match filter (fun e => negb (String.eqb e "")) elems with
  | [] => EmptyString
  | es => filepath_Clean (join_with "/" es)
  end.

(** The part of [name] from its last dot, for a name without separator. *)
Fixpoint ext_from (name : string) : option string :=
  match name with
  | EmptyString => None
  | String c rest =>
    match ext_from rest with
    | Some e => Some e
    | None => if Ascii.eqb c dot then Some name else None
    end
  end.

(** [filepath.Ext]: the suffix beginning at the final dot of the final
    element of the path; empty if there is no dot. *)
Definition filepath_Ext (p : string) : string :=
  match ext_from (List.last (split_on slash p) EmptyString) with
  | Some e => e
  | None => EmptyString
  end.

(** [filepath.Base]: the last element of the path, trailing separators
    removed; [.] for the empty path and [/] for a path of separators. *)
Definition filepath_Base (p : string) : string :=
  if String.eqb p "" then "."%string
  else
    match rev (filter (fun e => negb (String.eqb e "")) (split_on slash p)) with
    | e :: _ => e
    | [] => "/"%string
    end.

(** [filepath.Abs]: an absolute path is cleaned, a relative one is joined
    to the working directory. *)
Definition filepath_Abs (cwd p : string) : string :=
  if is_rooted p then filepath_Clean p else filepath_Join [cwd; p].

(** The elements below the root that a path names for the operating
    system, relative paths being taken from the working directory. *)
Definition resolve (cwd p : string) : list string :=
  clean_elems true []
    (if is_rooted p then split_on slash p
     else split_on slash cwd ++ split_on slash p).

(* ================================================================= *)
(** ** The file system *)

(** A file with its contents, and whether the process may open it; a
    directory with its entries.  Directories can always be listed and
    written to.  There is one flag for a file, for reading and for
    writing: a file that may be read and not written is not told
    apart. *)
Inductive node :=
  | File (readable : bool) (data : string)
  | Dir (entries : gmap string node).

Inductive errno := ENOENT | ENOTDIR | EISDIR | EACCES | EINVAL.

Inductive result (A : Type) :=
  | Ok (a : A)
  | Err (e : errno).
Arguments Ok {A} a.
Arguments Err {A} e.

(** The node a list of elements leads to from [n]. *)
Fixpoint fs_lookup (n : node) (p : list string) : result node :=
  match p with
  | [] => Ok n
  | c :: p' =>
    match n with
    | File _ _ => Err ENOTDIR
    | Dir es =>
      match es !! c with
      | Some n' => fs_lookup n' p'
      | None => Err ENOENT
      end
    end
  end.

(** Replace the node at the end of [p] by [f] of what is there ([None]
    when the last element is absent from its directory, which must
    exist). *)
Fixpoint fs_alter (f : option node -> result node) (n : node) (p : list string)
  : result node :=
  match p with
  | [] => f (Some n)
  | c :: p' =>
    match n with
    | File _ _ => Err ENOTDIR
    | Dir es =>
      match p', es !! c with
      | [], None =>
        match f None with
        | Ok n' => Ok (Dir (<[c := n']> es))
        | Err e => Err e
        end
      | _ :: _, None => Err ENOENT
      | _, Some child =>
        match fs_alter f child p' with
        | Ok n' => Ok (Dir (<[c := n']> es))
        | Err e => Err e
        end
      end
    end
  end.

(** [os.MkdirAll]: every missing directory along [p] is created; an
    element that exists and is not a directory is an error. *)
Fixpoint fs_mkdir_all (n : node) (p : list string) : result node :=
  match n with
  | File _ _ => Err ENOTDIR
  | Dir es =>
    match p with
    | [] => Ok n
    | c :: p' =>
      match fs_mkdir_all (default (Dir ∅) (es !! c)) p' with
      | Ok n' => Ok (Dir (<[c := n']> es))
      | Err e => Err e
      end
    end
  end.

(** [os.Create] at the node level (the file is opened for reading and
    writing): an existing file is truncated, a missing one is created, a
    directory or a file that may not be opened is refused. *)
Definition create_node (old : option node) : result node :=
  match old with
  | Some (Dir _) => Err EISDIR
  | Some (File true _) => Ok (File true EmptyString)
  | Some (File false _) => Err EACCES
  | None => Ok (File true EmptyString)
  end.

(** Appending bytes to an open file. *)
Definition append_node (bytes : string) (old : option node) : result node :=
  match old with
  | Some (File r d) => Ok (File r (d ++ bytes)%string)
  | Some (Dir _) => Err EISDIR
  | None => Err ENOENT
  end.

(** [os.Open] followed by reading everything: a missing or unreadable
    file fails to open; a directory opens, and reading it fails. *)
Inductive opened :=
  | OpenedFile (data : string)
  | OpenedDir.

Definition open_node (r : result node) : result opened :=
  match r with
  | Ok (File true d) => Ok (OpenedFile d)
  | Ok (File false _) => Err EACCES
  | Ok (Dir _) => Ok OpenedDir
  | Err e => Err e
  end.

(* ================================================================= *)
(** ** Package [bufio]: a [Scanner] with the default line splitter *)

Definition MaxScanTokenSize : Z := 65536.

(** [dropCR]: one trailing carriage return is removed. *)
Definition dropCR (s : string) : string := strings_TrimSuffix s (String "013"%char EmptyString).

(** Tokens delivered by successive [Scan] calls over the raw lines
    (separated by newline), and whether [Err] is non-nil afterwards.  A raw
    line that does not fit in the buffer stops the scan with
    [ErrTooLong]; a last line without newline is delivered unless it is
    empty. *)
Fixpoint scan_tokens (raw : list string) : list string * bool :=
  match raw with
  | [] => ([], false)
  | [last] =>
    if MaxScanTokenSize <=? Z.of_nat (str_len last) then ([], true)
    else if String.eqb last "" then ([], false) else ([dropCR last], false)
  | l :: raw' =>
    if MaxScanTokenSize <=? Z.of_nat (str_len l) then ([], true)
    else let '(ts, e) := scan_tokens raw' in (dropCR l :: ts, e)
  end.

Definition newline : ascii := "010"%char.

(** Everything [for scanner.Scan() { ... scanner.Text() ... }] sees of an
    opened file, and the final [scanner.Err() != nil]. *)
Definition scan_lines (o : opened) : list string * bool :=
  match o with
  | OpenedFile d => scan_tokens (split_on newline d)
  | OpenedDir => ([], true)
  end.

(* ================================================================= *)
(** ** Package [time] *)

(** A reading of the wall clock in the local time zone, as
    [time.Now()] returns it; [zone] is the offset from UTC in minutes. *)
Record Time := {
  year : Z; month : Z; day : Z;
  hour : Z; minute : Z; second : Z;
  zone : Z
}.

Definition digit (d : Z) : ascii := ascii_of_N (Z.to_N (48 + d mod 10)).

Definition pad2 (n : Z) : string :=
  String (digit (n / 10)) (String (digit n) EmptyString).

Definition pad4 (n : Z) : string := (pad2 (n / 100) ++ pad2 n)%string.

(** [t.Format(time.RFC3339)], layout [2006-01-02T15:04:05Z07:00]. *)
Definition format_RFC3339 (t : Time) : string :=
  (pad4 (year t) ++ "-" ++ pad2 (month t) ++ "-" ++ pad2 (day t) ++ "T"
   ++ pad2 (hour t) ++ ":" ++ pad2 (minute t) ++ ":" ++ pad2 (second t)
   ++ (if (zone t =? 0)%Z then "Z"
       else (if (zone t <? 0)%Z then "-" else "+")
            ++ pad2 (Z.abs (zone t) / 60)%Z ++ ":"
            ++ pad2 (Z.abs (zone t) mod 60)%Z))%string.

(* ================================================================= *)
(** ** The types of [main.go] *)

(** [Config] holds the conversion configuration. *)
Record Config := {
  SourceDir : string;
  OutputDir : string;
  TrainSplit : float64;
  Seed : Z
}.

(** [LabelPair] represents an image-label file pair. *)
Record LabelPair := {
  ImagePath : string;
  LabelPath : string
}.

(** [ValidationStats] holds statistics about label validation. *)
Record ValidationStats := {
  TotalFiles : Z;
  TotalAnnotations : Z;
  FilesWithAnnotations : Z;
  EmptyFiles : Z;
  InvalidLines : Z
}.

(** [YAMLConfig] represents the YOLO dataset configuration. *)
Record YAMLConfig := {
  Path : string;
  Train : string;
  Val : string;
  NC : Z;
  Names : list string
}.

(** The errors [Convert] can return, one constructor per [fmt.Errorf]
    (the first argument of the message is kept, the wrapped cause as an
    [errno]):
    - [ErrRequiredDir]: "required directory not found: %s"
    - [ErrRequiredFile]: "required file not found: %s"
    - [ErrOpenClasses]: "failed to open classes.txt: %w"
    - [ErrReadClasses]: "error reading classes.txt: %w"
    - [ErrScanImages]: "error scanning images directory: %w"
    - [ErrNoPairs]: "no valid image-label pairs found"
    - [ErrCreateDir]: "failed to create directory %s: %w"
    - [ErrCopyImage]: "failed to copy image %s: %w"
    - [ErrCopyLabel]: "failed to copy label %s: %w"
    - [ErrCreateYAML]: "failed to create YAML file: %w"
    - [ErrWriteHeader]: "failed to write YAML header: %w"
    - [ErrEncodeYAML]: "failed to encode YAML: %w" *)
Inductive error :=
  | ErrRequiredDir (dir : string)
  | ErrRequiredFile (file : string)
  | ErrOpenClasses (e : errno)
  | ErrReadClasses
  | ErrScanImages (e : errno)
  | ErrNoPairs
  | ErrCreateDir (dir : string) (e : errno)
  | ErrCopyImage (path : string) (e : errno)
  | ErrCopyLabel (path : string) (e : errno)
  | ErrCreateYAML (e : errno)
  | ErrWriteHeader (e : errno)
  | ErrEncodeYAML (e : errno).

(* ================================================================= *)
(** ** Interfaces of the libraries outside the repository *)

(** [math/rand]: the state of a generator, seeding, and one draw of an
    integer below a bound ([Int63n], [Int31n]). *)
Class MathRand := {
  Source : Type;
  rand_NewSource : Z -> Source;
  rand_Intn : Source -> Z -> Z * Source
}.

(** The documented contract of a draw: the result lies in [[0, n)]. *)
Class MathRandSpec `{MathRand} : Prop :=
  rand_Intn_range : forall g n, 0 < n -> 0 <= fst (rand_Intn g n) < n.

(** [strconv]: [None] stands for a non-nil error. *)
Class Strconv := {
  strconv_Atoi : string -> option Z;
  strconv_ParseFloat : string -> option float64
}.

(** [yaml.v3]: the document an [Encoder] with indent 2 writes. *)
Class Yaml := {
  yaml_Encode : YAMLConfig -> string
}.

(* ================================================================= *)
(** ** Slices and the heap *)

Definition loc := nat.

(** A slice value: backing array, offset of the first element, length
    and capacity. *)
Record slice := {
  s_arr : loc;
  s_off : nat;
  s_len : nat;
  s_cap : nat
}.

(** The nil slice. *)
Definition nil_slice : slice := {| s_arr := 0%nat; s_off := 0; s_len := 0; s_cap := 0 |}.

Definition zero_pair : LabelPair := {| ImagePath := ""; LabelPath := "" |}.

(** Why a goroutine stopped. *)
Inductive panic :=
  | IndexOutOfRange (index length : Z)
  | SliceBoundsOutOfRange (index capacity : Z).

(** The state a run of the program acts on.  [w_now] is the reading
    [time.Now()] returns; nothing in the model advances it, and a run
    reads it once, in [CreateYAMLConfig]. *)
Record World `{MathRand} := {
  w_fs : node;
  w_cwd : string;
  w_now : Time;
  w_rng : Source;
  w_heap : gmap loc (list LabelPair)
}.

(* ================================================================= *)
(** ** Computations: state passing with panics *)

Inductive outcome (A : Type) :=
  | Done (a : A)
  | Panicked (p : panic).
Arguments Done {A} a.
Arguments Panicked {A} p.

Section Program.
Context `{MR : MathRand} `{SC : Strconv} `{YE : Yaml}.

(** A computation takes the world and leaves a world, also when it
    panics. *)
Definition M (A : Type) : Type := World -> outcome A * World.

Definition ret {A} (a : A) : M A := fun w => (Done a, w).

Definition bind {A B} (m : M A) (k : A -> M B) : M B :=
  fun w =>
    match m w with
    | (Done a, w') => k a w'
    | (Panicked p, w') => (Panicked p, w')
    end.

Definition throw {A} (p : panic) : M A := fun w => (Panicked p, w).

Definition get : M World := fun w => (Done w, w).

Notation "x <- m ;; k" := (bind m (fun x => k))
  (at level 100, m at next level, right associativity).
Notation "m ;;; k" := (bind m (fun _ => k))
  (at level 100, right associativity).

Definition set_fs (fs : node) (w : World) : World :=
  {| w_fs := fs; w_cwd := w_cwd w; w_now := w_now w; w_rng := w_rng w;
     w_heap := w_heap w |}.

Definition set_rng (g : Source) (w : World) : World :=
  {| w_fs := w_fs w; w_cwd := w_cwd w; w_now := w_now w; w_rng := g;
     w_heap := w_heap w |}.

Definition set_heap (h : gmap loc (list LabelPair)) (w : World) : World :=
  {| w_fs := w_fs w; w_cwd := w_cwd w; w_now := w_now w; w_rng := w_rng w;
     w_heap := h |}.

(* --------------------------------------------------------------- *)
(** *** Slices *)

Definition slice_len (s : slice) : Z := Z.of_nat (s_len s).

(** The elements of a slice, as [range] sees them. *)
Definition read_slice (h : gmap loc (list LabelPair)) (s : slice) : list LabelPair :=
  take (s_len s) (drop (s_off s) (default [] (h !! s_arr s))).

(** [make([]LabelPair, n)]: a fresh backing array of zero values. *)
Definition make_slice (n : nat) : M slice :=
  fun w =>
    let l := fresh (dom (w_heap w)) in
    (Done {| s_arr := l; s_off := 0; s_len := n; s_cap := n |},
     set_heap (<[l := replicate n zero_pair]> (w_heap w)) w).

(** [s[i]] *)
Definition slice_get (s : slice) (i : Z) : M LabelPair :=
  fun w =>
    if (0 <=? i) && (i <? slice_len s) then
      (Done (default zero_pair (read_slice (w_heap w) s !! Z.to_nat i)), w)
    else (Panicked (IndexOutOfRange i (slice_len s)), w).

(** [s[i] = v] *)
Definition slice_set (s : slice) (i : Z) (v : LabelPair) : M unit :=
  fun w =>
    if (0 <=? i) && (i <? slice_len s) then
      (Done tt,
       set_heap (alter (fun a => <[(s_off s + Z.to_nat i)%nat := v]> a)
                       (s_arr s) (w_heap w)) w)
    else (Panicked (IndexOutOfRange i (slice_len s)), w).

(** Storing the elements [vs] from index [i] of [s] on. *)
Fixpoint slice_store (s : slice) (i : Z) (vs : list LabelPair) : M unit :=
  match vs with
  | [] => ret tt
  | v :: vs' => slice_set s i v ;;; slice_store s (i + 1) vs'
  end.

(** [copy(dst, src)]: as many elements as the shorter slice has. *)
Definition copy_slice (dst src : slice) : M Z :=
  w <- get ;;
  let n := Nat.min (s_len dst) (s_len src) in
  slice_store dst 0 (take n (read_slice (w_heap w) src)) ;;;
  ret (Z.of_nat n).

(** [s[lo:hi]]: the bounds are checked against the capacity. *)
Definition reslice (s : slice) (lo hi : Z) : M slice :=
  if negb ((0 <=? hi) && (hi <=? Z.of_nat (s_cap s))) then
    throw (SliceBoundsOutOfRange hi (Z.of_nat (s_cap s)))
  else if negb ((0 <=? lo) && (lo <=? hi)) then
    throw (SliceBoundsOutOfRange lo hi)
  else
    ret {| s_arr := s_arr s; s_off := (s_off s + Z.to_nat lo)%nat;
           s_len := Z.to_nat (hi - lo); s_cap := (s_cap s - Z.to_nat lo)%nat |}.

(** The slice that a sequence of [append] calls starting from nil
    ends with; the growth of the capacity is not modelled. *)
Definition slice_of_list (l : list LabelPair) : M slice :=
  match l with
  | [] => ret nil_slice
  | _ =>
    fun w =>
      let a := fresh (dom (w_heap w)) in
      (Done {| s_arr := a; s_off := 0; s_len := length l; s_cap := length l |},
       set_heap (<[a := l]> (w_heap w)) w)
  end.

(* --------------------------------------------------------------- *)
(** *** The global generator of [math/rand] *)

(** [rand.Seed(seed)]: the global generator restarts from the seed (Go
    1.21, the version the repository builds with). *)
Definition rand_Seed (seed : Z) : M unit :=
  fun w => (Done tt, set_rng (rand_NewSource seed) w).

Definition rand_draw (n : Z) : M Z :=
  fun w => let '(j, g) := rand_Intn (w_rng w) n in (Done j, set_rng g w).

(** The loop of [rand.Shuffle], [for ; i > 0; i--], from [i] down. *)
Fixpoint shuffle_from (i : nat) (swap : Z -> Z -> M unit) : M unit :=
  match i with
  | O => ret tt
  | S i' =>
    j <- rand_draw (Z.of_nat i + 1) ;;
    swap (Z.of_nat i) j ;;;
    shuffle_from i' swap
  end.

(** [rand.Shuffle(n, swap)] for [n >= 0] (Fisher-Yates). *)
Definition rand_Shuffle (n : Z) (swap : Z -> Z -> M unit) : M unit :=
  shuffle_from (Z.to_nat (n - 1)) swap.

(* --------------------------------------------------------------- *)
(** *** Package [os] on the world *)

(** [os.Stat(path)] (also [os.Lstat]: there are no links). *)
Definition os_Stat (w : World) (path : string) : result node :=
  fs_lookup (w_fs w) (resolve (w_cwd w) path).

(** [os.Open(path)] *)
Definition os_Open (w : World) (path : string) : result opened :=
  open_node (os_Stat w path).

Definition update_fs (f : node -> result node) : M (option errno) :=
  fun w =>
    match f (w_fs w) with
    | Ok fs => (Done None, set_fs fs w)
    | Err e => (Done (Some e), w)
    end.

(** [os.MkdirAll(path, 0755)] *)
Definition os_MkdirAll (path : string) : M (option errno) :=
  w <- get ;;
  update_fs (fun fs => fs_mkdir_all fs (resolve (w_cwd w) path)).

(** [os.Create(path)] *)
Definition os_Create (path : string) : M (option errno) :=
  w <- get ;;
  update_fs (fun fs => fs_alter create_node fs (resolve (w_cwd w) path)).

(** Writing [bytes] at the end of the file created at [path]. *)
Definition file_Write (path : string) (bytes : string) : M (option errno) :=
  w <- get ;;
  update_fs (fun fs => fs_alter (append_node bytes) fs (resolve (w_cwd w) path)).

(* --------------------------------------------------------------- *)
(** *** [filepath.Walk] *)

(** One call of the walk function: the path, [info.Name()] and
    [info.IsDir()]. *)
Inductive visit := Visit (path name : string) (is_dir : bool).

Fixpoint insert_by_name (x : string * list visit) (l : list (string * list visit))
  : list (string * list visit) :=
  match l with
  | [] => [x]
  | y :: l' =>
    if String.leb (fst x) (fst y) then x :: l else y :: insert_by_name x l'
  end.

(** Directory entries in lexical order of their names. *)
Definition sort_by_name (l : list (string * list visit)) : list (string * list visit) :=
  fold_right insert_by_name [] l.

(** The calls [filepath.Walk] makes below and including [n], when the
    walk function returns nil every time: a directory before its
    entries, the entries in lexical order. *)
Fixpoint walk_node (path name : string) (n : node) : list visit :=
  match n with
  | File _ _ => [Visit path name false]
  | Dir es =>
    Visit path name true
      :: concat (map snd (sort_by_name
           (map_fold (fun nm child acc =>
                        (nm, walk_node (filepath_Join [path; nm]) nm child) :: acc)
                     [] es)))
  end.

(** [filepath.Walk(root, fn)] up to the calls of [fn]; [Err] when
    [root] cannot be examined, in which case [fn] is called once with
    that error. *)
Definition filepath_Walk (w : World) (root : string) : result (list visit) :=
  match os_Stat w root with
  | Ok n => Ok (walk_node root (filepath_Base root) n)
  | Err e => Err e
  end.

(* --------------------------------------------------------------- *)
(** *** The methods of [Converter] *)

Variable c : Config.

(** [ValidateSourceStructure] checks if the source directory has the
    expected structure. *)
Definition ValidateSourceStructure (w : World) : option error :=
  let requiredDirs := [filepath_Join [SourceDir c; "images"];
                       filepath_Join [SourceDir c; "labels"]] in
  let requiredFiles := [filepath_Join [SourceDir c; "classes.txt"]] in
  let missing path :=
    match os_Stat w path with Err ENOENT => true | _ => false end in
  match List.find missing requiredDirs with
  | Some dir => Some (ErrRequiredDir dir)
  | None =>
    match List.find missing requiredFiles with
    | Some file => Some (ErrRequiredFile file)
    | None => None
    end
  end.

(** [LoadClasses] loads class names from classes.txt. *)
Definition LoadClasses (w : World) : list string + error :=
  let classesPath := filepath_Join [SourceDir c; "classes.txt"] in
  match os_Open w classesPath with
  | Err e => inr (ErrOpenClasses e)
  | Ok file =>
    let '(lines, scan_err) := scan_lines file in
    let classes :=
      fold_left (fun classes text =>
                   let line := strings_TrimSpace text in
                   if negb (String.eqb line "") then classes ++ [line] else classes)
                lines [] in
    if scan_err then inr ErrReadClasses else inl classes
  end.

Definition imageExtensions : gmap string bool :=
  <[".jpg" := true]> (<[".jpeg" := true]> (<[".png" := true]>
  (<[".bmp" := true]> (<[".tiff" := true]> (<[".webp" := true]> ∅))))).

(** The walk function of [GetImageLabelPairs] on one entry (the error
    argument being nil); [pairs] is the captured variable. *)
Definition visit_image (w : World) (labelsDir : string)
           (pairs : list LabelPair) (v : visit) : list LabelPair :=
  let 'Visit path name is_dir := v in
  if is_dir then pairs
  else
    let ext := strings_ToLower (filepath_Ext name) in
    if negb (default false (imageExtensions !! ext)) then pairs
    else
      (* Find corresponding label file *)
      let baseName := strings_TrimSuffix name ext in
      let labelPath := filepath_Join [labelsDir; (baseName ++ ".txt")%string] in
      match os_Stat w labelPath with
      | Ok _ => pairs ++ [{| ImagePath := path; LabelPath := labelPath |}]
      | Err _ => pairs
      end.

(** The records [GetImageLabelPairs] collects. *)
Definition image_label_pairs (w : World) : list LabelPair + error :=
  let imagesDir := filepath_Join [SourceDir c; "images"] in
  let labelsDir := filepath_Join [SourceDir c; "labels"] in
  match filepath_Walk w imagesDir with
  | Err e => inr (ErrScanImages e)
  | Ok visits => inl (fold_left (visit_image w labelsDir) visits [])
  end.

(** [GetImageLabelPairs] finds matching image and label file pairs. *)
Definition GetImageLabelPairs : M (slice + error) :=
  w <- get ;;
  match image_label_pairs w with
  | inr e => ret (inr e)
  | inl l => pairs <- slice_of_list l ;; ret (inl pairs)
  end.

(** [trainCount := int(float64(len(shuffled)) * c.config.TrainSplit)] *)
Definition trainCount (n : Z) (f : float64) : Z :=
  int_of_f64 (f64_mul (f64_of_int n) f).

(** [SplitDataset] splits the dataset into train and validation sets. *)
Definition SplitDataset (pairs : slice) : M (slice * slice) :=
  (* Set random seed for reproducible splits *)
  rand_Seed (Seed c) ;;;
  (* Shuffle the pairs *)
  shuffled <- make_slice (s_len pairs) ;;
  copy_slice shuffled pairs ;;;
  rand_Shuffle (slice_len shuffled)
    (fun i j =>
       vj <- slice_get shuffled j ;;
       vi <- slice_get shuffled i ;;
       slice_set shuffled i vj ;;;
       slice_set shuffled j vi) ;;;
  (* Calculate split index *)
  let trainCount := trainCount (slice_len shuffled) (TrainSplit c) in
  trainPairs <- reslice shuffled 0 trainCount ;;
  valPairs <- reslice shuffled trainCount (slice_len shuffled) ;;
  ret (trainPairs, valPairs).

(** [CreateYOLOStructure] creates the YOLO directory structure. *)
Fixpoint create_dirs (dirs : list string) : M (option error) :=
  match dirs with
  | [] => ret None
  | dir :: dirs' =>
    err <- os_MkdirAll dir ;;
    match err with
    | Some e => ret (Some (ErrCreateDir dir e))
    | None => create_dirs dirs'
    end
  end.

Definition CreateYOLOStructure : M (option error) :=
  create_dirs [filepath_Join [OutputDir c; "images"; "train"];
               filepath_Join [OutputDir c; "images"; "val"];
               filepath_Join [OutputDir c; "labels"; "train"];
               filepath_Join [OutputDir c; "labels"; "val"]].

(** [copyFile] copies a file from src to dst.  The source is read
    after the destination has been created. *)
Definition copyFile (src dst : string) : M (option errno) :=
  w <- get ;;
  match os_Open w src with
  | Err e => ret (Some e)
  | Ok _ =>
    err <- os_Create dst ;;
    match err with
    | Some e => ret (Some e)
    | None =>
      w' <- get ;;
      match os_Stat w' src with
      | Ok (File _ data) => file_Write dst data
      | Ok (Dir _) => ret (Some EISDIR)
      | Err e => ret (Some e)
      end
    end
  end.

(** [CopyFiles] copies image and label files to the appropriate YOLO
    directories. *)
Fixpoint copy_pairs (imagesDestDir labelsDestDir : string) (pairs : list LabelPair)
  : M (option error) :=
  match pairs with
  | [] => ret None
  | lp :: pairs' =>
    (* Copy image *)
    let imageName := filepath_Base (ImagePath lp) in
    let imageDest := filepath_Join [imagesDestDir; imageName] in
    err <- copyFile (ImagePath lp) imageDest ;;
    match err with
    | Some e => ret (Some (ErrCopyImage (ImagePath lp) e))
    | None =>
      (* Copy label *)
      let labelName := filepath_Base (LabelPath lp) in
      let labelDest := filepath_Join [labelsDestDir; labelName] in
      err <- copyFile (LabelPath lp) labelDest ;;
      match err with
      | Some e => ret (Some (ErrCopyLabel (LabelPath lp) e))
      | None => copy_pairs imagesDestDir labelsDestDir pairs'
      end
    end
  end.

Definition CopyFiles (pairs : slice) (splitType : string) : M (option error) :=
  let imagesDestDir := filepath_Join [OutputDir c; "images"; splitType] in
  let labelsDestDir := filepath_Join [OutputDir c; "labels"; splitType] in
  w <- get ;;
  copy_pairs imagesDestDir labelsDestDir (read_slice (w_heap w) pairs).

Definition yaml_header (t : Time) : string :=
  ("# YOLO Dataset Configuration" ++ String newline
   ("# Generated from Label Studio export" ++ String newline
    ("# Generated at: " ++ format_RFC3339 t
       ++ String newline (String newline EmptyString))))%string.

(** [CreateYAMLConfig] creates the YAML configuration file for YOLO. *)
Definition CreateYAMLConfig (classes : list string) : M (option error) :=
  w <- get ;;
  let absOutputDir := filepath_Abs (w_cwd w) (OutputDir c) in
  let config := {| Path := absOutputDir;
                   Train := "images/train";
                   Val := "images/val";
                   NC := len classes;
                   Names := classes |} in
  let yamlPath := filepath_Join [OutputDir c; "data.yaml"] in
  err <- os_Create yamlPath ;;
  match err with
  | Some e => ret (Some (ErrCreateYAML e))
  | None =>
    (* Write header comment *)
    err <- file_Write yamlPath (yaml_header (w_now w)) ;;
    match err with
    | Some e => ret (Some (ErrWriteHeader e))
    | None =>
      err <- file_Write yamlPath (yaml_Encode config) ;;
      match err with
      | Some e => ret (Some (ErrEncodeYAML e))
      | None => ret None
      end
    end
  end.

(** The loop [for i := 1; i < 5; i++] of [ValidateLabels] over the
    indices [idx] still to visit: the invalid-line counter afterwards
    and [allValid]. *)
Fixpoint check_coords (parts : list string) (idx : list nat) (invalid : Z)
  : Z * bool :=
  match idx with
  | [] => (invalid, true)
  | i :: idx' =>
    match strconv_ParseFloat (nth i parts EmptyString) with
    | None => (int_incr invalid, false)
    | Some coord =>
      if f64_ltb coord f64_zero || f64_ltb f64_one coord
      then (int_incr invalid, false)
      else check_coords parts idx' invalid
    end
  end.

(** The body of [for scanner.Scan()] on one line; the state is
    [stats.InvalidLines] and [validLines]. *)
Definition scan_line (st : Z * Z) (text : string) : Z * Z :=
  let '(invalid, validLines) := st in
  let line := strings_TrimSpace text in
  if String.eqb line "" then st
  else
    let parts := strings_Fields line in
    if negb (len parts =? 5) then (int_incr invalid, validLines)
    else
      (* Validate format: class_id x_center y_center width height *)
      match strconv_Atoi (nth 0 parts EmptyString) with
      | None => (int_incr invalid, validLines)
      | Some _ =>
        let '(invalid', allValid) := check_coords parts [1; 2; 3; 4]%nat invalid in
        if allValid then (invalid', int_incr validLines)
        else (invalid', validLines)
      end.

Definition set_InvalidLines (v : Z) (s : ValidationStats) : ValidationStats :=
  {| TotalFiles := TotalFiles s; TotalAnnotations := TotalAnnotations s;
     FilesWithAnnotations := FilesWithAnnotations s; EmptyFiles := EmptyFiles s;
     InvalidLines := v |}.

(** The body of [for _, pair := range pairs] of [ValidateLabels]. *)
Definition validate_file (w : World) (stats : ValidationStats) (lp : LabelPair)
  : ValidationStats :=
  match os_Open w (LabelPath lp) with
  | Err _ => set_InvalidLines (int_incr (InvalidLines stats)) stats
  | Ok file =>
    let '(lines, scan_err) := scan_lines file in
    let '(invalid, validLines) :=
      fold_left scan_line lines (InvalidLines stats, 0) in
    if scan_err then set_InvalidLines (int_incr invalid) stats
    else
      {| TotalFiles := TotalFiles stats;
         TotalAnnotations := int_add (TotalAnnotations stats) validLines;
         FilesWithAnnotations :=
           if validLines >? 0 then int_incr (FilesWithAnnotations stats)
           else FilesWithAnnotations stats;
         EmptyFiles :=
           if validLines >? 0 then EmptyFiles stats
           else int_incr (EmptyFiles stats);
         InvalidLines := invalid |}
  end.

(** [ValidateLabels] validates label files and counts annotations. *)
Definition ValidateLabels (w : World) (pairs : slice) : ValidationStats * option error :=
  let stats := {| TotalFiles := slice_len pairs; TotalAnnotations := 0;
                  FilesWithAnnotations := 0; EmptyFiles := 0;
                  InvalidLines := 0 |} in
  (fold_left (validate_file w) (read_slice (w_heap w) pairs) stats, None).

(** [Convert] performs the main conversion process. *)
Definition Convert : M (option error) :=
  (* Validate source structure *)
  w <- get ;;
  match ValidateSourceStructure w with
  | Some err => ret (Some err)
  | None =>
    (* Load classes *)
    match LoadClasses w with
    | inr err => ret (Some err)
    | inl classes =>
      (* Get image-label pairs *)
      r <- GetImageLabelPairs ;;
      match r with
      | inr err => ret (Some err)
      | inl pairs =>
        if slice_len pairs =? 0 then ret (Some ErrNoPairs)
        else
          (* Validate labels *)
          w <- get ;;
          match ValidateLabels w pairs with
          | (_, Some err) => ret (Some err)
          | (stats, None) =>
            (* Split dataset *)
            split <- SplitDataset pairs ;;
            let '(trainPairs, valPairs) := split in
            (* Create YOLO structure *)
            err <- CreateYOLOStructure ;;
            match err with
            | Some err => ret (Some err)
            | None =>
              (* Copy files *)
              err <- CopyFiles trainPairs "train" ;;
              match err with
              | Some err => ret (Some err)
              | None =>
                err <- CopyFiles valPairs "val" ;;
                match err with
                | Some err => ret (Some err)
                | None =>
                  (* Create YAML config *)
                  CreateYAMLConfig classes
                end
              end
            end
          end
      end
    end
  end.

End Program.

Arguments World : clear implicits.
Arguments M : clear implicits.

(* ================================================================= *)
(** ** Reference instances of the library interfaces

    These make the model executable.  They are stand-ins for the Go
    libraries, not translations of them: the generator is a small linear
    congruential one, the number parser covers plain decimal literals and
    the special values (hexadecimal mantissas and digit separators are
    left out), the YAML writer covers plain scalars. *)

Definition lcg_next (g : Z) : Z := (g * 1103515245 + 12345) mod 2 ^ 31.

#[export] Instance lcg_rand : MathRand := {|
  Source := Z;
  rand_NewSource := fun seed => seed mod 2 ^ 31;
  rand_Intn := fun g n => (lcg_next g mod n, lcg_next g)
|}.

Definition is_digit (ch : ascii) : bool := (48 <=? byte_val ch) && (byte_val ch <=? 57).

(** Leading decimal digits of [s]: their value after [acc], how many
    there are, and what follows them. *)
Fixpoint take_digits (s : string) (acc count : Z) : Z * Z * string :=
  match s with
  | String ch s' =>
    if is_digit ch then take_digits s' (acc * 10 + (byte_val ch - 48)) (count + 1)
    else (acc, count, s)
  | EmptyString => (acc, count, s)
  end.

Definition split_sign (s : string) : bool * string :=
  match s with
  | String "-"%char s' => (true, s')
  | String "+"%char s' => (false, s')
  | _ => (false, s)
  end.

(** [strconv.Atoi]: an optional sign and decimal digits, within [int]. *)
Definition ref_Atoi (s : string) : option Z :=
  let '(neg, body) := split_sign s in
  let '(v, count, rest) := take_digits body 0 0 in
  if (count =? 0) || negb (String.eqb rest "") then None
  else
    let n := if neg then - v else v in
    if (min_int <=? n) && (n <=? max_int) then Some n else None.

(** Mantissa digits and decimal exponent of a decimal literal without
    sign: [digits [. digits] [(e|E) [sign] digits]]. *)
Definition parse_decimal (s : string) : option (Z * Z) :=
  let '(ip, ni, r1) := take_digits s 0 0 in
  let '(m, nf, r2) :=
    match r1 with
    | String "."%char r => take_digits r ip 0
    | _ => (ip, 0, r1)
    end in
  if ni + nf =? 0 then None
  else
    match r2 with
    | EmptyString => Some (m, - nf)
    | String ch r3 =>
      if Ascii.eqb ch "e" || Ascii.eqb ch "E" then
        let '(eneg, r4) := split_sign r3 in
        let '(ev, ne, r5) := take_digits r4 0 0 in
        if (ne =? 0) || negb (String.eqb r5 "") then None
        else Some (m, (if eneg then - ev else ev) - nf)
      else None
    end.

(** [strconv.ParseFloat(s, 64)] on the literals this instance covers: the
    nearest [float64], an error when the value overflows. *)
Definition ref_ParseFloat (s : string) : option float64 :=
  let '(neg, body) := split_sign s in
  let low := strings_ToLower body in
  if String.eqb low "inf" || String.eqb low "infinity" then Some (S754_infinity neg)
  else if String.eqb (strings_ToLower s) "nan" then Some S754_nan
  else
    match parse_decimal body with
    | None => None
    | Some (m, e10) =>
      let v :=
        match m with
        | Zpos p =>
          if 0 <=? e10 then binary_normalize prec emax (cond_Zopp neg (m * 10 ^ e10)) 0 false
          else f64_div (S754_finite neg p 0) (S754_finite false (Z.to_pos (10 ^ (- e10))) 0)
        | _ => S754_zero neg
        end in
      match v with
      | S754_infinity _ => None
      | _ => Some v
      end
    end.

#[export] Instance ref_strconv : Strconv := {|
  strconv_Atoi := ref_Atoi;
  strconv_ParseFloat := ref_ParseFloat
|}.

Fixpoint decimal_digits (fuel : nat) (n : Z) (acc : string) : string :=
  match fuel with
  | O => acc
  | S fuel' =>
    let acc' := String (digit n) acc in
    if n <? 10 then acc' else decimal_digits fuel' (n / 10) acc'
  end.

(** A non-negative [int] in decimal. *)
Definition decimal (n : Z) : string := decimal_digits 20 n EmptyString.

Definition ref_yaml_Encode (y : YAMLConfig) : string :=
  let nl := String newline EmptyString in
  ("path: " ++ Path y ++ nl ++ "train: " ++ Train y ++ nl
   ++ "val: " ++ Val y ++ nl ++ "nc: " ++ decimal (NC y) ++ nl
   ++ match Names y with
      | [] => "names: []" ++ nl
      | names =>
        "names:" ++ nl
        ++ fold_right (fun n acc => "  - " ++ n ++ nl ++ acc) EmptyString names
      end)%string.

#[export] Instance ref_yaml : Yaml := {| yaml_Encode := ref_yaml_Encode |}.

(* ================================================================= *)
(** ** Worlds to run the model on *)

Definition nl : string := String newline EmptyString.

Definition dir_of (l : list (string * node)) : node := Dir (list_to_map l).

(** The export the tests of the repository create: three images, their
    label files (2 + 1 + 2 annotations) and two classes. *)
Definition export_dir : node :=
  dir_of [
    ("images", dir_of [("image1.jpg", File true "fake image data");
                       ("image2.png", File true "fake image data");
                       ("image3.jpeg", File true "fake image data")]);
    ("labels", dir_of [
       ("image1.txt", File true ("0 0.5 0.5 0.3 0.3" ++ nl ++ "1 0.2 0.8 0.1 0.1" ++ nl));
       ("image2.txt", File true ("0 0.4 0.6 0.2 0.4" ++ nl));
       ("image3.txt", File true ("1 0.7 0.3 0.3 0.2" ++ nl ++ "0 0.1 0.9 0.1 0.1" ++ nl))]);
    ("classes.txt", File true ("book" ++ nl ++ "person" ++ nl))
  ]%string.

Definition noon : Time :=
  {| year := 2025; month := 9; day := 22; hour := 12; minute := 0; second := 0;
     zone := 0 |}.

Definition one_second_later : Time :=
  {| year := 2025; month := 9; day := 22; hour := 12; minute := 0; second := 1;
     zone := 0 |}.

Definition world_of (fs : node) (t : Time) : World lcg_rand :=
  {| w_fs := fs; w_cwd := "/work"; w_now := t; w_rng := 7; w_heap := ∅ |}.

Definition test_world : World lcg_rand :=
  world_of (dir_of [("work", dir_of [("export", export_dir)])]) noon.

(** 0.8, the default of the [-train-split] flag. *)
Definition f64_0_8 : float64 := Eval vm_compute in f64_div (f64_of_int 8) (f64_of_int 10).

Definition test_config : Config :=
  {| SourceDir := "export"; OutputDir := "./yolo_dataset";
     TrainSplit := f64_0_8; Seed := 42 |}.

(** 0.7, a fraction whose product with 10 is rounded up to 7. *)
Definition f64_0_7 : float64 := Eval vm_compute in f64_div (f64_of_int 7) (f64_of_int 10).

(** -0.5 and 1.5, fractions outside the unit interval. *)
Definition f64_minus_half : float64 := Eval vm_compute in f64_div (f64_of_int (-1)) (f64_of_int 2).
Definition f64_1_5 : float64 := Eval vm_compute in f64_div (f64_of_int 3) (f64_of_int 2).

Definition pair_of (name : string) : LabelPair :=
  {| ImagePath := ("images/" ++ name ++ ".jpg")%string;
     LabelPath := ("labels/" ++ name ++ ".txt")%string |}.

(** A world whose heap holds one array with the given records, and the
    slice over it. *)
Definition heap_world (l : list LabelPair) : World lcg_rand :=
  {| w_fs := Dir ∅; w_cwd := "/"; w_now := noon; w_rng := 7; w_heap := {[ 5%nat := l ]} |}.

Definition whole (l : list LabelPair) : slice :=
  {| s_arr := 5%nat; s_off := 0; s_len := length l; s_cap := length l |}.

(** An export with an upper-case extension: [photo.JPG], and a label file
    named after the whole image name. *)
Definition upper_case_export : node :=
  dir_of [
    ("images", dir_of [("photo.JPG", File true "fake image data")]);
    ("labels", dir_of [("photo.JPG.txt", File true ("0 0.5 0.5 0.3 0.3" ++ nl))]);
    ("classes.txt", File true ("book" ++ nl))
  ]%string.

Definition upper_case_world : World lcg_rand :=
  world_of (dir_of [("work", dir_of [("export", upper_case_export)])]) noon.

(** An export whose only label file cannot be read. *)
Definition unreadable_export : node :=
  dir_of [
    ("images", dir_of [("a.jpg", File true "fake image data")]);
    ("labels", dir_of [("a.txt", File false ("0 0.5 0.5 0.3 0.3" ++ nl))]);
    ("classes.txt", File true ("book" ++ nl))
  ]%string.

Definition unreadable_world : World lcg_rand :=
  world_of (dir_of [("work", dir_of [("export", unreadable_export)])]) noon.

(** An export without any image. *)
Definition empty_export : node :=
  dir_of [
    ("images", dir_of []);
    ("labels", dir_of []);
    ("classes.txt", File true ("book" ++ nl))
  ]%string.

Definition empty_world : World lcg_rand :=
  world_of (dir_of [("work", dir_of [("export", empty_export)])]) noon.

(* ================================================================= *)
(** ** What the functions compute, on lists

    These definitions restate loops of the program on plain lists; the
    theorems below relate them to the program. *)

(** [l[i], l[j] = l[j], l[i]] for indices within the list. *)
Definition swap_list {A} (l : list A) (i j : nat) : list A :=
  match l !! j, l !! i with
  | Some vj, Some vi => <[j := vi]> (<[i := vj]> l)
  | _, _ => l
  end.

(** The list after the shuffle loop from [i] down, and the generator. *)
Fixpoint shuffle_list `{MathRand} {A} (g : Source) (i : nat) (l : list A)
  : list A * Source :=
  match i with
  | O => (l, g)
  | S i' =>
    let '(j, g') := rand_Intn g (Z.of_nat i + 1) in
    shuffle_list g' i' (swap_list l i (Z.to_nat j))
  end.

Definition shuffled_list `{MathRand} {A} (seed : Z) (l : list A) : list A :=
  fst (shuffle_list (rand_NewSource seed) (length l - 1) l).

(** The two lists [SplitDataset] returns for the records [l]. *)
Definition split_list `{MathRand} {A} (c : Config) (l : list A)
  : outcome (list A * list A) :=
  let k := trainCount (len l) (TrainSplit c) in
  if (0 <=? k) && (k <=? len l) then
    Done (take (Z.to_nat k) (shuffled_list (Seed c) l),
          drop (Z.to_nat k) (shuffled_list (Seed c) l))
  else Panicked (SliceBoundsOutOfRange k (len l)).

(** What a caller sees of a call of [SplitDataset]. *)
Definition observe_split `{MathRand} (r : outcome (slice * slice) * World _)
  : outcome (list LabelPair * list LabelPair) :=
  match r with
  | (Done (t, v), w) => Done (read_slice (w_heap w) t, read_slice (w_heap w) v)
  | (Panicked p, _) => Panicked p
  end.

(** A slice whose elements are all in the heap. *)
Definition backed (h : gmap loc (list LabelPair)) (s : slice) : Prop :=
  length (read_slice h s) = s_len s.

(** A record whose label file cannot be opened or cannot be scanned to
    its end. *)
Definition unreadable `{MathRand} (w : World _) (lp : LabelPair) : bool :=
  match os_Open w (LabelPath lp) with
  | Err _ => true
  | Ok file => snd (scan_lines file)
  end.

(** The range check of [ValidateLabels] on one coordinate. *)
Definition coord_in_range (coord : float64) : bool :=
  negb (f64_ltb coord f64_zero || f64_ltb f64_one coord).

(** Worlds that agree on everything a run reads from the operating
    system, the clock apart. *)
Definition same_files `{MathRand} (w1 w2 : World _) : Prop :=
  w_fs w1 = w_fs w2 /\ w_cwd w1 = w_cwd w2.

(** [data.yaml] emptied, to compare two trees up to its contents. *)
Definition without_config `{MathRand} (c : Config) (w : World _) : result node :=
  fs_alter create_node (w_fs w)
           (resolve (w_cwd w) (filepath_Join [OutputDir c; "data.yaml"])).

Definition set_now `{MathRand} (t : Time) (w : World _) : World _ :=
  {| w_fs := w_fs w; w_cwd := w_cwd w; w_now := t; w_rng := w_rng w;
     w_heap := w_heap w |}.

Definition config_with (f : float64) : Config :=
  {| SourceDir := "export"; OutputDir := "./yolo_dataset"; TrainSplit := f; Seed := 42 |}.

Definition three_pairs : list LabelPair := [pair_of "a"; pair_of "b"; pair_of "c"].

Definition ten_pairs : list LabelPair :=
  pair_of <$> ["a"; "b"; "c"; "d"; "e"; "f"; "g"; "h"; "i"; "j"]%string.

(** Another world holding the same records elsewhere: a different array,
    a slice that starts at its second element, a different generator
    state. *)
Definition other_heap_world (l : list LabelPair) : World lcg_rand :=
  {| w_fs := export_dir; w_cwd := "/tmp"; w_now := one_second_later; w_rng := 99;
     w_heap := {[ 2%nat := zero_pair :: l ]} |}.

Definition tail_slice (l : list LabelPair) : slice :=
  {| s_arr := 2%nat; s_off := 1; s_len := length l; s_cap := length l |}.

(** The slice over a whole array of [n] elements at [a]. *)
Definition slice_at (a : loc) (n cap : nat) : slice :=
  {| s_arr := a; s_off := 0; s_len := n; s_cap := cap |}.

(** The state [SplitDataset] leaves behind: the generator after the
    shuffle, and the shuffled copy in a fresh array. *)
Definition split_world `{MathRand} (c : Config) (w : World _) (pairs : slice) : World _ :=
  let R := read_slice (w_heap w) pairs in
  let r := shuffle_list (rand_NewSource (Seed c)) (length R - 1) R in
  set_rng (snd r) (set_heap (<[fresh (dom (w_heap w)) := fst r]> (w_heap w)) w).

(** A computation that writes to no array but the one at [a]. *)
Definition writes_only `{MathRand} {A} (a : loc) (m : M _ A) : Prop :=
  forall w l, l <> a -> w_heap (snd (m w)) !! l = w_heap w !! l.

(** Two computations that, from worlds with the same files and with the
    heaps [h1] and [h2], give the same result and change nothing but the
    files, in the same way. *)
Definition agree `{MathRand} {A} (h1 h2 : gmap loc (list LabelPair)) (m1 m2 : M _ A)
  : Prop :=
  forall w1 w2, same_files w1 w2 -> w_heap w1 = h1 -> w_heap w2 = h2 ->
    fst (m1 w1) = fst (m2 w2) /\
    exists fs, snd (m1 w1) = set_fs fs w1 /\ snd (m2 w2) = set_fs fs w2.

(** Two computations that, from such worlds read at the times [t1] and
    [t2], end with the same result and with the same files up to the
    contents of [data.yaml], and with the same files when the two
    times are written alike. *)
Definition ends_alike `{MathRand} (c : Config) (t1 t2 : Time)
           (h1 h2 : gmap loc (list LabelPair)) (m1 m2 : M _ (option error)) : Prop :=
  forall w1 w2, same_files w1 w2 -> w_heap w1 = h1 -> w_heap w2 = h2 ->
    w_now w1 = t1 -> w_now w2 = t2 ->
    fst (m1 w1) = fst (m2 w2) /\
    without_config c (snd (m1 w1)) = without_config c (snd (m2 w2)) /\
    (format_RFC3339 t1 = format_RFC3339 t2 -> w_fs (snd (m1 w1)) = w_fs (snd (m2 w2))).

(** A path that leads to a file. *)
Definition file_at (fs : node) (p : list string) : Prop :=
  exists r data, fs_lookup fs p = Ok (File r data).

(** A value of type [int]. *)
Definition in_int (z : Z) : Prop := min_int <= z <= max_int.

(** ** The rules for a label line, as the specification words them *)

Inductive verdict := Blank | Valid | Invalid.

(** The verdict on a line, for a given test [ok] of a parsed coordinate:
    blank lines apart, a line is valid when it has exactly five fields,
    the first parses as an integer and the other four parse as floats
    that pass [ok]. *)
Definition verdict_with `{Strconv} (ok : float64 -> bool) (text : string) : verdict :=
  let line := strings_TrimSpace text in
  if String.eqb line "" then Blank
  else
    match strings_Fields line with
    | [cls; x; y; wd; ht] =>
      if bool_decide (is_Some (strconv_Atoi cls))
         && forallb (fun t => match strconv_ParseFloat t with
                              | Some coord => ok coord
                              | None => false
                              end) [x; y; wd; ht]
      then Valid else Invalid
    | _ => Invalid
    end.

(** A finite number within the closed range [0,1]. *)
Definition finite_in_unit (coord : float64) : bool :=
  match coord with
  | S754_nan | S754_infinity _ => false
  | _ => f64_leb f64_zero coord && f64_leb coord f64_one
  end.

(** The counters after a line with the given verdict: a valid line is
    counted in [validLines], an invalid one in [InvalidLines], each
    once. *)
Definition count_verdict (st : Z * Z) (v : verdict) : Z * Z :=
  match v with
  | Blank => st
  | Valid => (fst st, int_incr (snd st))
  | Invalid => (int_incr (fst st), snd st)
  end.

(** [ValidationStats] before the first record. *)
Definition initial_stats (n : Z) : ValidationStats :=
  {| TotalFiles := n; TotalAnnotations := 0; FilesWithAnnotations := 0;
     EmptyFiles := 0; InvalidLines := 0 |}.

(** The world [w] with the records [l] in an array, as
    [GetImageLabelPairs] leaves them; [whole l] is the slice over it. *)
Definition loaded (l : list LabelPair) (w : World lcg_rand) : World lcg_rand :=
  {| w_fs := w_fs w; w_cwd := w_cwd w; w_now := w_now w; w_rng := w_rng w;
     w_heap := {[ 5%nat := l ]} |}.

Definition record_of (image label : string) : LabelPair :=
  {| ImagePath := ("export/images/" ++ image)%string;
     LabelPath := ("export/labels/" ++ label)%string |}.

Definition test_records : list LabelPair :=
  [record_of "image1.jpg" "image1.txt"; record_of "image2.png" "image2.txt";
   record_of "image3.jpeg" "image3.txt"].

(** An export whose label file has NaN as a coordinate. *)
Definition nan_line : string := "0 NaN 0.5 0.5 0.5".

Definition nan_export : node :=
  dir_of [
    ("images", dir_of [("a.jpg", File true "fake image data")]);
    ("labels", dir_of [("a.txt", File true (nan_line ++ nl))]);
    ("classes.txt", File true ("book" ++ nl))
  ]%string.

Definition nan_world : World lcg_rand :=
  world_of (dir_of [("work", dir_of [("export", nan_export)])]) noon.

(** An export with an upper-case extension whose label file is named
    after the image name without extension. *)
Definition upper_case_plain_export : node :=
  dir_of [
    ("images", dir_of [("photo.JPG", File true "fake image data")]);
    ("labels", dir_of [("photo.txt", File true ("0 0.5 0.5 0.3 0.3" ++ nl))]);
    ("classes.txt", File true ("book" ++ nl))
  ]%string.

Definition upper_case_plain_world : World lcg_rand :=
  world_of (dir_of [("work", dir_of [("export", upper_case_plain_export)])]) noon.

(** The world after a first run on the test export, and after a second
    run started from there one second later, or at the same clock
    reading. *)
Definition first_run : World lcg_rand := snd (Convert test_config test_world).

Definition second_run_later : World lcg_rand :=
  snd (Convert test_config (set_now one_second_later first_run)).

Definition second_run_same_clock : World lcg_rand :=
  snd (Convert test_config first_run).

(** The test world read one second later, with another generator state
    and another heap. *)
Definition later_world : World lcg_rand :=
  {| w_fs := w_fs test_world; w_cwd := w_cwd test_world; w_now := one_second_later;
     w_rng := 99; w_heap := {[ 2%nat := [zero_pair] ]} |}.

Definition config_file : list string := ["work"; "yolo_dataset"; "data.yaml"]%string.

(* ================================================================= *)
(** ** The file system: kinds and contents *)

(** A node is a directory. *)
Definition is_dir (n : node) : bool :=
  match n with Dir _ => true | File _ _ => false end.

(** Every path that leads somewhere in [fs] leads to a node of the same
    kind in [fs']: nothing has been removed, no file has become a
    directory and no directory a file. *)
Definition persists (fs fs' : node) : Prop :=
  forall q n, fs_lookup fs q = Ok n ->
    exists n', fs_lookup fs' q = Ok n' /\ is_dir n' = is_dir n.

(** What [fs_alter] hands to its function: the node at [p], if any. *)
Definition node_at (fs : node) (p : list string) : option node :=
  match fs_lookup fs p with Ok n => Some n | Err _ => None end.

(** The contents of the file at [p], with whether it may be opened;
    [None] when [p] does not lead to a file. *)
Definition file_data (fs : node) (p : list string) : option (bool * string) :=
  match fs_lookup fs p with Ok (File r d) => Some (r, d) | _ => None end.

(** A function for [fs_alter] that refuses directories and yields
    files. *)
Definition writes_file (f : option node -> result node) : Prop :=
  (forall es, exists e, f (Some (Dir es)) = Err e) /\
  (forall o n, f o = Ok n -> is_dir n = false).

(* ================================================================= *)
(** ** The phases of [Convert] *)

(** The copies [CopyFiles] makes for the records [pairs], in order:
    source and destination. *)
Definition copy_ops (imagesDestDir labelsDestDir : string) (pairs : list LabelPair)
  : list (string * string) :=
  flat_map (fun lp =>
    [(ImagePath lp, filepath_Join [imagesDestDir; filepath_Base (ImagePath lp)]);
     (LabelPath lp, filepath_Join [labelsDestDir; filepath_Base (LabelPath lp)])]) pairs.

(** The errors of the phases that read the export, before anything is
    written. *)
Definition reading_error (e : error) : bool :=
  match e with
  | ErrRequiredDir _ | ErrRequiredFile _ | ErrOpenClasses _ | ErrReadClasses
  | ErrScanImages _ | ErrNoPairs => true
  | _ => false
  end.

Section Phases.
Context `{MR : MathRand} `{SC : Strconv} `{YE : Yaml}.
Implicit Types (c : Config).

(** The copies one after the other, up to the first that fails. *)
Fixpoint copy_each (ops : list (string * string)) : M MR (option errno) :=
  match ops with
  | [] => ret None
  | (src, dst) :: ops' =>
    bind (copyFile src dst) (fun err =>
    match err with
    | Some e => ret (Some e)
    | None => copy_each ops'
    end)
  end.

(** The part of [Convert] that writes, from "Create YOLO structure" to
    the end. *)
Definition write_output c (classes : list string) (trainPairs valPairs : slice)
  : M MR (option error) :=
  bind (CreateYOLOStructure c) (fun err =>
  match err with
  | Some err => ret (Some err)
  | None =>
    bind (CopyFiles c trainPairs "train") (fun err =>
    match err with
    | Some err => ret (Some err)
    | None =>
      bind (CopyFiles c valPairs "val") (fun err =>
      match err with
      | Some err => ret (Some err)
      | None => CreateYAMLConfig c classes
      end)
    end)
  end).

(** A computation that leaves the files, the working directory and the
    clock alone. *)
Definition keeps_files {A} (m : M MR A) : Prop :=
  forall w, w_fs (snd (m w)) = w_fs w /\ w_cwd (snd (m w)) = w_cwd w
            /\ w_now (snd (m w)) = w_now w.

End Phases.

(* ================================================================= *)
(** ** The counters of [ValidateLabels], file by file *)

(** How many of [lines] the program counts as valid, as invalid, and how
    many are not blank. *)
Definition valid_lines `{Strconv} (lines : list string) : Z :=
  len (List.filter (fun text => match verdict_with coord_in_range text with
                                | Valid => true | _ => false end) lines).

Definition invalid_lines `{Strconv} (lines : list string) : Z :=
  len (List.filter (fun text => match verdict_with coord_in_range text with
                                | Invalid => true | _ => false end) lines).

Definition nonblank_lines (lines : list string) : Z :=
  len (List.filter (fun text => negb (String.eqb (strings_TrimSpace text) "")) lines).

(** The lines the scanner delivers for the label file of a record (none
    when it does not open). *)
Definition label_lines `{MathRand} (w : World _) (lp : LabelPair) : list string :=
  match os_Open w (LabelPath lp) with
  | Ok file => fst (scan_lines file)
  | Err _ => []
  end.

(** What one record adds to [TotalAnnotations]: the valid lines of a
    label file that was scanned to its end. *)
Definition file_annotations `{MathRand} `{Strconv} (w : World _) (lp : LabelPair) : Z :=
  if unreadable w lp then 0 else valid_lines (label_lines w lp).

(** What one record adds to [InvalidLines]: the invalid lines seen, and
    one more when the file did not open or the scan ended in an error. *)
Definition file_rejections `{MathRand} `{Strconv} (w : World _) (lp : LabelPair) : Z :=
  invalid_lines (label_lines w lp) + (if unreadable w lp then 1 else 0).

Definition sum_over {A} (f : A -> Z) (l : list A) : Z :=
  fold_right (fun x acc => f x + acc) 0 l.

(* ================================================================= *)
(** ** Path elements *)

(** A string without separator. *)
Fixpoint slash_free (s : string) : bool :=
  match s with
  | EmptyString => true
  | String ch s' => negb (Ascii.eqb ch slash) && slash_free s'
  end.

(** A path element that [filepath.Clean] keeps where it is: not empty,
    not [.] and not [..]. *)
Definition plain (e : string) : bool :=
  negb (String.eqb e "" || String.eqb e "." || String.eqb e "..").

(** An element of the stack of [filepath.Clean]: not empty and not
    [.]. *)
Definition kept (e : string) : bool := negb (String.eqb e "" || String.eqb e ".").

(** Two places neither of which lies below the other. *)
Definition apart (p q : list string) : Prop :=
  ~ p `prefix_of` q /\ ~ q `prefix_of` p.

(* ================================================================= *)
(** ** [GetImageLabelPairs], name by name *)

(** The extension test of [GetImageLabelPairs] on a file name. *)
Definition recognized (name : string) : bool :=
  default false (imageExtensions !! strings_ToLower (filepath_Ext name)).

(** The label path [GetImageLabelPairs] derives for a file name. *)
Definition label_path_for (labelsDir name : string) : string :=
  filepath_Join [labelsDir;
                 (strings_TrimSuffix name (strings_ToLower (filepath_Ext name)) ++ ".txt")%string].

(** A file name with a recognized extension whose label path exists. *)
Definition matched `{MathRand} (w : World _) (labelsDir name : string) : bool :=
  recognized name
  && match os_Stat w (label_path_for labelsDir name) with Ok _ => true | Err _ => false end.

(** The record for the file [name] of the images directory. *)
Definition record_for (imagesDir labelsDir name : string) : LabelPair :=
  {| ImagePath := filepath_Join [imagesDir; name];
     LabelPath := label_path_for labelsDir name |}.

(** Names in the order of [sort.Strings]. *)
Definition name_le (a b : string) : Prop := String.leb a b = true.

(** The name of the label file looked up for an image name. *)
Definition label_name (name : string) : string :=
  (strings_TrimSuffix name (strings_ToLower (filepath_Ext name)) ++ ".txt")%string.

(** A record made for an entry of the images directory. *)
Definition listed (entries : gmap string node) (imagesDir labelsDir : string)
           (lp : LabelPair) : Prop :=
  exists nm, is_Some (entries !! nm) /\ lp = record_for imagesDir labelsDir nm.

(** The names of the entries of a directory, in the order
    [filepath.Walk] visits them. *)
Definition walk_order (entries : gmap string node) (root : string) : list string :=
  fst <$> sort_by_name
            (map_fold (fun nm child acc =>
                         (nm, walk_node (filepath_Join [root; nm]) nm child) :: acc)
                      [] entries).

(* ================================================================= *)
(** ** More worlds *)

(** The entries of the images directory of the test export. *)
Definition test_images : gmap string node :=
  list_to_map [("image1.jpg", File true "fake image data");
               ("image2.png", File true "fake image data");
               ("image3.jpeg", File true "fake image data")]%string.

(** A world in which the source path names a regular file. *)
Definition source_file_world : World lcg_rand :=
  world_of (dir_of [("work", dir_of [("export", File true "an archive")])]%string) noon.

(** An export in which [images] is a regular file. *)
Definition images_file_world : World lcg_rand :=
  world_of (dir_of [("work", dir_of [("export",
     dir_of [("images", File true "fake image data");
             ("labels", dir_of []);
             ("classes.txt", File true ("book" ++ nl))])])]%string) noon.

(** A working directory without export. *)
Definition bare_world : World lcg_rand :=
  world_of (dir_of [("work", dir_of [])]%string) noon.

(** The test world with the records found and the YOLO directories made. *)
Definition prepared_world : World lcg_rand :=
  snd (CreateYOLOStructure test_config (loaded test_records test_world)).

Definition one_record : list LabelPair := [record_of "image1.jpg" "image1.txt"].


(* ================================================================= *)
(** * Properties *)

(* ================================================================= *)
(** ** Rounding of [float64] products

    [SFmul] rounds the exact product with [binary_round_aux]; the lemmas
    below describe that rounding far enough to bound the integer part of
    [float64(n) * f]. *)

Lemma digits2_pos_size p : digits2_pos p = Pos.size p.
Proof. induction p; simpl; congruence. Qed.

Lemma digits2_pos_bounds p :
  2 ^ (Zpos (digits2_pos p) - 1) <= Zpos p < 2 ^ Zpos (digits2_pos p).
Proof.
  rewrite digits2_pos_size. split.
  - pose proof (Pos.size_le p) as H.
    assert (2 ^ Zpos (Pos.size p) <= 2 * Zpos p) as H2.
    { change 2 with (Zpos 2). rewrite <- Pos2Z.inj_pow. lia. }
    replace (Zpos (Pos.size p)) with (Z.succ (Zpos (Pos.size p) - 1)) in H2 by lia.
    rewrite Z.pow_succ_r in H2 by lia. lia.
  - pose proof (Pos.size_gt p) as H.
    change 2 with (Zpos 2). rewrite <- Pos2Z.inj_pow. lia.
Qed.

Lemma iter_pos_nat {A} (f : A -> A) p x :
  SpecFloat.iter_pos f p x = Nat.iter (Pos.to_nat p) f x.
Proof.
  revert x. induction p as [p IH | p IH |]; intros x; cbn [SpecFloat.iter_pos].
  - rewrite !IH, Pos2Nat.inj_xI.
    replace (S (2 * Pos.to_nat p))%nat with (Pos.to_nat p + (Pos.to_nat p + 1))%nat by lia.
    rewrite !Nat.iter_add. reflexivity.
  - rewrite !IH, Pos2Nat.inj_xO.
    replace (2 * Pos.to_nat p)%nat with (Pos.to_nat p + Pos.to_nat p)%nat by lia.
    rewrite Nat.iter_add. reflexivity.
  - reflexivity.
Qed.

Lemma shr_1_spec m r s :
  0 <= m -> shr_1 (Build_shr_record m r s) = Build_shr_record (m / 2) (Z.odd m) (r || s).
Proof.
  intros Hm. rewrite <- Z.div2_div.
  destruct m as [| [p | p |] |]; try lia; reflexivity.
Qed.

Lemma mod_pow2_succ m k :
  0 <= k -> (m mod 2 ^ (k + 1) =? 0) = negb (Z.odd (m / 2 ^ k)) && (m mod 2 ^ k =? 0).
Proof.
  intros Hk. rewrite Z.pow_add_r, Z.pow_1_r by lia.
  assert (0 < 2 ^ k) as Hp by (apply Z.pow_pos_nonneg; lia).
  rewrite Z.rem_mul_r by lia.
  pose proof (Z.mod_pos_bound m (2 ^ k) Hp) as Hb.
  rewrite (Zmod_odd (m / 2 ^ k)).
  destruct (Z.odd (m / 2 ^ k)); simpl.
  - apply Z.eqb_neq. lia.
  - f_equal. lia.
Qed.

Lemma iter_shr_1_spec (k : nat) m :
  0 <= m ->
  let x := Nat.iter k shr_1 (Build_shr_record m false false) in
  shr_m x = m / 2 ^ Z.of_nat k /\
  (shr_r x || shr_s x) = negb (m mod 2 ^ Z.of_nat k =? 0).
Proof.
  intros Hm. induction k as [| k IH].
  - cbn [Nat.iter nat_rect shr_m shr_r shr_s Z.of_nat].
    rewrite Z.pow_0_r, Z.div_1_r, Z.mod_1_r. split; reflexivity.
  - cbv zeta in IH |- *. rewrite Nat.iter_succ.
    destruct IH as [IHm IHs].
    destruct (Nat.iter k shr_1 _) as [m' r s] eqn:E.
    cbn [shr_m shr_r shr_s] in IHm, IHs.
    assert (0 < 2 ^ Z.of_nat k) as Hp by (apply Z.pow_pos_nonneg; lia).
    assert (0 <= m') as Hm' by (subst m'; apply Z.div_pos; lia).
    rewrite shr_1_spec by exact Hm'. cbn [shr_m shr_r shr_s].
    rewrite Nat2Z.inj_succ, <- Z.add_1_r.
    split.
    + rewrite Z.pow_add_r, Z.pow_1_r by lia.
      rewrite <- Z.div_div by lia. congruence.
    + rewrite mod_pow2_succ by lia. rewrite <- IHm, IHs.
      destruct (Z.odd m'), (m mod 2 ^ Z.of_nat k =? 0); reflexivity.
Qed.

Lemma shr_exact_spec m e k :
  0 <= m -> 0 < k ->
  exists r s,
    shr (Build_shr_record m false false) e k
      = (Build_shr_record (m / 2 ^ k) r s, e + k) /\
    (r || s) = negb (m mod 2 ^ k =? 0).
Proof.
  intros Hm Hk. destruct k as [| p |]; try lia.
  unfold shr. rewrite iter_pos_nat.
  pose proof (iter_shr_1_spec (Pos.to_nat p) m Hm) as H. cbv zeta in H.
  rewrite positive_nat_Z in H.
  destruct (Nat.iter _ _ _) as [m' r s]. cbn [shr_m shr_r shr_s] in H.
  destruct H as [-> H]. exists r, s. split; [reflexivity | exact H].
Qed.

Lemma round_nearest_even_spec q r s :
  let m := round_nearest_even q (loc_of_shr_record (Build_shr_record q r s)) in
  q <= m <= q + 1 /\ ((r || s) = false -> m = q).
Proof.
  destruct r, s; cbn; try destruct (Z.even q); split; intros; try lia; discriminate.
Qed.

Lemma fexp_ge_emin e : SpecFloat.emin prec emax <= fexp prec emax e.
Proof. unfold fexp. lia. Qed.

Lemma Zdigits2_le_prec m :
  0 <= m < 2 ^ prec -> Zdigits2 m <= prec.
Proof.
  intros [H0 H1]. destruct m as [| p |]; try lia; [unfold prec; simpl; lia |].
  cbn [Zdigits2]. pose proof (digits2_pos_bounds p) as [Hlo _].
  destruct (Z_le_gt_dec (Z.pos (digits2_pos p)) prec) as [|Hgt]; [assumption | exfalso].
  assert (2 ^ prec <= 2 ^ (Z.pos (digits2_pos p) - 1)).
  { apply Z.pow_le_mono_r; unfold prec in *; lia. }
  lia.
Qed.

(** Rounding a normalised mantissa leaves it unchanged. *)
Lemma shr_fexp_noop m e :
  fexp prec emax (Zdigits2 m + e) - e <= 0 ->
  shr_fexp prec emax m e loc_Exact = (Build_shr_record m false false, e).
Proof.
  intros H. unfold shr_fexp. cbn [shr_record_of_loc].
  destruct (fexp prec emax (Zdigits2 m + e) - e); try lia; reflexivity.
Qed.

Lemma binary_round_aux_noshift (m : positive) e :
  fexp prec emax (Zpos (digits2_pos m) + e) <= e -> e <= emax - prec ->
  binary_round_aux prec emax false (Zpos m) e loc_Exact = S754_finite false m e.
Proof.
  intros Hk He. unfold binary_round_aux.
  rewrite shr_fexp_noop by (cbn [Zdigits2]; lia).
  cbn [shr_m loc_of_shr_record round_nearest_even].
  rewrite shr_fexp_noop by (cbn [Zdigits2]; lia).
  cbn [shr_m]. apply Z.leb_le in He. rewrite He. reflexivity.
Qed.

Lemma binary_round_aux_shift (m : positive) e :
  let e1 := fexp prec emax (Zpos (digits2_pos m) + e) in
  let k := e1 - e in
  0 < k -> e1 + 1 <= emax - prec ->
  exists m2,
    Zpos m / 2 ^ k <= m2 <= Zpos m / 2 ^ k + 1 /\
    (Zpos m mod 2 ^ k = 0 -> m2 = Zpos m / 2 ^ k) /\
    f64_trunc (binary_round_aux prec emax false (Zpos m) e loc_Exact)
      = Some (Z.shiftl m2 e1).
Proof.
  intros e1 k Hk He1.
  assert (0 < 2 ^ k) as Hp by (apply Z.pow_pos_nonneg; lia).
  destruct (shr_exact_spec (Zpos m) e k ltac:(lia) Hk) as (r & s & Hshr & Hrs).
  unfold binary_round_aux, shr_fexp at 1. cbn [shr_record_of_loc Zdigits2].
  fold e1. fold k. rewrite Hshr.
  set (q := Zpos m / 2 ^ k) in *.
  pose proof (round_nearest_even_spec q r s) as H. cbv zeta in H.
  cbn [shr_m]. set (m2 := round_nearest_even q _) in *.
  destruct H as [Hm2 Hex].
  replace (e + k) with e1 by (unfold k; lia).
  assert (0 <= q) as Hq0 by (apply Z.div_pos; lia).
  assert (q < 2 ^ prec) as Hq.
  { apply Z.div_lt_upper_bound; [lia |].
    pose proof (digits2_pos_bounds m) as [_ Hhi].
    rewrite <- Z.pow_add_r by (unfold prec; lia).
    eapply Z.lt_le_trans; [exact Hhi |].
    apply Z.pow_le_mono_r; [lia |]. unfold k, e1, fexp. lia. }
  pose proof (fexp_ge_emin (Zpos (digits2_pos m) + e)) as Hemin. fold e1 in Hemin.
  exists m2. split; [exact Hm2 |]. split.
  { intros H0. apply Hex. rewrite Hrs. apply Z.eqb_eq in H0. rewrite H0. reflexivity. }
  destruct (Z.eq_dec m2 (2 ^ prec)) as [Hcarry | Hnc].
  - (* the mantissa overflowed to 2^prec: one more shift, which is exact *)
    assert (shr_fexp prec emax m2 e1 loc_Exact
            = (Build_shr_record (2 ^ (prec - 1)) false false, e1 + 1)) as ->.
    { rewrite Hcarry. unfold shr_fexp. cbn [shr_record_of_loc].
      replace (Zdigits2 (2 ^ prec)) with (prec + 1) by reflexivity.
      replace (fexp prec emax (prec + 1 + e1) - e1) with 1
        by (unfold fexp; unfold SpecFloat.emin in *; lia).
      reflexivity. }
    cbn [shr_m]. change (2 ^ (prec - 1)) with (Zpos (2 ^ 52)).
    cbv iota beta. apply Z.leb_le in He1. rewrite He1.
    cbn [f64_trunc cond_Zopp]. f_equal. rewrite Hcarry.
    change (2 ^ prec) with (Z.shiftl (Zpos (2 ^ 52)) 1).
    rewrite Z.shiftl_shiftl by lia. f_equal. lia.
  - rewrite shr_fexp_noop.
    2:{ pose proof (Zdigits2_le_prec m2 ltac:(lia)). unfold fexp. lia. }
    cbn [shr_m]. destruct m2 as [| p2 |]; try lia.
    + cbn [f64_trunc]. rewrite Z.shiftl_0_l. reflexivity.
    + assert ((e1 <=? emax - prec) = true) as -> by (apply Z.leb_le; lia).
      reflexivity.
Qed.

Lemma div_succ_le q b : 0 < b -> (q + 1) / b <= q / b + 1.
Proof.
  intros Hb. apply Z.div_le_upper_bound; [lia |].
  pose proof (Z.div_mod q b ltac:(lia)). pose proof (Z.mod_pos_bound q b Hb). nia.
Qed.

Lemma round_product_trunc (m : positive) (E n : Z) :
  0 < E -> 0 < n < 2 ^ prec -> Zpos m <= n * 2 ^ E ->
  exists t,
    f64_trunc (binary_round_aux prec emax false (Zpos m) (- E) loc_Exact) = Some t /\
    Zpos m / 2 ^ E <= t <= Zpos m / 2 ^ E + 1 /\
    t <= n /\
    (Zpos m mod 2 ^ E = 0 -> t = Zpos m / 2 ^ E).
Proof.
  intros HE Hn Hm.
  assert (0 < 2 ^ E) as HpE by (apply Z.pow_pos_nonneg; lia).
  set (d := Zpos (digits2_pos m)).
  set (e1 := fexp prec emax (d + - E)).
  pose proof (digits2_pos_bounds m) as [Hlo Hhi]. fold d in Hlo, Hhi.
  assert (d <= prec + E) as Hd.
  { destruct (Z_le_gt_dec d (prec + E)) as [|Hgt]; [assumption | exfalso].
    assert (2 ^ (prec + E) <= 2 ^ (d - 1)) by (apply Z.pow_le_mono_r; lia).
    rewrite Z.pow_add_r in H by (unfold prec; lia). nia. }
  assert (e1 <= 0) as He1 by (unfold e1, fexp, SpecFloat.emin, prec, emax in *; lia).
  assert (Zpos m / 2 ^ E <= n) as HJ.
  { apply Z.div_le_upper_bound; lia. }
  destruct (Z_le_gt_dec (e1 + E) 0) as [Hk | Hk].
  - rewrite binary_round_aux_noshift by (fold d; fold e1; unfold emax, prec; lia).
    cbn [f64_trunc cond_Zopp]. rewrite Z.shiftl_div_pow2 by lia.
    rewrite Z.opp_involutive. eexists; split; [reflexivity |]. lia.
  - destruct (binary_round_aux_shift m (- E)) as (m2 & Hm2 & Hex & Ht).
    { fold d. fold e1. lia. }
    { fold d. fold e1. unfold emax, prec. lia. }
    cbv zeta in Hm2, Hex, Ht. fold d in Hm2, Hex, Ht. fold e1 in Hm2, Hex, Ht.
    replace (e1 - - E) with (e1 + E) in * by lia.
    set (k := e1 + E) in *. set (a := - e1).
    assert (0 < 2 ^ k) as Hpk by (apply Z.pow_pos_nonneg; lia).
    assert (0 < 2 ^ a) as Hpa by (apply Z.pow_pos_nonneg; lia).
    assert (2 ^ E = 2 ^ k * 2 ^ a) as HEka.
    { rewrite <- Z.pow_add_r by lia. f_equal. lia. }
    set (q := Zpos m / 2 ^ k) in *.
    assert (Zpos m / 2 ^ E = q / 2 ^ a) as HJq.
    { rewrite HEka. unfold q. rewrite Z.div_div by lia. reflexivity. }
    pose proof (Z.div_mod (Zpos m) (2 ^ k) ltac:(lia)) as Hdm.
    pose proof (Z.mod_pos_bound (Zpos m) (2 ^ k) Hpk) as Hmb. fold q in Hdm.
    assert (m2 <= n * 2 ^ a) as Hm2n.
    { destruct (Z.eq_dec (Zpos m mod 2 ^ k) 0) as [H0 | Hne].
      - rewrite (Hex H0). apply Z.div_le_upper_bound; [lia |].
        rewrite HEka in Hm. lia.
      - assert (q < n * 2 ^ a); [| lia].
        apply Z.div_lt_upper_bound; [lia |]. rewrite HEka in Hm.
        destruct (Z.eq_dec (Zpos m) (2 ^ k * (n * 2 ^ a))) as [Heq | Hneq]; [| lia].
        exfalso. apply Hne. rewrite Heq, Z.mul_comm. apply Z.mod_mul. lia. }
    rewrite Ht. rewrite Z.shiftl_div_pow2 by lia. fold a.
    eexists; split; [reflexivity |]. rewrite HJq. split; [| split].
    + split; [apply Z.div_le_mono; lia |].
      etransitivity; [apply Z.div_le_mono; [lia | apply Hm2] |].
      apply div_succ_le; lia.
    + apply Z.div_le_upper_bound; lia.
    + intros H0. rewrite Hex; [reflexivity |].
      apply Z.mod_divide in H0; [| lia]. apply Z.mod_divide; [lia |].
      destruct H0 as [c Hc]. exists (c * 2 ^ a). rewrite Hc, HEka. ring.
Qed.

Lemma digits2_pos_iter_xO p (d : positive) :
  Zpos (digits2_pos (Pos.iter xO p d)) = Zpos (digits2_pos p) + Zpos d.
Proof.
  induction d as [| d IH] using Pos.peano_ind.
  - simpl. lia.
  - rewrite Pos.iter_succ. cbn [digits2_pos]. lia.
Qed.

Lemma Zpos_iter_xO p (d : positive) : Zpos (Pos.iter xO p d) = Zpos p * 2 ^ Zpos d.
Proof.
  induction d as [| d IH] using Pos.peano_ind.
  - simpl. lia.
  - rewrite Pos.iter_succ, Pos2Z.inj_xO, IH, Pos2Z.inj_succ, Z.pow_succ_r by lia. ring.
Qed.

(** Integers below 2^53 convert to float64 without rounding. *)
Lemma f64_of_int_pos n :
  0 < n < 2 ^ prec ->
  exists mx ex,
    f64_of_int n = S754_finite false mx ex /\ ex <= 0 /\ Zpos mx = n * 2 ^ (- ex).
Proof.
  intros [Hn0 Hn]. destruct n as [| p |]; try lia.
  unfold f64_of_int, binary_normalize, binary_round.
  pose proof (digits2_pos_bounds p) as [Hlo Hhi].
  set (d := Zpos (digits2_pos p)) in *.
  assert (d <= prec) as Hd.
  { destruct (Z_le_gt_dec d prec) as [|Hgt]; [assumption | exfalso].
    assert (2 ^ prec <= 2 ^ (d - 1)) by (apply Z.pow_le_mono_r; lia). lia. }
  assert (fexp prec emax (d + 0) = d - prec) as Hf.
  { unfold fexp, SpecFloat.emin, prec, emax in *. lia. }
  rewrite Hf. unfold shl_align.
  destruct (d - prec - 0) as [| c | c] eqn:Hc; try lia.
  - rewrite binary_round_aux_noshift.
    + exists p, 0. split; [reflexivity |]. split; [lia |]. simpl. lia.
    + fold d. rewrite Hf. lia.
    + unfold emax, prec. lia.
  - rewrite binary_round_aux_noshift.
    + exists (Pos.iter xO p c), (d - prec). split; [reflexivity |]. split; [lia |].
      rewrite Zpos_iter_xO. f_equal. f_equal. lia.
    + rewrite digits2_pos_iter_xO. fold d.
      unfold fexp, SpecFloat.emin, prec, emax in *. lia.
    + unfold emax, prec in *. lia.
Qed.


Lemma f64_unit_interval_cases f :
  f64_valid f = true -> f64_leb f64_zero f = true -> f64_leb f f64_one = true ->
  (exists s, f = S754_zero s) \/
  (exists mf ef, f = S754_finite false mf ef /\ ef < 0 /\ Zpos mf <= 2 ^ (- ef) /\
     (f = f64_one \/ Zpos mf < 2 ^ (- ef))).
Proof.
  intros Hv H0 H1. destruct f as [s | s | | s mf ef].
  - left. eauto.
  - destruct s; discriminate.
  - discriminate.
  - right. destruct s; [discriminate |]. exists mf, ef. split; [reflexivity |].
    unfold f64_leb, SFleb, f64_one in H1.
    change (f64_of_int 1) with (S754_finite false (2 ^ 52) (-52)) in *.
    cbn [SFcompare] in H1.
    unfold f64_valid, valid_binary, bounded, canonical_mantissa in Hv.
    apply andb_true_iff in Hv as [Hc _]. apply Z.eqb_eq in Hc.
    pose proof (digits2_pos_bounds mf) as [_ Hhi].
    assert (Zpos (digits2_pos mf) <= prec) as Hd by (unfold fexp in Hc; lia).
    assert (Zpos mf < 2 ^ prec) as Hmf.
    { eapply Z.lt_le_trans; [exact Hhi |]. apply Z.pow_le_mono_r; lia. }
    destruct (Z.compare_spec ef (-52)) as [He | He | He]; try discriminate.
    + subst ef. rewrite Pos.compare_cont_spec in H1. cbn [Pos.switch_Eq] in H1.
      destruct (Pos.compare_spec mf (2 ^ 52)) as [Hm | Hm | Hm]; try discriminate.
      * subst mf. split; [lia |]. split; [simpl; lia |]. left. reflexivity.
      * split; [lia |]. change (2 ^ (- -52)) with (Zpos (2 ^ 52)).
        split; [lia |]. right. lia.
    + assert (2 ^ prec <= 2 ^ (- ef)) by (apply Z.pow_le_mono_r; unfold prec; lia).
      split; [lia |]. split; [lia |]. right. lia.
Qed.

Lemma int_of_f64_in_range x t :
  f64_trunc x = Some t -> min_int <= t <= max_int -> int_of_f64 x = t.
Proof.
  intros Hx [Hlo Hhi]. unfold int_of_f64. rewrite Hx.
  apply Z.leb_le in Hlo, Hhi. rewrite Hlo, Hhi. reflexivity.
Qed.

Lemma trainCount_zero_len f :
  f64_valid f = true -> f64_leb f64_zero f = true -> f64_leb f f64_one = true ->
  trainCount 0 f = 0.
Proof.
  intros Hv H0 H1.
  destruct (f64_unit_interval_cases f Hv H0 H1) as [[s ->] | (mf & ef & -> & _)];
    reflexivity.
Qed.

Lemma trainCount_unit_interval n f :
  0 <= n < 2 ^ prec ->
  f64_valid f = true -> f64_leb f64_zero f = true -> f64_leb f f64_one = true ->
  0 <= trainCount n f <= n /\
  exact_floor n f <= trainCount n f <= exact_floor n f + 1 /\
  (f = f64_one -> trainCount n f = n).
Proof.
  intros [Hn0 Hn] Hv H0 H1.
  destruct (Z.eq_dec n 0) as [-> | Hnz].
  { rewrite (trainCount_zero_len f Hv H0 H1).
    assert (exact_floor 0 f = 0) as ->.
    { destruct f; try reflexivity. unfold exact_floor. rewrite Z.mul_0_l.
      apply Z.shiftl_0_l. }
    repeat split; lia. }
  destruct (f64_unit_interval_cases f Hv H0 H1)
    as [[s ->] | (mf & ef & -> & Hef & Hmf & Hone)].
  { destruct (f64_of_int_pos n ltac:(lia)) as (mx & ex & Hx & _).
    unfold trainCount, f64_mul. rewrite Hx. cbn [SFmul xorb].
    change (int_of_f64 (S754_zero s)) with 0. cbn [exact_floor].
    repeat split; try lia. discriminate. }
  destruct (f64_of_int_pos n ltac:(lia)) as (mx & ex & Hx & Hex & Hmx).
  unfold trainCount, f64_mul. rewrite Hx. cbn [SFmul xorb].
  assert (0 < 2 ^ (- ex)) as Hpx by (apply Z.pow_pos_nonneg; lia).
  assert (0 < 2 ^ (- ef)) as Hpf by (apply Z.pow_pos_nonneg; lia).
  assert (2 ^ (- (ex + ef)) = 2 ^ (- ex) * 2 ^ (- ef)) as HE.
  { rewrite <- Z.pow_add_r by lia. f_equal. lia. }
  destruct (round_product_trunc (mx * mf) (- (ex + ef)) n) as (t & Ht & HJ & Htn & Hexact).
  { lia. } { lia. }
  { rewrite Pos2Z.inj_mul, Hmx, HE. nia. }
  rewrite Z.opp_involutive in Ht.
  assert (Zpos (mx * mf) / 2 ^ (- (ex + ef)) = exact_floor n (S754_finite false mf ef)) as HJe.
  { cbn [exact_floor cond_Zopp]. rewrite Z.shiftl_div_pow2 by lia.
    rewrite Pos2Z.inj_mul, Hmx, HE.
    rewrite (Z.mul_comm n), <- Z.mul_assoc.
    apply Z.div_mul_cancel_l; lia. }
  assert (0 <= Zpos (mx * mf) / 2 ^ (- (ex + ef))) as HJ0.
  { apply Z.div_pos; lia. }
  rewrite (int_of_f64_in_range _ t Ht).
  2:{ unfold min_int, max_int. unfold prec in Hn.
      assert (2 ^ 53 < 2 ^ 63 - 1) by reflexivity. lia. }
  rewrite <- HJe. split; [lia |]. split; [lia |].
  intros Hone'. 
  assert (Zpos mf = 2 ^ (- ef)) as Hmf1.
  { change f64_one with (S754_finite false (2 ^ 52) (-52)) in Hone'.
    injection Hone' as -> ->. reflexivity. }
  assert (Zpos (mx * mf) = n * 2 ^ (- (ex + ef))) as Hprod.
  { rewrite Pos2Z.inj_mul, Hmx, Hmf1, HE. ring. }
  rewrite Hexact.
  - rewrite Hprod. apply Z.div_mul. lia.
  - rewrite Hprod. apply Z.mod_mul. lia.
Qed.

(* ================================================================= *)
(** ** Slices, the heap and the shuffle *)

Lemma swap_list_length {A} (l : list A) i j : length (swap_list l i j) = length l.
Proof.
  unfold swap_list. destruct (l !! j), (l !! i); rewrite ?length_insert; reflexivity.
Qed.

Lemma swap_list_perm {A} (l : list A) i j : swap_list l i j ≡ₚ l.
Proof.
  unfold swap_list. destruct (l !! j) as [vj|] eqn:Hj, (l !! i) as [vi|] eqn:Hi;
    try reflexivity.
  apply Permutation_insert_swap; assumption.
Qed.

Lemma swap_list_fmap {A B} (f : A -> B) (l : list A) i j :
  swap_list (f <$> l) i j = f <$> swap_list l i j.
Proof.
  unfold swap_list. rewrite !list_lookup_fmap.
  destruct (l !! j), (l !! i); simpl; try reflexivity.
  rewrite !list_fmap_insert. reflexivity.
Qed.

Section Shuffle.
Context `{MR : MathRand}.

Lemma shuffle_list_length {A} g i (l : list A) :
  length (fst (shuffle_list g i l)) = length l.
Proof.
  revert g l. induction i as [| i IH]; intros g l; [reflexivity |].
  cbn [shuffle_list]. destruct (rand_Intn g _) as [j g'].
  rewrite IH. apply swap_list_length.
Qed.

Lemma shuffle_list_perm {A} g i (l : list A) : fst (shuffle_list g i l) ≡ₚ l.
Proof.
  revert g l. induction i as [| i IH]; intros g l; [reflexivity |].
  cbn [shuffle_list]. destruct (rand_Intn g _) as [j g'].
  rewrite IH. apply swap_list_perm.
Qed.

(** The shuffle moves positions and never looks at the elements. *)
Lemma shuffle_list_fmap {A B} (f : A -> B) g i (l : list A) :
  shuffle_list g i (f <$> l) = (f <$> fst (shuffle_list g i l), snd (shuffle_list g i l)).
Proof.
  revert g l. induction i as [| i IH]; intros g l; [reflexivity |].
  cbn [shuffle_list]. destruct (rand_Intn g _) as [j g'].
  rewrite swap_list_fmap. apply IH.
Qed.

Lemma shuffled_list_fmap {A B} (f : A -> B) seed (l : list A) :
  shuffled_list seed (f <$> l) = f <$> shuffled_list seed l.
Proof.
  unfold shuffled_list. rewrite length_fmap, shuffle_list_fmap. reflexivity.
Qed.

Lemma shuffled_list_perm {A} seed (l : list A) : shuffled_list seed l ≡ₚ l.
Proof. apply shuffle_list_perm. Qed.

Lemma shuffled_list_length {A} seed (l : list A) :
  length (shuffled_list seed l) = length l.
Proof. apply shuffle_list_length. Qed.

Implicit Types (w : World MR) (h : gmap loc (list LabelPair)).

Lemma read_slice_whole h a l n cap :
  h !! a = Some l -> length l = n -> read_slice h (slice_at a n cap) = l.
Proof.
  intros Ha Hn. unfold read_slice. cbn. rewrite Ha. cbn.
  apply take_ge. lia.
Qed.

Lemma set_heap_same w : set_heap (w_heap w) w = w.
Proof. destruct w; reflexivity. Qed.

Lemma in_bounds i n : 0 <= i < Z.of_nat n -> (0 <=? i) && (i <? Z.of_nat n) = true.
Proof. intros. apply andb_true_iff. split; [apply Z.leb_le | apply Z.ltb_lt]; lia. Qed.

Lemma slice_get_run w a l n cap i :
  w_heap w !! a = Some l -> length l = n -> 0 <= i < Z.of_nat n ->
  slice_get (slice_at a n cap) i w = (Done (default zero_pair (l !! Z.to_nat i)), w).
Proof.
  intros Ha Hn Hi. unfold slice_get, slice_len. cbn [s_len slice_at].
  rewrite (in_bounds _ _ Hi), (read_slice_whole _ _ _ _ _ Ha Hn). reflexivity.
Qed.

Lemma slice_set_run w a l n cap i v :
  w_heap w !! a = Some l -> length l = n -> 0 <= i < Z.of_nat n ->
  slice_set (slice_at a n cap) i v w
    = (Done tt, set_heap (<[a := <[Z.to_nat i := v]> l]> (w_heap w)) w).
Proof.
  intros Ha Hn Hi. unfold slice_set, slice_len. cbn [s_len s_off s_arr slice_at].
  rewrite (in_bounds _ _ Hi), (alter_alt_Some _ _ _ _ Ha). reflexivity.
Qed.

Lemma slice_store_run vs : forall (i : nat) w a l n cap,
  w_heap w !! a = Some l -> length l = n -> (i + length vs <= n)%nat ->
  slice_store (slice_at a n cap) (Z.of_nat i) vs w
    = (Done tt,
       set_heap (<[a := take i l ++ vs ++ drop (i + length vs) l]> (w_heap w)) w).
Proof.
  induction vs as [| v vs IH]; intros i w a l n cap Ha Hn Hlen.
  - cbn [slice_store ret app length]. rewrite Nat.add_0_r, take_drop.
    rewrite (insert_id _ _ _ Ha), set_heap_same. reflexivity.
  - cbn [slice_store length] in *. unfold bind.
    rewrite (slice_set_run w a l n cap (Z.of_nat i) v Ha Hn) by lia.
    rewrite Nat2Z.id.
    replace (Z.of_nat i + 1) with (Z.of_nat (S i)) by lia.
    set (l1 := <[i := v]> l).
    assert (length l1 = n) as Hl1 by (unfold l1; rewrite length_insert; exact Hn).
    rewrite (IH (S i) _ a l1 n cap).
    2:{ cbn. apply lookup_insert_eq. }
    2:{ exact Hl1. }
    2:{ lia. }
    cbn [w_heap set_heap]. rewrite insert_insert_eq.
    assert (take (S i) l1 ++ vs ++ drop (S i + length vs) l1
            = take i l ++ (v :: vs) ++ drop (i + S (length vs)) l) as ->.
    { unfold l1.
      rewrite (take_S_r _ i v) by (apply list_lookup_insert_eq; lia).
      rewrite take_insert_ge by lia. rewrite drop_insert_lt by lia.
      rewrite <- app_assoc. cbn. do 4 f_equal. lia. }
    reflexivity.
Qed.

Lemma swap_run w a l n cap i j :
  w_heap w !! a = Some l -> length l = n ->
  0 <= i < Z.of_nat n -> 0 <= j < Z.of_nat n ->
  bind (slice_get (slice_at a n cap) j) (fun vj =>
  bind (slice_get (slice_at a n cap) i) (fun vi =>
  bind (slice_set (slice_at a n cap) i vj) (fun _ =>
        slice_set (slice_at a n cap) j vi))) w
    = (Done tt, set_heap (<[a := swap_list l (Z.to_nat i) (Z.to_nat j)]> (w_heap w)) w).
Proof.
  intros Ha Hn Hi Hj. unfold bind at 1.
  rewrite (slice_get_run w a l n cap j Ha Hn Hj). unfold bind at 1.
  rewrite (slice_get_run w a l n cap i Ha Hn Hi). unfold bind.
  rewrite (slice_set_run w a l n cap i _ Ha Hn Hi).
  destruct (lookup_lt_is_Some_2 l (Z.to_nat i) ltac:(lia)) as [vi Hvi].
  destruct (lookup_lt_is_Some_2 l (Z.to_nat j) ltac:(lia)) as [vj Hvj].
  rewrite Hvi, Hvj. cbn [default].
  set (l1 := <[Z.to_nat i := vj]> l).
  assert (length l1 = n) as Hl1 by (unfold l1; rewrite length_insert; exact Hn).
  rewrite (slice_set_run _ a l1 n cap j vi).
  2:{ cbn. apply lookup_insert_eq. }
  2:{ exact Hl1. }
  2:{ lia. }
  cbn [w_heap set_heap]. rewrite insert_insert_eq.
  unfold swap_list. rewrite Hvi, Hvj. reflexivity.
Qed.

Context {MRS : MathRandSpec}.

Lemma shuffle_from_run swap a (n : nat) :
  (forall w l i j,
      w_heap w !! a = Some l -> length l = n ->
      0 <= i < Z.of_nat n -> 0 <= j < Z.of_nat n ->
      swap i j w
        = (Done tt, set_heap (<[a := swap_list l (Z.to_nat i) (Z.to_nat j)]> (w_heap w)) w)) ->
  forall (i : nat) w l,
    w_heap w !! a = Some l -> length l = n -> (i <= n - 1)%nat ->
    shuffle_from i swap w
      = (Done tt,
         set_rng (snd (shuffle_list (w_rng w) i l))
                 (set_heap (<[a := fst (shuffle_list (w_rng w) i l)]> (w_heap w)) w)).
Proof.
  intros Hswap. induction i as [| i IH]; intros w l Ha Hn Hi.
  - cbn [shuffle_from shuffle_list fst snd ret].
    rewrite (insert_id _ _ _ Ha). destruct w; reflexivity.
  - cbn [shuffle_from shuffle_list]. unfold bind at 1, rand_draw.
    pose proof (rand_Intn_range (w_rng w) (Z.of_nat (S i) + 1) ltac:(lia)) as Hj.
    destruct (rand_Intn (w_rng w) (Z.of_nat (S i) + 1)) as [j g1]. cbn [fst] in Hj.
    unfold bind at 1.
    rewrite (Hswap _ l) by (cbn [w_heap set_rng]; try assumption; lia).
    rewrite Nat2Z.id. cbn [w_heap set_rng set_heap].
    set (l1 := swap_list l (S i) (Z.to_nat j)).
    assert (length l1 = n) as Hl1 by (unfold l1; rewrite swap_list_length; exact Hn).
    rewrite (IH _ l1).
    2:{ cbn. apply lookup_insert_eq. }
    2:{ exact Hl1. }
    2:{ lia. }
    cbn [w_heap w_rng set_rng set_heap w_fs w_cwd w_now].
    rewrite insert_insert_eq. reflexivity.
Qed.

(** Reading a slice of the caller after an allocation. *)
Lemma read_slice_fresh h (s : slice) l' :
  backed h s ->
  read_slice (<[fresh (dom h) := l']> h) s = read_slice h s.
Proof.
  intros Hb. unfold backed, read_slice in *.
  destruct (h !! s_arr s) as [l |] eqn:Ha.
  - rewrite lookup_insert_ne, Ha; [reflexivity |].
    intros Heq. pose proof (is_fresh (dom h)) as Hf. apply Hf.
    rewrite Heq. apply elem_of_dom. eauto.
  - cbn in Hb. rewrite drop_nil, take_nil in Hb. cbn in Hb. rewrite <- Hb.
    rewrite !take_0. reflexivity.
Qed.

Lemma SplitDataset_run c w pairs :
  backed (w_heap w) pairs ->
  let R := read_slice (w_heap w) pairs in
  let a := fresh (dom (w_heap w)) in
  let n := length R in
  let k := trainCount (len R) (TrainSplit c) in
  SplitDataset c pairs w =
    if (0 <=? k) && (k <=? len R) then
      (Done ({| s_arr := a; s_off := 0; s_len := Z.to_nat k; s_cap := n |},
             {| s_arr := a; s_off := Z.to_nat k; s_len := n - Z.to_nat k;
                s_cap := n - Z.to_nat k |}),
       split_world c w pairs)
    else (Panicked (SliceBoundsOutOfRange k (len R)), split_world c w pairs).
Proof.
  intros Hb R a n k. unfold SplitDataset.
  assert (s_len pairs = n) as Hlen by (symmetry; exact Hb).
  unfold bind at 1. unfold rand_Seed.
  unfold bind at 1. unfold make_slice. cbn [w_heap set_rng]. fold a.
  rewrite Hlen. change {| s_arr := a; s_off := 0; s_len := n; s_cap := n |} with (slice_at a n n).
  set (w1 := set_heap _ _).
  assert (w_heap w1 !! a = Some (replicate n zero_pair)) as Ha1.
  { unfold w1. cbn. apply lookup_insert_eq. }
  unfold bind at 1. unfold copy_slice. unfold bind at 1, get. unfold bind at 1.
  change (slice_store (slice_at a n n) 0 ?vs) with (slice_store (slice_at a n n) (Z.of_nat 0) vs).
  assert (take (s_len (slice_at a n n) `min` s_len pairs) (read_slice (w_heap w1) pairs) = R) as ->.
  { unfold w1. cbn [w_heap set_heap set_rng s_len slice_at]. unfold a.
    rewrite read_slice_fresh by exact Hb. fold R. rewrite Hlen.
    apply take_ge. lia. }
  rewrite (slice_store_run R 0 w1 a _ n n Ha1) by (rewrite ?length_replicate; lia).
  cbn [take app Nat.add]. fold n.
  rewrite (drop_ge (replicate n zero_pair)) by (rewrite length_replicate; lia).
  rewrite app_nil_r. unfold ret at 1.
  set (w2 := set_heap _ w1).
  assert (w_heap w2 !! a = Some R) as Ha2.
  { unfold w2. cbn. apply lookup_insert_eq. }
  unfold bind at 1, rand_Shuffle, slice_len. cbn [s_len slice_at].
  rewrite (shuffle_from_run _ a n) with (l := R); try exact Ha2; try reflexivity.
  2:{ intros w0 l i j H1 H2 H3 H4. apply (swap_run w0 a l n n i j H1 H2 H3 H4). }
  2:{ lia. }
  replace (Z.to_nat (Z.of_nat n - 1)) with (n - 1)%nat by lia.
  set (w3 := set_rng _ _).
  assert (w3 = split_world c w pairs) as Hw3.
  { unfold w3, w2, w1, split_world. cbn [w_heap w_rng set_rng set_heap w_fs w_cwd w_now].
    fold R. fold a. fold n. rewrite !insert_insert_eq. reflexivity. }
  rewrite Hw3. clear Hw3 w3.
  unfold reslice. cbn [s_cap s_arr s_off slice_at]. cbv zeta.
  change (len R) with (Z.of_nat n) in *.
  change (trainCount _ (TrainSplit c)) with k. clearbody k.
  destruct ((0 <=? k) && (k <=? Z.of_nat n)) eqn:Hk; cbn [negb]; [| reflexivity].
  apply andb_true_iff in Hk as [Hk0 Hkn].
  rewrite Hk0, Z.leb_refl, (proj2 (Z.leb_le 0 (Z.of_nat n))) by lia.
  cbn [negb andb]. unfold bind, ret.
  rewrite ?Z.leb_refl. cbn [negb].
  apply Z.leb_le in Hk0, Hkn. repeat f_equal; lia.
Qed.
End Shuffle.

(** The product is rounded before the fraction is discarded: the
    [float64] nearest to 0.7 is below 0.7, ten times it is rounded to 7. *)
Example trainCount_rounded_product :
  trainCount 10 f64_0_7 = 7 /\ exact_floor 10 f64_0_7 = 6.
Proof. split; reflexivity. Qed.

Lemma trainCount_zero n s :
  0 <= n < 2 ^ prec -> trainCount n (S754_zero s) = 0.
Proof.
  intros [Hn0 Hn]. destruct (Z.eq_dec n 0) as [-> | Hnz]; [reflexivity |].
  destruct (f64_of_int_pos n ltac:(lia)) as (mx & ex & Hx & _).
  unfold trainCount, f64_mul. rewrite Hx. reflexivity.
Qed.

Lemma lcg_rand_spec : @MathRandSpec lcg_rand.
Proof.
  intros g n Hn. cbn. apply Z.mod_pos_bound. exact Hn.
Qed.

Section Split.
Context `{MR : MathRand}.
Implicit Types (w : World MR) (c : Config).

Lemma split_world_heap c w pairs :
  w_heap (split_world c w pairs)
    = <[fresh (dom (w_heap w)) := shuffled_list (Seed c) (read_slice (w_heap w) pairs)]>
        (w_heap w).
Proof. reflexivity. Qed.

Lemma split_world_files c w pairs : same_files (split_world c w pairs) w.
Proof. split; reflexivity. Qed.

Context {MRS : MathRandSpec}.

(** What the caller sees of [SplitDataset] is [split_list] of the
    records. *)
Lemma observe_SplitDataset c w pairs :
  backed (w_heap w) pairs ->
  observe_split (SplitDataset c pairs w) = split_list c (read_slice (w_heap w) pairs).
Proof.
  intros Hb. rewrite (SplitDataset_run c w pairs Hb). cbv zeta.
  unfold split_list. set (R := read_slice (w_heap w) pairs).
  set (k := trainCount (len R) (TrainSplit c)).
  destruct ((0 <=? k) && (k <=? len R)) eqn:Hk; [| reflexivity].
  apply andb_true_iff in Hk as [Hk0 Hkn]. apply Z.leb_le in Hk0, Hkn.
  unfold len in Hkn.
  cbn [observe_split]. rewrite split_world_heap. fold R.
  pose proof (shuffled_list_length (Seed c) R) as Hlen.
  unfold read_slice. cbn [s_arr s_off s_len]. rewrite lookup_insert_eq. cbn [default].
  rewrite drop_0. f_equal. f_equal.
  apply take_ge. rewrite length_drop. lia.
Qed.

Lemma list_as_positions {A} (d : A) (l : list A) :
  l = (fun i => nth i l d) <$> seq 0 (length l).
Proof.
  apply list_eq. intros i. rewrite list_lookup_fmap.
  destruct (decide (i < length l)%nat) as [Hi | Hi].
  - rewrite lookup_seq_lt by exact Hi. cbn. rewrite nth_lookup.
    destruct (lookup_lt_is_Some_2 l i Hi) as [x ->]. reflexivity.
  - rewrite lookup_seq_ge by lia. rewrite lookup_ge_None_2 by lia. reflexivity.
Qed.

(** C1, as amended. For a fraction in [0,1], [SplitDataset] returns a
    train subset of [int(float64(|R|) * f)] records (the integer part
    of the rounded
    product, which lies between the exact floor and one above it) and a
    validation subset with the rest; the two together are a
    permutation of the input, every position of the input lands in
    exactly one of them, distinct records stay apart, fraction 0 gives
    an empty train set and fraction 1 an empty validation set. *)
Theorem SplitDataset_partition c w pairs :
  backed (w_heap w) pairs ->
  len (read_slice (w_heap w) pairs) < 2 ^ 53 ->
  f64_valid (TrainSplit c) = true ->
  f64_leb f64_zero (TrainSplit c) = true ->
  f64_leb (TrainSplit c) f64_one = true ->
  let R := read_slice (w_heap w) pairs in
  let f := TrainSplit c in
  exists train val,
    observe_split (SplitDataset c pairs w) = Done (train, val) /\
    len train = trainCount (len R) f /\
    exact_floor (len R) f <= len train <= exact_floor (len R) f + 1 /\
    len val = len R - len train /\
    train ++ val ≡ₚ R /\
    (exists positions,
        positions ≡ₚ seq 0 (length R) /\
        train = (fun i => nth i R zero_pair) <$> take (length train) positions /\
        val = (fun i => nth i R zero_pair) <$> drop (length train) positions) /\
    (NoDup R -> forall x, x ∈ train -> x ∉ val) /\
    (f = f64_zero -> train = [] /\ val ≡ₚ R) /\
    (f = f64_one -> val = [] /\ train ≡ₚ R).
Proof.
  intros Hb Hlen Hv H0 H1 R f.
  rewrite (observe_SplitDataset c w pairs Hb). fold R. unfold split_list. fold f.
  assert (0 <= len R < 2 ^ prec) as Hn by (unfold len in *; split; [lia | exact Hlen]).
  destruct (trainCount_unit_interval (len R) f Hn Hv H0 H1) as (Hk & Hfloor & Hone).
  set (k := trainCount (len R) f) in *.
  assert ((0 <=? k) && (k <=? len R) = true) as ->.
  { apply andb_true_iff. split; apply Z.leb_le; lia. }
  set (sh := shuffled_list (Seed c) R).
  pose proof (shuffled_list_length (Seed c) R) as Hshl. fold sh in Hshl.
  pose proof (shuffled_list_perm (Seed c) R) as Hshp. fold sh in Hshp.
  assert (length (take (Z.to_nat k) sh) = Z.to_nat k) as Htl.
  { rewrite length_take. unfold len in Hk. lia. }
  exists (take (Z.to_nat k) sh), (drop (Z.to_nat k) sh).
  split; [reflexivity |].
  assert (len (take (Z.to_nat k) sh) = k) as Hlt by (unfold len; rewrite Htl; lia).
  split; [exact Hlt |]. rewrite Hlt. split; [exact Hfloor |].
  split; [unfold len; rewrite length_drop, Hshl; unfold len in Hk; lia |].
  split; [rewrite take_drop; exact Hshp |].
  split.
  { exists (shuffled_list (Seed c) (seq 0 (length R))).
    split; [apply shuffled_list_perm |].
    rewrite Htl, !fmap_take, !fmap_drop, <- shuffled_list_fmap.
    rewrite <- (list_as_positions zero_pair R). split; reflexivity. }
  split.
  { intros Hnd. assert (NoDup (take (Z.to_nat k) sh ++ drop (Z.to_nat k) sh)) as Hnd'.
    { rewrite take_drop, Hshp. exact Hnd. }
    apply NoDup_app in Hnd' as (_ & Hdisj & _). exact Hdisj. }
  split.
  - intros Hf. assert (k = 0) as ->.
    { unfold k. rewrite Hf. apply trainCount_zero. exact Hn. }
    cbn. split; [reflexivity | exact Hshp].
  - intros Hf. rewrite (Hone Hf). unfold len. rewrite Nat2Z.id, <- Hshl.
    rewrite drop_all, firstn_all. split; [reflexivity | exact Hshp].
Qed.

(** C4. Two calls with the same records, fraction and seed return the
    same two lists (or stop with the same panic), whatever the state of
    the global generator, the heap and the files before each call; the
    arrangement is the one the seed gives to the positions
    [0 .. |R|-1], so it depends on the seed and on the order and number
    of the records only. *)
Theorem SplitDataset_deterministic c w1 w2 pairs1 pairs2 :
  backed (w_heap w1) pairs1 ->
  backed (w_heap w2) pairs2 ->
  read_slice (w_heap w1) pairs1 = read_slice (w_heap w2) pairs2 ->
  let R := read_slice (w_heap w1) pairs1 in
  observe_split (SplitDataset c pairs1 w1) = observe_split (SplitDataset c pairs2 w2) /\
  observe_split (SplitDataset c pairs1 w1) = split_list c R /\
  forall train val,
    observe_split (SplitDataset c pairs1 w1) = Done (train, val) ->
    train ++ val
      = (fun i => nth i R zero_pair) <$> shuffled_list (Seed c) (seq 0 (length R)) /\
    len train = trainCount (len R) (TrainSplit c).
Proof.
  intros Hb1 Hb2 Heq R.
  rewrite (observe_SplitDataset c w1 pairs1 Hb1), (observe_SplitDataset c w2 pairs2 Hb2).
  rewrite <- Heq. fold R. split; [reflexivity |]. split; [reflexivity |].
  intros train val. unfold split_list.
  destruct ((0 <=? _) && _) eqn:Hk; [| discriminate].
  intros [= <- <-]. rewrite take_drop.
  split.
  - rewrite <- shuffled_list_fmap, <- (list_as_positions zero_pair R). reflexivity.
  - apply andb_true_iff in Hk as [Hk0 Hkn]. apply Z.leb_le in Hk0, Hkn.
    unfold len in *. rewrite length_take, shuffled_list_length. lia.
Qed.

(** C5, as amended. [SplitDataset] does not validate the fraction and
    has no error result: it computes [int(float64(|R|) * f)], rounding
    toward zero; when that count is negative or above [|R|] the slicing
    panics, and when it lies within [0, |R|] the call returns, also for
    a fraction outside [0,1]. *)
Theorem SplitDataset_unvalidated_fraction c w pairs :
  backed (w_heap w) pairs ->
  let R := read_slice (w_heap w) pairs in
  let k := trainCount (len R) (TrainSplit c) in
  (0 <= k <= len R ->
   exists train val,
     observe_split (SplitDataset c pairs w) = Done (train, val) /\ len train = k) /\
  (k < 0 \/ len R < k ->
   observe_split (SplitDataset c pairs w) = Panicked (SliceBoundsOutOfRange k (len R))).
Proof.
  intros Hb R k. rewrite (observe_SplitDataset c w pairs Hb). fold R.
  unfold split_list. fold k. split.
  - intros Hk. assert ((0 <=? k) && (k <=? len R) = true) as ->.
    { apply andb_true_iff. split; apply Z.leb_le; lia. }
    eexists _, _. split; [reflexivity |].
    unfold len in *. rewrite length_take, shuffled_list_length. lia.
  - intros Hk. assert ((0 <=? k) && (k <=? len R) = false) as ->; [| reflexivity].
    apply andb_false_iff. destruct Hk; [left | right]; apply Z.leb_gt; lia.
Qed.
End Split.

(* ================================================================= *)
(** ** [SplitDataset] and the caller's slice *)

Section Frame.
Context `{MR : MathRand}.
Implicit Types (w : World MR).

Lemma writes_only_ret {A} a (x : A) : writes_only a (ret x).
Proof. intros w l _. reflexivity. Qed.

Lemma writes_only_throw {A} a p : writes_only a (@throw MR A p).
Proof. intros w l _. reflexivity. Qed.

Lemma writes_only_bind {A B} a (m : M MR A) (k : A -> M MR B) :
  writes_only a m -> (forall x, writes_only a (k x)) -> writes_only a (bind m k).
Proof.
  intros Hm Hk w l Hl. unfold bind. specialize (Hm w l Hl).
  destruct (m w) as [[x | p] w']; cbn [snd] in *.
  - rewrite (Hk x w' l Hl). exact Hm.
  - exact Hm.
Qed.

Lemma writes_only_slice_get a s i : writes_only a (slice_get s i).
Proof. intros w l _. unfold slice_get. destruct (_ && _); reflexivity. Qed.

Lemma writes_only_slice_set s i v : writes_only (s_arr s) (slice_set s i v).
Proof.
  intros w l Hl. unfold slice_set. destruct (_ && _); [| reflexivity].
  cbn. apply lookup_alter_ne. congruence.
Qed.

Lemma writes_only_slice_store s vs : forall i, writes_only (s_arr s) (slice_store s i vs).
Proof.
  induction vs as [| v vs IH]; intros i; cbn [slice_store].
  - apply writes_only_ret.
  - apply writes_only_bind; [apply writes_only_slice_set | intros _; apply IH].
Qed.

Lemma writes_only_rand_draw a n : writes_only a (rand_draw n).
Proof.
  intros w l _. unfold rand_draw. destruct (rand_Intn _ _). reflexivity.
Qed.

Lemma writes_only_shuffle_from a swap :
  (forall i j, writes_only a (swap i j)) ->
  forall i, writes_only a (shuffle_from i swap).
Proof.
  intros Hswap. induction i as [| i IH]; cbn [shuffle_from].
  - apply writes_only_ret.
  - apply writes_only_bind; [apply writes_only_rand_draw | intros j].
    apply writes_only_bind; [apply Hswap | intros _; apply IH].
Qed.

Lemma writes_only_reslice a s lo hi : writes_only a (reslice s lo hi).
Proof.
  unfold reslice. destruct (negb _); [apply writes_only_throw |].
  destruct (negb _); [apply writes_only_throw | apply writes_only_ret].
Qed.

(** Every array that exists before the call is the same after it: all
    writes of [SplitDataset] go to the array it allocates.  No
    assumption on the generator is needed. *)
Lemma SplitDataset_writes_fresh c w pairs l :
  is_Some (w_heap w !! l) ->
  w_heap (snd (SplitDataset c pairs w)) !! l = w_heap w !! l.
Proof.
  intros Hl. unfold SplitDataset.
  unfold bind at 1, rand_Seed. unfold bind at 1, make_slice.
  cbn [w_heap set_rng].
  set (a := fresh (dom (w_heap w))).
  set (shuffled := {| s_arr := a; s_off := 0; s_len := s_len pairs; s_cap := s_len pairs |}).
  set (w1 := set_heap _ _).
  assert (l <> a) as Hne.
  { intros ->. apply (is_fresh (dom (w_heap w))). apply elem_of_dom. exact Hl. }
  match goal with
  | |- w_heap (snd (?m w1)) !! l = _ =>
    assert (writes_only a m) as Hm
  end.
  { apply writes_only_bind.
    { unfold copy_slice. apply writes_only_bind; [intros w0 l0 _; reflexivity | intros w0].
      apply writes_only_bind; [apply (writes_only_slice_store shuffled) | intros _].
      apply writes_only_ret. }
    intros _. apply writes_only_bind.
    { unfold rand_Shuffle. apply writes_only_shuffle_from. intros i j.
      apply writes_only_bind; [apply writes_only_slice_get | intros vj].
      apply writes_only_bind; [apply writes_only_slice_get | intros vi].
      apply writes_only_bind; [apply (writes_only_slice_set shuffled) | intros _].
      apply (writes_only_slice_set shuffled). }
    intros _. cbv zeta.
    apply writes_only_bind; [apply writes_only_reslice | intros tp].
    apply writes_only_bind; [apply writes_only_reslice | intros vp].
    apply writes_only_ret. }
  rewrite (Hm w1 l Hne). unfold w1. cbn. apply lookup_insert_ne. congruence.
Qed.

(** C10. [SplitDataset] leaves its input unchanged: after the call,
    whether it returned or panicked, the caller's slice holds the same
    records in the same order, and so does every other array that
    existed before, because the shuffle works on a fresh copy. *)
Theorem SplitDataset_input_unchanged c w pairs :
  backed (w_heap w) pairs ->
  read_slice (w_heap (snd (SplitDataset c pairs w))) pairs = read_slice (w_heap w) pairs /\
  forall l, is_Some (w_heap w !! l) ->
            w_heap (snd (SplitDataset c pairs w)) !! l = w_heap w !! l.
Proof.
  intros Hb. split; [| intros l Hl; apply SplitDataset_writes_fresh; exact Hl].
  unfold backed, read_slice in *.
  destruct (w_heap w !! s_arr pairs) as [arr |] eqn:Ha.
  - rewrite SplitDataset_writes_fresh by (rewrite Ha; eauto). rewrite Ha. reflexivity.
  - cbn in Hb. rewrite drop_nil, take_nil in Hb. cbn in Hb. rewrite <- Hb.
    rewrite !take_0. reflexivity.
Qed.
End Frame.

(* ================================================================= *)
(** ** The theorems on [SplitDataset] at concrete inputs *)

Lemma SplitDataset_partition_witness :
  exists train val,
    observe_split (SplitDataset test_config (whole three_pairs) (heap_world three_pairs))
      = Done (train, val) /\
    len train = 2 /\ len val = 1 /\ train ++ val ≡ₚ three_pairs.
Proof.
  destruct (SplitDataset_partition (MRS := lcg_rand_spec) test_config
              (heap_world three_pairs) (whole three_pairs))
    as (train & val & Hrun & Htrain & _ & Hval & Hperm & _);
    [reflexivity | reflexivity | reflexivity | reflexivity | reflexivity |].
  exists train, val. split; [exact Hrun |].
  split; [exact Htrain |]. split; [| exact Hperm].
  rewrite Hval, Htrain. reflexivity.
Defined.

(** Ten records and the fraction 0.7.  The [float64] nearest to 0.7 lies
    below 0.7, so the exact product with 10 lies below 7 and its floor
    is 6; the program rounds the product, to 7, before it discards the
    fraction, and the train subset has seven records. *)
Lemma SplitDataset_train_size_above_floor :
  f64_leb f64_zero f64_0_7 = true /\ f64_leb f64_0_7 f64_one = true /\
  exact_floor (len ten_pairs) f64_0_7 = 6 /\
  exists train val,
    observe_split (SplitDataset (config_with f64_0_7) (whole ten_pairs)
                                (heap_world ten_pairs))
    = Done (train, val) /\
    len train = 7 /\ len val = 3.
Proof.
  split; [reflexivity |]. split; [reflexivity |]. split; [reflexivity |].
  eexists _, _. split; [vm_compute; reflexivity |]. split; reflexivity.
Qed.

Lemma SplitDataset_deterministic_witness :
  observe_split (SplitDataset test_config (whole three_pairs) (heap_world three_pairs))
  = observe_split (SplitDataset test_config (tail_slice three_pairs)
                                (other_heap_world three_pairs)).
Proof.
  apply (SplitDataset_deterministic (MRS := lcg_rand_spec) test_config
           (heap_world three_pairs) (other_heap_world three_pairs)
           (whole three_pairs) (tail_slice three_pairs));
    reflexivity.
Defined.

(** -0.5 is below the unit interval and 1.5 above it; with one record the
    count is 0 and 1, both valid bounds, and the call returns. *)
Lemma SplitDataset_fraction_outside_returns :
  f64_ltb f64_minus_half f64_zero = true /\
  trainCount 1 f64_minus_half = 0 /\
  observe_split (SplitDataset (config_with f64_minus_half) (whole [pair_of "a"])
                              (heap_world [pair_of "a"]))
    = Done ([], [pair_of "a"]) /\
  f64_ltb f64_one f64_1_5 = true /\
  trainCount 1 f64_1_5 = 1 /\
  observe_split (SplitDataset (config_with f64_1_5) (whole [pair_of "a"])
                              (heap_world [pair_of "a"]))
    = Done ([pair_of "a"], []).
Proof. vm_compute. repeat split. Qed.

(** With two records and fraction 1.5 the count is 3 and the slicing
    panics. *)
Lemma SplitDataset_unvalidated_fraction_witness :
  observe_split (SplitDataset (config_with f64_1_5) (whole [pair_of "a"; pair_of "b"])
                              (heap_world [pair_of "a"; pair_of "b"]))
  = Panicked (SliceBoundsOutOfRange 3 2).
Proof.
  apply (SplitDataset_unvalidated_fraction (MRS := lcg_rand_spec) (config_with f64_1_5)
           (heap_world [pair_of "a"; pair_of "b"]) (whole [pair_of "a"; pair_of "b"]));
    [reflexivity | right; reflexivity].
Defined.

Lemma SplitDataset_input_unchanged_witness :
  read_slice
    (w_heap (snd (SplitDataset test_config (whole three_pairs) (heap_world three_pairs))))
    (whole three_pairs)
  = three_pairs.
Proof.
  apply (SplitDataset_input_unchanged test_config (heap_world three_pairs)
           (whole three_pairs)).
  reflexivity.
Defined.


(* ================================================================= *)
(** ** Counters *)

Lemma wrap_int_small z : in_int z -> wrap_int z = z.
Proof.
  unfold in_int, wrap_int, min_int, max_int. intros H.
  rewrite Z.mod_small; lia.
Qed.

Lemma wrap_int_range z : in_int (wrap_int z).
Proof.
  unfold in_int, wrap_int, min_int, max_int.
  pose proof (Z.mod_pos_bound (z - - 2 ^ 63) (2 ^ 64) ltac:(lia)). lia.
Qed.

Lemma int_incr_small z : min_int <= z < max_int -> int_incr z = z + 1.
Proof.
  intros H. unfold int_incr, int_add. apply wrap_int_small. unfold in_int. lia.
Qed.

Lemma int_incr_range z : in_int (int_incr z).
Proof. apply wrap_int_range. Qed.

(* ================================================================= *)
(** ** [ValidateLabels] *)

Section Validate.
Context `{MR : MathRand} `{SC : Strconv}.
Implicit Types (w : World MR) (st : ValidationStats).

(** A coordinate passes the range check when it is NaN or lies in
    [0,1]: both comparisons are false on NaN. *)
Lemma coord_in_range_spec coord :
  coord_in_range coord = true <->
  coord = S754_nan \/ (f64_leb f64_zero coord = true /\ f64_leb coord f64_one = true).
Proof.
  unfold coord_in_range, f64_ltb, f64_leb, SFltb, SFleb, f64_zero, f64_one.
  change (f64_of_int 1) with (S754_finite false (2 ^ 52) (-52)).
  destruct coord as [s | s | | s m e]; cbn [SFcompare].
  - destruct s; cbn; intuition congruence.
  - destruct s; cbn; intuition congruence.
  - cbn. intuition congruence.
  - destruct s; [cbn; intuition congruence |].
    rewrite (Z.compare_antisym e (-52)).
    pose proof (Pos.compare_cont_antisym m (2 ^ 52) Eq) as Hanti.
    cbn [CompOpp] in Hanti. rewrite <- Hanti.
    destruct (e ?= -52); cbn; try (intuition congruence).
    destruct (Pos.compare_cont Eq m (2 ^ 52)); cbn; intuition congruence.
Qed.

Lemma finite_in_unit_spec coord :
  coord <> S754_nan -> finite_in_unit coord = coord_in_range coord.
Proof.
  intros Hnan. destruct (coord_in_range coord) eqn:Hc.
  - apply coord_in_range_spec in Hc as [-> | [H0 H1]]; [congruence |].
    unfold finite_in_unit. rewrite H0, H1.
    destruct coord as [| [|] | |]; try reflexivity; try discriminate.
  - destruct (finite_in_unit coord) eqn:Hf; [| reflexivity].
    assert (coord_in_range coord = true); [| congruence].
    apply coord_in_range_spec. right. unfold finite_in_unit in Hf.
    destruct coord; try discriminate; apply andb_true_iff in Hf; exact Hf.
Qed.

(** The program counts a line as the rules say, with the range check
    of the code as the test of a coordinate. *)
Lemma scan_line_verdict (st : Z * Z) text :
  scan_line st text = count_verdict st (verdict_with coord_in_range text).
Proof.
  destruct st as [invalid validLines].
  unfold scan_line, verdict_with.
  destruct (String.eqb (strings_TrimSpace text) ""); [reflexivity |].
  destruct (strings_Fields (strings_TrimSpace text))
    as [| cls [| x [| y [| wd [| ht [| extra rest]]]]]]; try reflexivity.
  - cbn [negb len length Z.of_nat Z.eqb Pos.eqb Pos.of_succ_nat Pos.succ].
    cbn [nth check_coords forallb].
    destruct (strconv_Atoi cls); cbn [bool_decide andb]; [| reflexivity].
    rewrite bool_decide_eq_true_2 by eauto. cbn [andb].
    unfold coord_in_range.
    destruct (strconv_ParseFloat x) as [cx |]; [| reflexivity].
    destruct (f64_ltb cx f64_zero || f64_ltb f64_one cx); [reflexivity |].
    destruct (strconv_ParseFloat y) as [cy |]; [| reflexivity].
    destruct (f64_ltb cy f64_zero || f64_ltb f64_one cy); [reflexivity |].
    destruct (strconv_ParseFloat wd) as [cw |]; [| reflexivity].
    destruct (f64_ltb cw f64_zero || f64_ltb f64_one cw); [reflexivity |].
    destruct (strconv_ParseFloat ht) as [ch |]; [| reflexivity].
    destruct (f64_ltb ch f64_zero || f64_ltb f64_one ch); reflexivity.
  - assert ((len (cls :: x :: y :: wd :: ht :: extra :: rest) =? 5) = false) as ->.
    { apply Z.eqb_neq. unfold len. cbn [length]. lia. }
    reflexivity.
Qed.

(** The rules of the specification and the program give the same
    verdict on every line none of whose fields parses to NaN. *)
Lemma scan_line_spec_verdict (st : Z * Z) text :
  (forall t, t ∈ strings_Fields (strings_TrimSpace text) ->
             strconv_ParseFloat t <> Some S754_nan) ->
  scan_line st text = count_verdict st (verdict_with finite_in_unit text).
Proof.
  intros Hnan. rewrite scan_line_verdict. f_equal.
  unfold verdict_with.
  destruct (String.eqb (strings_TrimSpace text) ""); [reflexivity |].
  destruct (strings_Fields (strings_TrimSpace text))
    as [| cls [| x [| y [| wd [| ht [| extra rest]]]]]]; try reflexivity.
  assert (forall t, t ∈ [x; y; wd; ht] ->
            match strconv_ParseFloat t with
            | Some coord => coord_in_range coord
            | None => false
            end
            = match strconv_ParseFloat t with
              | Some coord => finite_in_unit coord
              | None => false
              end) as Hsame.
  { intros t Ht.
    assert (strconv_ParseFloat t <> Some S754_nan) as Ht'.
    { apply Hnan. apply elem_of_cons. right. exact Ht. }
    destruct (strconv_ParseFloat t) as [coord |]; [| reflexivity].
    symmetry. apply finite_in_unit_spec. intros ->. apply Ht'. reflexivity. }
  cbn [forallb].
  rewrite (Hsame x), (Hsame y), (Hsame wd), (Hsame ht) by set_solver.
  reflexivity.
Qed.

Lemma scan_line_invalid_range (st : Z * Z) text :
  in_int (fst st) -> in_int (fst (scan_line st text)).
Proof.
  intros H. rewrite scan_line_verdict.
  destruct (verdict_with coord_in_range text); cbn; try exact H.
  apply int_incr_range.
Qed.

Lemma scan_lines_invalid_range lines : forall st : Z * Z,
  in_int (fst st) -> in_int (fst (fold_left scan_line lines st)).
Proof.
  induction lines as [| text lines IH]; intros st H; [exact H |].
  cbn [fold_left]. apply IH. apply scan_line_invalid_range. exact H.
Qed.

Lemma validate_file_invalid_range w st lp :
  in_int (InvalidLines st) -> in_int (InvalidLines (validate_file w st lp)).
Proof.
  intros H. unfold validate_file.
  destruct (os_Open w (LabelPath lp)) as [file | e]; [| apply int_incr_range].
  destruct (scan_lines file) as [lines scan_err].
  pose proof (scan_lines_invalid_range lines (InvalidLines st, 0) H) as Hin.
  destruct (fold_left scan_line lines (InvalidLines st, 0)) as [invalid validLines].
  destruct scan_err; [apply int_incr_range | exact Hin].
Qed.

Lemma validate_files_invalid_range w l : forall st,
  in_int (InvalidLines st) -> in_int (InvalidLines (fold_left (validate_file w) l st)).
Proof.
  induction l as [| lp l IH]; intros st H; [exact H |].
  cbn [fold_left]. apply IH. apply validate_file_invalid_range. exact H.
Qed.

(** C8. A record whose label file fails to open adds one to the
    invalid-line counter (wrapping at the largest [int], as Go does, so
    exactly one below it) and changes no other counter; the records
    after it are processed as usual, and [ValidateLabels] returns a nil
    error. *)
Theorem ValidateLabels_open_failure w pairs before lp after e :
  read_slice (w_heap w) pairs = before ++ lp :: after ->
  os_Open w (LabelPath lp) = Err e ->
  let reached := fold_left (validate_file w) before (initial_stats (slice_len pairs)) in
  let counted := validate_file w reached lp in
  InvalidLines counted = int_incr (InvalidLines reached) /\
  (InvalidLines reached < max_int -> InvalidLines counted = InvalidLines reached + 1) /\
  TotalFiles counted = TotalFiles reached /\
  TotalAnnotations counted = TotalAnnotations reached /\
  FilesWithAnnotations counted = FilesWithAnnotations reached /\
  EmptyFiles counted = EmptyFiles reached /\
  fst (ValidateLabels w pairs) = fold_left (validate_file w) after counted /\
  snd (ValidateLabels w pairs) = None.
Proof.
  intros Hread Hopen reached counted.
  assert (counted = set_InvalidLines (int_incr (InvalidLines reached)) reached) as Hc.
  { unfold counted, validate_file. rewrite Hopen. reflexivity. }
  assert (in_int (InvalidLines reached)) as Hrange.
  { apply validate_files_invalid_range. cbn. unfold in_int, min_int, max_int. lia. }
  split; [rewrite Hc; reflexivity |].
  split.
  { intros Hlt. rewrite Hc. cbn [InvalidLines set_InvalidLines].
    apply int_incr_small. unfold in_int in Hrange. lia. }
  repeat (split; [rewrite Hc; reflexivity |]).
  split; [| reflexivity].
  unfold ValidateLabels. cbn [fst]. rewrite Hread, fold_left_app. reflexivity.
Qed.

Lemma validate_file_counts w st lp :
  let st' := validate_file w st lp in
  TotalFiles st' = TotalFiles st /\
  if unreadable w lp then
    FilesWithAnnotations st' = FilesWithAnnotations st /\ EmptyFiles st' = EmptyFiles st
  else
    (FilesWithAnnotations st' = int_incr (FilesWithAnnotations st)
     /\ EmptyFiles st' = EmptyFiles st) \/
    (FilesWithAnnotations st' = FilesWithAnnotations st
     /\ EmptyFiles st' = int_incr (EmptyFiles st)).
Proof.
  unfold validate_file, unreadable.
  destruct (os_Open w (LabelPath lp)) as [file | e]; [| cbn; auto].
  destruct (scan_lines file) as [lines scan_err]. cbn [snd].
  destruct (fold_left scan_line lines (InvalidLines st, 0)) as [invalid validLines].
  destruct scan_err; [cbn; auto |].
  cbn. split; [reflexivity |]. destruct (validLines >? 0); auto.
Qed.

Lemma validate_files_counts w l : forall st,
  0 <= FilesWithAnnotations st -> 0 <= EmptyFiles st ->
  FilesWithAnnotations st + EmptyFiles st + len l <= max_int ->
  let st' := fold_left (validate_file w) l st in
  TotalFiles st' = TotalFiles st /\
  0 <= FilesWithAnnotations st' /\ 0 <= EmptyFiles st' /\
  FilesWithAnnotations st' + EmptyFiles st'
    = FilesWithAnnotations st + EmptyFiles st
      + (len l - len (List.filter (unreadable w) l)).
Proof.
  induction l as [| lp l IH]; intros st Hf He Hsum.
  - cbn. unfold len. cbn. lia.
  - cbn [fold_left List.filter]. unfold len in *. cbn [length] in *.
    pose proof (validate_file_counts w st lp) as [Ht Hstep]. cbv zeta in Ht, Hstep.
    set (st1 := validate_file w st lp) in *.
    assert (min_int <= 0) as Hmin by (unfold min_int; lia).
    destruct (unreadable w lp).
    + destruct Hstep as [Hf1 He1].
      destruct (IH st1) as (IHt & IHf & IHe & IHs); [lia | lia | lia |].
      cbv zeta in *. cbn [length]. rewrite IHt, IHs, Hf1, He1.
      repeat split; try lia; assumption.
    + assert (forall x, 0 <= x < max_int -> int_incr x = x + 1) as Hincr.
      { intros x Hx. apply int_incr_small. lia. }
      destruct Hstep as [[Hf1 He1] | [Hf1 He1]];
        rewrite Hincr in * by lia;
        (destruct (IH st1) as (IHt & IHf & IHe & IHs); [lia | lia | lia |]);
        cbv zeta in *; rewrite IHt, IHs, Hf1, He1;
        repeat split; try lia; assumption.
Qed.

(** C9. After [ValidateLabels], the files with annotations and the
    empty files together are the files that could be opened and
    scanned to the end: [files_with_annotations + empty_files] is
    [total_files] minus the number of unreadable files, and equals
    [total_files] when every label file is readable. *)
Theorem ValidateLabels_file_counts w pairs :
  backed (w_heap w) pairs ->
  slice_len pairs <= max_int ->
  let stats := fst (ValidateLabels w pairs) in
  let R := read_slice (w_heap w) pairs in
  TotalFiles stats = len R /\
  FilesWithAnnotations stats + EmptyFiles stats
    = TotalFiles stats - len (List.filter (unreadable w) R) /\
  (Forall (fun lp => unreadable w lp = false) R ->
   FilesWithAnnotations stats + EmptyFiles stats = TotalFiles stats).
Proof.
  intros Hb Hlen stats R. unfold backed in Hb. fold R in Hb.
  assert (slice_len pairs = len R) as Hn by (unfold slice_len, len; lia).
  destruct (validate_files_counts w R (initial_stats (slice_len pairs)))
    as (Ht & _ & _ & Hs); cbn [initial_stats FilesWithAnnotations EmptyFiles]; try lia.
  cbv zeta in Ht, Hs. cbn [initial_stats TotalFiles FilesWithAnnotations EmptyFiles] in Ht, Hs.
  unfold stats, ValidateLabels. cbn [fst]. fold R.
  change {| TotalFiles := slice_len pairs; TotalAnnotations := 0;
            FilesWithAnnotations := 0; EmptyFiles := 0; InvalidLines := 0 |}
    with (initial_stats (slice_len pairs)).
  rewrite Ht, Hs, Hn. split; [reflexivity |]. split; [lia |].
  intros Hall.
  assert (List.filter (unreadable w) R = []) as ->.
  { clear -Hall. induction Hall as [| lp l Hlp _ IH]; [reflexivity |].
    cbn. rewrite Hlp. exact IH. }
  unfold len. cbn. lia.
Qed.
End Validate.

(* ================================================================= *)
(** ** [ValidateLabels] at concrete inputs *)

(** C2. A line with NaN as a coordinate is counted valid by the program,
    while the rules (a finite number within [0,1]) make it invalid: the
    range check [coord < 0 || coord > 1] is false on NaN.  The label file
    holding that line is reported with one annotation and no invalid
    line. *)
Theorem scan_line_counts_NaN_valid :
  scan_line (0, 0) nan_line = (0, 1) /\
  verdict_with finite_in_unit nan_line = Invalid /\
  ValidateLabels (loaded [record_of "a.jpg" "a.txt"] nan_world)
                 (whole [record_of "a.jpg" "a.txt"])
  = ({| TotalFiles := 1; TotalAnnotations := 1; FilesWithAnnotations := 1;
        EmptyFiles := 0; InvalidLines := 0 |}, None).
Proof. vm_compute. repeat split. Qed.

Lemma ValidateLabels_open_failure_witness :
  InvalidLines (fst (ValidateLabels (loaded [record_of "a.jpg" "a.txt"] unreadable_world)
                                    (whole [record_of "a.jpg" "a.txt"]))) = 1 /\
  snd (ValidateLabels (loaded [record_of "a.jpg" "a.txt"] unreadable_world)
                      (whole [record_of "a.jpg" "a.txt"])) = None.
Proof.
  destruct (ValidateLabels_open_failure
              (loaded [record_of "a.jpg" "a.txt"] unreadable_world)
              (whole [record_of "a.jpg" "a.txt"])
              [] (record_of "a.jpg" "a.txt") [] EACCES)
    as (_ & Hone & _ & _ & _ & _ & Hrest & Hnil);
    [reflexivity | reflexivity |].
  split; [| exact Hnil].
  rewrite Hrest. cbn [fold_left] in Hone |- *. rewrite Hone; reflexivity.
Defined.

Lemma ValidateLabels_file_counts_witness :
  let stats := fst (ValidateLabels (loaded test_records test_world) (whole test_records)) in
  FilesWithAnnotations stats + EmptyFiles stats = 3.
Proof.
  destruct (ValidateLabels_file_counts (loaded test_records test_world) (whole test_records))
    as (Htotal & _ & Hall);
    [reflexivity | vm_compute; discriminate |].
  cbv zeta. rewrite Hall.
  - rewrite Htotal. reflexivity.
  - repeat constructor.
Defined.

(* ================================================================= *)
(** ** [Convert] on an empty record set *)

Section Empty.
Context `{MR : MathRand} `{SC : Strconv} `{YE : Yaml}.
Implicit Types (w : World MR) (c : Config).

Lemma create_dirs_result dirs : forall w,
  exists r w', create_dirs dirs w = (Done r, w') /\ r <> Some ErrNoPairs.
Proof.
  induction dirs as [| dir dirs IH]; intros w; cbn [create_dirs].
  - eexists _, _. split; [reflexivity | discriminate].
  - unfold bind at 1, os_MkdirAll, bind, get, update_fs.
    destruct (fs_mkdir_all _ _) as [fs | e].
    + apply IH.
    + eexists _, _. split; [reflexivity | discriminate].
Qed.

Lemma copyFile_done src dst w :
  exists r w', copyFile src dst w = (Done r, w').
Proof.
  unfold copyFile, bind at 1, get.
  destruct (os_Open w src); [| eexists _, _; reflexivity].
  unfold bind at 1, os_Create, bind at 1, get, update_fs.
  destruct (fs_alter create_node _ _) as [fs | e]; [| eexists _, _; reflexivity].
  unfold bind at 1, get.
  destruct (os_Stat _ src) as [[r d | es] | e]; try (eexists _, _; reflexivity).
  unfold file_Write, bind, get, update_fs.
  destruct (fs_alter _ _ _); eexists _, _; reflexivity.
Qed.

Lemma copy_pairs_result idir ldir pairs : forall w,
  exists r w', copy_pairs idir ldir pairs w = (Done r, w') /\ r <> Some ErrNoPairs.
Proof.
  induction pairs as [| lp pairs IH]; intros w; cbn [copy_pairs].
  - eexists _, _. split; [reflexivity | discriminate].
  - unfold bind at 1.
    destruct (copyFile_done (ImagePath lp) (filepath_Join [idir; filepath_Base (ImagePath lp)]) w)
      as (r1 & w1 & ->).
    destruct r1 as [e |]; [eexists _, _; split; [reflexivity | discriminate] |].
    unfold bind at 1.
    destruct (copyFile_done (LabelPath lp) (filepath_Join [ldir; filepath_Base (LabelPath lp)]) w1)
      as (r2 & w2 & ->).
    destruct r2 as [e |]; [eexists _, _; split; [reflexivity | discriminate] |].
    apply IH.
Qed.

Lemma CreateYAMLConfig_result c classes w :
  exists r w', CreateYAMLConfig c classes w = (Done r, w') /\ r <> Some ErrNoPairs.
Proof.
  unfold CreateYAMLConfig, bind at 1, get. unfold bind at 1.
  unfold os_Create, bind at 1, get, update_fs.
  destruct (fs_alter create_node _ _) as [fs | e].
  - unfold file_Write, bind, get, update_fs, ret.
    repeat (destruct (fs_alter _ _ _)); eexists _, _; (split; [reflexivity | discriminate]).
  - eexists _, _. split; [reflexivity | discriminate].
Qed.

(** C7. When pair matching finds no image-label pair, [Convert] fails
    with "no valid image-label pairs found" and leaves the world as it
    was: no directory has been created and no file written.  Whenever
    [Convert] returns that error, the file system is the one it started
    from. *)
Theorem Convert_empty_dataset c w :
  (ValidateSourceStructure c w = None ->
   (exists classes, LoadClasses c w = inl classes) ->
   image_label_pairs c w = inl [] ->
   Convert c w = (Done (Some ErrNoPairs), w)) /\
  (fst (Convert c w) = Done (Some ErrNoPairs) -> w_fs (snd (Convert c w)) = w_fs w).
Proof.
  split.
  - intros Hv [classes Hc] Hp. unfold Convert, bind at 1, get.
    rewrite Hv, Hc. unfold bind at 1, GetImageLabelPairs, bind at 1, get.
    rewrite Hp. reflexivity.
  - destruct (Convert c w) as [r w'] eqn:Hrun. cbn [fst snd]. intros ->.
    revert Hrun. unfold Convert, bind at 1, get.
    destruct (ValidateSourceStructure c w); [intros [= _ <-]; reflexivity |].
    destruct (LoadClasses c w) as [classes | err]; [| intros [= _ <-]; reflexivity].
    unfold bind at 1, GetImageLabelPairs, bind at 1, get.
    destruct (image_label_pairs c w) as [l | err]; [| intros [= _ <-]; reflexivity].
    destruct l as [| lp l]; [intros [= <-]; reflexivity |].
    unfold bind at 1, slice_of_list, ret at 1.
    set (pairs := {| s_arr := _ |}). set (w1 := set_heap _ _).
    change (slice_len pairs =? 0) with false. cbv iota.
    unfold bind at 1, get. unfold ValidateLabels. cbv iota beta.
    unfold bind at 1.
    destruct (SplitDataset c pairs w1) as [[[trainPairs valPairs] | p] w2];
      [| discriminate].
    unfold bind at 1, CreateYOLOStructure.
    match goal with
    | |- context [create_dirs ?dirs w2] =>
      destruct (create_dirs_result dirs w2) as (r3 & w3 & -> & Hr3)
    end.
    destruct r3 as [e3 |]; [intros [= H]; congruence |].
    unfold bind at 1, CopyFiles at 1, bind at 1, get.
    match goal with
    | |- context [copy_pairs ?i ?l ?ps w3] =>
      destruct (copy_pairs_result i l ps w3) as (r4 & w4 & -> & Hr4)
    end.
    destruct r4 as [e4 |]; [intros [= H]; congruence |].
    unfold bind at 1, CopyFiles at 1, bind at 1, get.
    match goal with
    | |- context [copy_pairs ?i ?l ?ps w4] =>
      destruct (copy_pairs_result i l ps w4) as (r5 & w5 & -> & Hr5)
    end.
    destruct r5 as [e5 |]; [intros [= H]; congruence |].
    destruct (CreateYAMLConfig_result c classes w5) as (r6 & w6 & -> & Hr6).
    intros [= H]. congruence.
Qed.
End Empty.

(* ================================================================= *)
(** ** [GetImageLabelPairs] *)

Section Pairs.
Context `{MR : MathRand}.
Implicit Types (w : World MR) (c : Config).

Lemma insert_by_name_elem x y l : x ∈ insert_by_name y l <-> x = y \/ x ∈ l.
Proof.
  induction l as [| z l IH]; cbn [insert_by_name].
  - rewrite list_elem_of_singleton. split; [intros ->; left; reflexivity |].
    intros [-> | H]; [reflexivity | inversion H].
  - destruct (String.leb (fst y) (fst z)).
    + rewrite elem_of_cons. reflexivity.
    + rewrite !elem_of_cons, IH. tauto.
Qed.

Lemma sort_by_name_elem x l : x ∈ sort_by_name l <-> x ∈ l.
Proof.
  unfold sort_by_name. induction l as [| y l IH]; cbn [fold_right].
  - reflexivity.
  - rewrite insert_by_name_elem, IH, elem_of_cons. reflexivity.
Qed.

(** A file in a directory is visited by the walk of that directory. *)
Lemma walk_node_visits_file path dirname entries name r data :
  entries !! name = Some (File r data) ->
  Visit (filepath_Join [path; name]) name false ∈ walk_node path dirname (Dir entries).
Proof.
  intros Hname. cbn [walk_node]. apply elem_of_cons. right.
  apply list_elem_of_In, in_concat.
  exists [Visit (filepath_Join [path; name]) name false].
  split; [| left; reflexivity].
  apply in_map_iff. exists (name, [Visit (filepath_Join [path; name]) name false]).
  split; [reflexivity |].
  apply list_elem_of_In, sort_by_name_elem.
  rewrite map_fold_foldr.
  apply elem_of_map_to_list in Hname.
  induction (map_to_list entries) as [| [nm child] l IH]; [inversion Hname |].
  cbn [foldr uncurry]. apply elem_of_cons in Hname as [Heq | Hin].
  - injection Heq as <- <-. apply elem_of_cons. left. reflexivity.
  - apply elem_of_cons. right. apply IH. exact Hin.
Qed.

Lemma visit_image_keeps w labelsDir pairs v lp :
  lp ∈ pairs -> lp ∈ visit_image w labelsDir pairs v.
Proof.
  intros Hin. unfold visit_image. destruct v as [path name is_dir].
  destruct is_dir; [exact Hin |].
  destruct (negb _); [exact Hin |].
  destruct (os_Stat w _); [| exact Hin].
  apply elem_of_app. left. exact Hin.
Qed.

Lemma visit_images_collects w labelsDir v lp :
  (forall pairs, lp ∈ visit_image w labelsDir pairs v) ->
  forall visits pairs,
    lp ∈ pairs \/ v ∈ visits -> lp ∈ fold_left (visit_image w labelsDir) visits pairs.
Proof.
  intros Hv. induction visits as [| v' visits IH]; intros pairs H; cbn [fold_left].
  - destruct H as [H | H]; [exact H | inversion H].
  - apply IH. destruct H as [H | H].
    + left. apply visit_image_keeps. exact H.
    + apply elem_of_cons in H as [<- | H]; [left; apply Hv | right; exact H].
Qed.

(** C6, as amended. The extension test ignores letter case: a file in
    the images directory whose extension, in lower case, is one of the
    recognized ones passes it, and is in the Record set when the label
    path derived for it exists. *)
Theorem GetImageLabelPairs_extension_case c w entries name r data :
  let imagesDir := filepath_Join [SourceDir c; "images"] in
  let labelsDir := filepath_Join [SourceDir c; "labels"] in
  let ext := strings_ToLower (filepath_Ext name) in
  let labelPath :=
    filepath_Join [labelsDir; (strings_TrimSuffix name ext ++ ".txt")%string] in
  os_Stat w imagesDir = Ok (Dir entries) ->
  entries !! name = Some (File r data) ->
  is_ascii name = true ->
  ext ∈ [".jpg"; ".jpeg"; ".png"; ".bmp"; ".tiff"; ".webp"]%string ->
  (exists n, os_Stat w labelPath = Ok n) ->
  exists records,
    image_label_pairs c w = inl records /\
    {| ImagePath := filepath_Join [imagesDir; name]; LabelPath := labelPath |} ∈ records.
Proof.
  intros imagesDir labelsDir ext labelPath Hdir Hname _ Hext [n Hlabel].
  unfold image_label_pairs, filepath_Walk. fold imagesDir. fold labelsDir.
  rewrite Hdir. eexists. split; [reflexivity |].
  apply (visit_images_collects w labelsDir (Visit (filepath_Join [imagesDir; name]) name false)).
  - intros pairs. unfold visit_image. fold ext. fold labelPath.
    assert (default false (imageExtensions !! ext) = true) as ->.
    { repeat (apply elem_of_cons in Hext as [-> | Hext]; [reflexivity |]).
      inversion Hext. }
    cbn [negb]. rewrite Hlabel. apply elem_of_app. right.
    apply list_elem_of_singleton. reflexivity.
  - right. eapply walk_node_visits_file. exact Hname.
Qed.
End Pairs.

(* ================================================================= *)
(** ** Writing a file twice *)

Lemma fs_alter_cons f es c p :
  fs_alter f (Dir es) (c :: p)
  = match es !! c with
    | Some child =>
      match fs_alter f child p with
      | Ok n' => Ok (Dir (<[c := n']> es))
      | Err e => Err e
      end
    | None =>
      match p with
      | [] => match f None with
              | Ok n' => Ok (Dir (<[c := n']> es))
              | Err e => Err e
              end
      | _ :: _ => Err ENOENT
      end
    end.
Proof. cbn [fs_alter]. destruct (es !! c), p; reflexivity. Qed.

Lemma fs_alter_create_file fs p fs' :
  fs_alter create_node fs p = Ok fs' -> file_at fs' p.
Proof.
  revert fs fs'. induction p as [| c p IH]; intros fs fs'.
  - cbn. destruct fs as [[|] d | es]; try discriminate.
    intros [= <-]. exists true, EmptyString. reflexivity.
  - destruct fs as [r d | es]; [discriminate |]. rewrite fs_alter_cons.
    destruct (es !! c) as [child |] eqn:Hc.
    + destruct (fs_alter create_node child p) as [n' |] eqn:Hn; [| discriminate].
      intros [= <-]. destruct (IH _ _ Hn) as (r & d & Hl). exists r, d.
      cbn [fs_lookup]. rewrite lookup_insert_eq. exact Hl.
    + destruct p as [| c' p']; [| discriminate].
      cbn. intros [= <-]. exists true, EmptyString.
      cbn. rewrite lookup_insert_eq. reflexivity.
Qed.

Lemma fs_alter_append_file fs p bytes :
  file_at fs p ->
  exists fs', fs_alter (append_node bytes) fs p = Ok fs' /\
              file_at fs' p /\
              fs_alter create_node fs' p = fs_alter create_node fs p.
Proof.
  revert fs. induction p as [| c p IH]; intros fs (r & d & Hl).
  - cbn in Hl. injection Hl as ->. eexists. split; [reflexivity |].
    split; [exists r, (d ++ bytes)%string; reflexivity | reflexivity].
  - cbn [fs_lookup] in Hl. destruct fs as [r0 d0 | es]; [discriminate |].
    destruct (es !! c) as [child |] eqn:Hc; [| discriminate].
    destruct (IH child) as (child' & Ha & Hf & Hcr); [exists r, d; exact Hl |].
    exists (Dir (<[c := child']> es)).
    rewrite !fs_alter_cons, Hc, Ha, lookup_insert_eq, Hcr.
    split; [reflexivity |]. split.
    + destruct Hf as (r' & d' & Hl'). exists r', d'.
      cbn [fs_lookup]. rewrite lookup_insert_eq. exact Hl'.
    + destruct (fs_alter create_node child p); [| reflexivity].
      rewrite insert_insert_eq. reflexivity.
Qed.

Lemma fs_alter_create_twice fs p fs' :
  fs_alter create_node fs p = Ok fs' -> fs_alter create_node fs' p = Ok fs'.
Proof.
  revert fs fs'. induction p as [| c p IH]; intros fs fs'.
  - cbn. destruct fs as [[|] d | es]; try discriminate. intros [= <-]. reflexivity.
  - destruct fs as [r d | es]; [discriminate |]. rewrite fs_alter_cons.
    destruct (es !! c) as [child |] eqn:Hc.
    + destruct (fs_alter create_node child p) as [n' |] eqn:Hn; [| discriminate].
      intros [= <-].
      rewrite fs_alter_cons, lookup_insert_eq, (IH _ _ Hn), insert_insert_eq.
      reflexivity.
    + destruct p as [| c' p']; [| discriminate]. cbn [create_node].
      intros [= <-]. rewrite fs_alter_cons, lookup_insert_eq. cbn.
      rewrite insert_insert_eq. reflexivity.
Qed.

(* ================================================================= *)
(** ** Two runs of [Convert] *)

Section Reproducible.
Context `{MR : MathRand} `{SC : Strconv} `{YE : Yaml}.
Implicit Types (w : World MR) (c : Config) (h : gmap loc (list LabelPair)).

Lemma os_Stat_same w1 w2 path : same_files w1 w2 -> os_Stat w1 path = os_Stat w2 path.
Proof. intros [Hfs Hcwd]. unfold os_Stat. rewrite Hfs, Hcwd. reflexivity. Qed.

Lemma os_Open_same w1 w2 path : same_files w1 w2 -> os_Open w1 path = os_Open w2 path.
Proof. intros H. unfold os_Open. rewrite (os_Stat_same w1 w2 path H). reflexivity. Qed.

Lemma ValidateSourceStructure_same c w1 w2 :
  same_files w1 w2 -> ValidateSourceStructure c w1 = ValidateSourceStructure c w2.
Proof.
  intros H. unfold ValidateSourceStructure. cbn [List.find].
  rewrite !(os_Stat_same w1 w2 _ H). reflexivity.
Qed.

Lemma LoadClasses_same c w1 w2 :
  same_files w1 w2 -> LoadClasses c w1 = LoadClasses c w2.
Proof.
  intros H. unfold LoadClasses. rewrite (os_Open_same w1 w2 _ H). reflexivity.
Qed.

Lemma visit_image_same w1 w2 labelsDir pairs v :
  same_files w1 w2 -> visit_image w1 labelsDir pairs v = visit_image w2 labelsDir pairs v.
Proof.
  intros H. unfold visit_image. destruct v as [path name is_dir].
  rewrite (os_Stat_same w1 w2 _ H). reflexivity.
Qed.

Lemma image_label_pairs_same c w1 w2 :
  same_files w1 w2 -> image_label_pairs c w1 = image_label_pairs c w2.
Proof.
  intros H. unfold image_label_pairs, filepath_Walk.
  rewrite (os_Stat_same w1 w2 _ H).
  destruct (os_Stat w2 _) as [n | e]; [| reflexivity]. f_equal.
  generalize (@nil LabelPair). 
  induction (walk_node _ _ n) as [| v visits IH]; intros acc; [reflexivity |].
  cbn [fold_left]. rewrite (visit_image_same w1 w2 _ _ _ H). apply IH.
Qed.

Lemma same_files_set_fs fs w1 w2 :
  same_files w1 w2 -> same_files (set_fs fs w1) (set_fs fs w2).
Proof. intros [_ Hcwd]. split; [reflexivity | exact Hcwd]. Qed.

Lemma agree_ret {A} h1 h2 (x : A) : agree h1 h2 (ret x) (ret x).
Proof.
  intros w1 w2 [Hfs Hcwd] _ _. split; [reflexivity |].
  exists (w_fs w1). split; [destruct w1; reflexivity |].
  rewrite Hfs. destruct w2; reflexivity.
Qed.

Lemma agree_bind {A B} h1 h2 (m1 m2 : M MR A) (k1 k2 : A -> M MR B) :
  agree h1 h2 m1 m2 -> (forall x, agree h1 h2 (k1 x) (k2 x)) ->
  agree h1 h2 (bind m1 k1) (bind m2 k2).
Proof.
  intros Hm Hk w1 w2 Hs H1 H2. unfold bind.
  destruct (Hm w1 w2 Hs H1 H2) as (Hr & fs & Hw1 & Hw2).
  destruct (m1 w1) as [r1 w1'], (m2 w2) as [r2 w2']. cbn [fst snd] in *. subst.
  destruct r2 as [x | p].
  - destruct (Hk x (set_fs fs w1) (set_fs fs w2)) as (Hr' & fs' & Hw1' & Hw2');
      [apply same_files_set_fs; exact Hs | reflexivity | reflexivity |].
    split; [exact Hr' |]. exists fs'. rewrite Hw1', Hw2'. split; reflexivity.
  - split; [reflexivity |]. exists fs. split; reflexivity.
Qed.

(** Reading the world first: the readings may differ, as long as what
    follows agrees. *)
Lemma agree_get {A} h1 h2 (k1 k2 : World MR -> M MR A) :
  (forall w1 w2, same_files w1 w2 -> w_heap w1 = h1 -> w_heap w2 = h2 ->
                 agree h1 h2 (k1 w1) (k2 w2)) ->
  agree h1 h2 (bind get k1) (bind get k2).
Proof.
  intros Hk w1 w2 Hs H1 H2. unfold bind, get.
  apply (Hk w1 w2 Hs H1 H2 w1 w2 Hs H1 H2).
Qed.

Lemma agree_update_fs h1 h2 f : agree h1 h2 (update_fs f) (update_fs f).
Proof.
  intros w1 w2 [Hfs Hcwd] _ _. unfold update_fs. rewrite Hfs.
  destruct (f (w_fs w2)) as [fs | e]; (split; [reflexivity |]).
  - exists fs. split; reflexivity.
  - exists (w_fs w2). split; [rewrite <- Hfs; destruct w1 | destruct w2]; reflexivity.
Qed.

Lemma agree_os_MkdirAll h1 h2 path : agree h1 h2 (os_MkdirAll path) (os_MkdirAll path).
Proof.
  unfold os_MkdirAll. apply agree_get. intros w1 w2 [_ Hcwd] _ _.
  rewrite Hcwd. apply agree_update_fs.
Qed.

Lemma agree_os_Create h1 h2 path : agree h1 h2 (os_Create path) (os_Create path).
Proof.
  unfold os_Create. apply agree_get. intros w1 w2 [_ Hcwd] _ _.
  rewrite Hcwd. apply agree_update_fs.
Qed.

Lemma agree_file_Write h1 h2 path bytes :
  agree h1 h2 (file_Write path bytes) (file_Write path bytes).
Proof.
  unfold file_Write. apply agree_get. intros w1 w2 [_ Hcwd] _ _.
  rewrite Hcwd. apply agree_update_fs.
Qed.

Lemma agree_copyFile h1 h2 src dst : agree h1 h2 (copyFile src dst) (copyFile src dst).
Proof.
  unfold copyFile. apply agree_get. intros w1 w2 Hs _ _.
  rewrite (os_Open_same w1 w2 src Hs).
  destruct (os_Open w2 src); [| apply agree_ret].
  apply agree_bind; [apply agree_os_Create | intros [e |]]; [apply agree_ret |].
  apply agree_get. intros w1' w2' Hs' _ _.
  rewrite (os_Stat_same w1' w2' src Hs').
  destruct (os_Stat w2' src) as [[r d | es] | e];
    [apply agree_file_Write | apply agree_ret | apply agree_ret].
Qed.

Lemma agree_create_dirs h1 h2 dirs : agree h1 h2 (create_dirs dirs) (create_dirs dirs).
Proof.
  induction dirs as [| dir dirs IH]; cbn [create_dirs]; [apply agree_ret |].
  apply agree_bind; [apply agree_os_MkdirAll | intros [e |]];
    [apply agree_ret | exact IH].
Qed.

Lemma agree_copy_pairs h1 h2 idir ldir pairs :
  agree h1 h2 (copy_pairs idir ldir pairs) (copy_pairs idir ldir pairs).
Proof.
  induction pairs as [| lp pairs IH]; cbn [copy_pairs]; [apply agree_ret |].
  apply agree_bind; [apply agree_copyFile | intros [e |]]; [apply agree_ret |].
  apply agree_bind; [apply agree_copyFile | intros [e |]];
    [apply agree_ret | exact IH].
Qed.

(** [CopyFiles] on two slices that hold the same records. *)
Lemma agree_CopyFiles c h1 h2 s1 s2 splitType :
  read_slice h1 s1 = read_slice h2 s2 ->
  agree h1 h2 (CopyFiles c s1 splitType) (CopyFiles c s2 splitType).
Proof.
  intros Hread. unfold CopyFiles. apply agree_get. intros w1 w2 _ H1 H2.
  rewrite H1, H2, Hread. apply agree_copy_pairs.
Qed.

Lemma without_config_same c w1 w2 :
  same_files w1 w2 -> without_config c w1 = without_config c w2.
Proof. intros [Hfs Hcwd]. unfold without_config. rewrite Hfs, Hcwd. reflexivity. Qed.

Lemma ends_alike_ret c t1 t2 h1 h2 r : ends_alike c t1 t2 h1 h2 (ret r) (ret r).
Proof.
  intros w1 w2 Hs _ _ _ _. cbn. split; [reflexivity |].
  split; [apply without_config_same; exact Hs | intros _; apply Hs].
Qed.

Lemma ends_alike_bind {A} c t1 t2 h1 h2 (m1 m2 : M MR A) k1 k2 :
  agree h1 h2 m1 m2 -> (forall x, ends_alike c t1 t2 h1 h2 (k1 x) (k2 x)) ->
  ends_alike c t1 t2 h1 h2 (bind m1 k1) (bind m2 k2).
Proof.
  intros Hm Hk w1 w2 Hs H1 H2 Ht1 Ht2. unfold bind.
  destruct (Hm w1 w2 Hs H1 H2) as (Hr & fs & Hw1 & Hw2).
  destruct (m1 w1) as [r1 w1'], (m2 w2) as [r2 w2']. cbn [fst snd] in *. subst r1 w1' w2'.
  destruct r2 as [x | p].
  - apply Hk; [apply same_files_set_fs; exact Hs | exact H1 | exact H2 | exact Ht1 | exact Ht2].
  - cbn. split; [reflexivity |].
    split; [apply without_config_same, same_files_set_fs; exact Hs | reflexivity].
Qed.

Lemma CreateYAMLConfig_run c classes w :
  let p := resolve (w_cwd w) (filepath_Join [OutputDir c; "data.yaml"]) in
  let config := {| Path := filepath_Abs (w_cwd w) (OutputDir c);
                   Train := "images/train"; Val := "images/val";
                   NC := len classes; Names := classes |} in
  CreateYAMLConfig c classes w =
    match fs_alter create_node (w_fs w) p with
    | Err e => (Done (Some (ErrCreateYAML e)), w)
    | Ok fs0 =>
      match fs_alter (append_node (yaml_header (w_now w))) fs0 p with
      | Err e => (Done (Some (ErrWriteHeader e)), set_fs fs0 w)
      | Ok fs1 =>
        match fs_alter (append_node (yaml_Encode config)) fs1 p with
        | Err e => (Done (Some (ErrEncodeYAML e)), set_fs fs1 w)
        | Ok fs2 => (Done None, set_fs fs2 w)
        end
      end
    end.
Proof.
  intros p config. unfold CreateYAMLConfig, bind at 1, get. fold config.
  unfold bind at 1, os_Create, bind at 1, get, update_fs. fold p.
  destruct (fs_alter create_node (w_fs w) p) as [fs0 | e]; [| reflexivity].
  unfold bind at 1, file_Write at 1, bind at 1, get, update_fs.
  cbn [w_fs w_cwd set_fs]. fold p.
  destruct (fs_alter (append_node _) fs0 p) as [fs1 | e]; [| reflexivity].
  unfold bind at 1, file_Write at 1, bind at 1, get, update_fs.
  cbn [w_fs w_cwd set_fs]. fold p.
  destruct (fs_alter (append_node _) fs1 p) as [fs2 | e]; reflexivity.
Qed.

(** The configuration files of two runs differ in the time stamp of the
    header at most. *)
Lemma ends_alike_CreateYAMLConfig c t1 t2 h1 h2 classes :
  ends_alike c t1 t2 h1 h2 (CreateYAMLConfig c classes) (CreateYAMLConfig c classes).
Proof.
  intros w1 w2 [Hfs Hcwd] _ _ Ht1 Ht2.
  rewrite !CreateYAMLConfig_run. cbv zeta. unfold without_config.
  rewrite Hfs, Hcwd, Ht1, Ht2.
  set (config := {| Path := _ |}).
  set (p := resolve (w_cwd w2) _).
  destruct (fs_alter create_node (w_fs w2) p) as [fs0 | e] eqn:Hc.
  - pose proof (fs_alter_create_file _ _ _ Hc) as Hf0.
    pose proof (fs_alter_create_twice _ _ _ Hc) as Hc0.
    destruct (fs_alter_append_file fs0 p (yaml_header t1) Hf0) as (fs1 & Ha1 & Hf1 & Hc1).
    destruct (fs_alter_append_file fs0 p (yaml_header t2) Hf0) as (fs2 & Ha2 & Hf2 & Hc2).
    rewrite Ha1, Ha2.
    destruct (fs_alter_append_file fs1 p (yaml_Encode config) Hf1) as (fs1' & Hb1 & _ & Hd1).
    destruct (fs_alter_append_file fs2 p (yaml_Encode config) Hf2) as (fs2' & Hb2 & _ & Hd2).
    rewrite Hb1, Hb2. cbn [fst snd w_fs w_cwd set_fs]. fold p.
    split; [reflexivity |]. split; [rewrite Hcwd; fold p; congruence |].
    intros Hfmt.
    assert (yaml_header t1 = yaml_header t2) as Hh
        by (unfold yaml_header; rewrite Hfmt; reflexivity).
    rewrite Hh in Ha1. congruence.
  - cbn [fst snd w_fs w_cwd]. fold p. rewrite Hfs, Hcwd. fold p. rewrite Hc.
    repeat split.
Qed.

Lemma read_split_world c w pairs off n cap :
  read_slice (w_heap (split_world c w pairs))
             {| s_arr := fresh (dom (w_heap w)); s_off := off; s_len := n; s_cap := cap |}
  = take n (drop off (shuffled_list (Seed c) (read_slice (w_heap w) pairs))).
Proof.
  unfold read_slice. cbn [s_arr s_off s_len]. rewrite split_world_heap, lookup_insert_eq.
  reflexivity.
Qed.

Context {MRS : MathRandSpec}.

(** Two runs of [Convert] with the same configuration, each
    started from the same file system and working directory, end with
    the same result and with the same output tree up to the contents of
    [data.yaml], whatever the states of the generator and of the heap
    were; the trees are identical when the clock readings of the two
    runs are written alike in the header of [data.yaml]. *)
Theorem Convert_reproducible c w1 w2 :
  same_files w1 w2 ->
  fst (Convert c w1) = fst (Convert c w2) /\
  without_config c (snd (Convert c w1)) = without_config c (snd (Convert c w2)) /\
  (format_RFC3339 (w_now w1) = format_RFC3339 (w_now w2) ->
   w_fs (snd (Convert c w1)) = w_fs (snd (Convert c w2))).
Proof.
  intros Hs.
  assert (forall r (wa wb : World MR), same_files wa wb ->
            fst (r, wa) = fst (r, wb) /\
            without_config c (snd (r : outcome (option error), wa))
              = without_config c (snd (r, wb)) /\
            (format_RFC3339 (w_now w1) = format_RFC3339 (w_now w2) ->
             w_fs (snd (r, wa)) = w_fs (snd (r, wb)))) as Hstop.
  { intros r wa wb Hab. split; [reflexivity |].
    split; [apply without_config_same; exact Hab | intros _; apply Hab]. }
  destruct (Convert c w1) as [r1 w1'] eqn:E1.
  destruct (Convert c w2) as [r2 w2'] eqn:E2.
  unfold Convert, bind at 1, get in E1. unfold Convert, bind at 1, get in E2.
  rewrite <- (ValidateSourceStructure_same c w1 w2 Hs) in E2.
  destruct (ValidateSourceStructure c w1) as [err |].
  { injection E1 as <- <-. injection E2 as <- <-. apply Hstop. exact Hs. }
  rewrite <- (LoadClasses_same c w1 w2 Hs) in E2.
  destruct (LoadClasses c w1) as [classes | err].
  2:{ injection E1 as <- <-. injection E2 as <- <-. apply Hstop. exact Hs. }
  unfold bind at 1, GetImageLabelPairs, bind at 1, get in E1.
  unfold bind at 1, GetImageLabelPairs, bind at 1, get in E2.
  rewrite <- (image_label_pairs_same c w1 w2 Hs) in E2.
  destruct (image_label_pairs c w1) as [l | err].
  2:{ injection E1 as <- <-. injection E2 as <- <-. apply Hstop. exact Hs. }
  destruct l as [| lp l].
  { injection E1 as <- <-. injection E2 as <- <-. apply Hstop. exact Hs. }
  unfold bind at 1, slice_of_list, ret at 1 in E1.
  unfold bind at 1, slice_of_list, ret at 1 in E2.
  set (R := lp :: l) in *.
  change {| s_arr := fresh (dom (w_heap w1)); s_off := 0; s_len := length R;
            s_cap := length R |}
    with (slice_at (fresh (dom (w_heap w1))) (length R) (length R)) in E1.
  change {| s_arr := fresh (dom (w_heap w2)); s_off := 0; s_len := length R;
            s_cap := length R |}
    with (slice_at (fresh (dom (w_heap w2))) (length R) (length R)) in E2.
  set (pairs1 := slice_at (fresh (dom (w_heap w1))) _ _) in E1.
  set (pairs2 := slice_at (fresh (dom (w_heap w2))) _ _) in E2.
  set (wa := set_heap _ w1) in E1. set (wb := set_heap _ w2) in E2.
  change (slice_len pairs1 =? 0) with false in E1.
  change (slice_len pairs2 =? 0) with false in E2.
  cbv iota in E1, E2.
  unfold bind at 1, get, ValidateLabels in E1. unfold bind at 1, get, ValidateLabels in E2.
  cbv iota beta in E1, E2.
  assert (read_slice (w_heap wa) pairs1 = R) as HR1.
  { apply read_slice_whole; [apply lookup_insert_eq | reflexivity]. }
  assert (read_slice (w_heap wb) pairs2 = R) as HR2.
  { apply read_slice_whole; [apply lookup_insert_eq | reflexivity]. }
  assert (same_files wa wb) as Hab by (destruct Hs; split; assumption).
  unfold bind at 1 in E1. unfold bind at 1 in E2.
  rewrite (SplitDataset_run c wa pairs1) in E1 by (unfold backed; rewrite HR1; reflexivity).
  rewrite (SplitDataset_run c wb pairs2) in E2 by (unfold backed; rewrite HR2; reflexivity).
  cbv zeta in E1, E2. rewrite HR1 in E1. rewrite HR2 in E2.
  assert (same_files (split_world c wa pairs1) (split_world c wb pairs2)) as Hsw.
  { destruct Hab. split; assumption. }
  destruct ((0 <=? trainCount (len R) (TrainSplit c))
            && (trainCount (len R) (TrainSplit c) <=? len R)).
  2:{ injection E1 as <- <-. injection E2 as <- <-. apply Hstop. exact Hsw. }
  match type of E1 with
  | ?m1 ?wa' = _ =>
    match type of E2 with
    | ?m2 ?wb' = _ =>
      assert (ends_alike c (w_now w1) (w_now w2) (w_heap wa') (w_heap wb') m1 m2) as Hend
    end
  end.
  { apply ends_alike_bind; [apply agree_create_dirs | intros [e |]];
      [apply ends_alike_ret |].
    apply ends_alike_bind.
    { apply agree_CopyFiles. rewrite !read_split_world, HR1, HR2. reflexivity. }
    intros [e |]; [apply ends_alike_ret |].
    apply ends_alike_bind.
    { apply agree_CopyFiles. rewrite !read_split_world, HR1, HR2. reflexivity. }
    intros [e |]; [apply ends_alike_ret |].
    apply ends_alike_CreateYAMLConfig. }
  specialize (Hend _ _ Hsw eq_refl eq_refl eq_refl eq_refl).
  rewrite E1, E2 in Hend. exact Hend.
Qed.
End Reproducible.

(* ================================================================= *)
(** ** [Convert] and [GetImageLabelPairs] at concrete inputs *)


(** At the same clock reading the second run leaves the tree of the
    first as it is. *)
Lemma Convert_twice_same_clock : w_fs second_run_same_clock = w_fs first_run.
Proof. vm_compute. reflexivity. Qed.

Lemma Convert_reproducible_witness :
  without_config test_config (snd (Convert test_config test_world))
  = without_config test_config (snd (Convert test_config later_world)).
Proof.
  apply (Convert_reproducible (MRS := lcg_rand_spec) test_config test_world later_world).
  split; reflexivity.
Defined.

Lemma Convert_empty_dataset_witness :
  Convert test_config empty_world = (Done (Some ErrNoPairs), empty_world).
Proof.
  apply (Convert_empty_dataset test_config empty_world).
  - reflexivity.
  - exists ["book"%string]. reflexivity.
  - reflexivity.
Defined.

(** [photo.JPG] with the label file [photo.JPG.txt] is in the Record
    set. *)
Lemma GetImageLabelPairs_includes_upper_case :
  image_label_pairs test_config upper_case_world
  = inl [record_of "photo.JPG" "photo.JPG.txt"].
Proof. vm_compute. reflexivity. Qed.

(** With the label file [photo.txt] it is not: the label path is derived
    by removing the lower-case extension from the name, which leaves
    [photo.JPG] whole. *)
Lemma GetImageLabelPairs_upper_case_label_path :
  image_label_pairs test_config upper_case_plain_world = inl [].
Proof. vm_compute. reflexivity. Qed.

Lemma GetImageLabelPairs_extension_case_witness :
  exists records,
    image_label_pairs test_config upper_case_world = inl records /\
    record_of "photo.JPG" "photo.JPG.txt" ∈ records.
Proof.
  apply (GetImageLabelPairs_extension_case test_config upper_case_world
           {[ "photo.JPG"%string := File true "fake image data" ]}
           "photo.JPG" true "fake image data").
  - vm_compute. reflexivity.
  - reflexivity.
  - reflexivity.
  - vm_compute. apply elem_of_cons. left. reflexivity.
  - eexists. vm_compute. reflexivity.
Defined.

(* ================================================================= *)
(** ** The file system: what an operation keeps *)

(** The operations of the program on the tree: [fs_mkdir_all] makes
    directories, [fs_alter] creates a file or writes to one. Neither
    removes a node or changes its kind, and each leaves the contents of
    the files elsewhere as they are. *)

Lemma writes_file_create : writes_file create_node.
Proof.
  split.
  - intros es. eexists. reflexivity.
  - intros [[[|] d | es] |] n; cbn; intros [= <-] || discriminate; reflexivity.
Qed.

Lemma writes_file_append bytes : writes_file (append_node bytes).
Proof.
  split.
  - intros es. eexists. reflexivity.
  - intros [[r d | es] |] n; cbn; intros [= <-] || discriminate; reflexivity.
Qed.

Lemma persists_refl fs : persists fs fs.
Proof. intros q n H. eauto. Qed.

Lemma persists_trans fs1 fs2 fs3 :
  persists fs1 fs2 -> persists fs2 fs3 -> persists fs1 fs3.
Proof.
  intros H12 H23 q n H.
  destruct (H12 q n H) as (n2 & H2 & K2).
  destruct (H23 q n2 H2) as (n3 & H3 & K3).
  exists n3. split; [exact H3 | congruence].
Qed.

Lemma fs_lookup_app n p q :
  fs_lookup n (p ++ q)
  = match fs_lookup n p with Ok n' => fs_lookup n' q | Err e => Err e end.
Proof.
  revert n. induction p as [| c p IH]; intros n; [reflexivity |].
  cbn [app fs_lookup]. destruct n as [r d | es]; [reflexivity |].
  destruct (es !! c); [apply IH | reflexivity].
Qed.

(** *** [fs_mkdir_all] *)

Lemma fs_mkdir_all_dir p : forall n n',
  fs_mkdir_all n p = Ok n' -> exists es, fs_lookup n' p = Ok (Dir es).
Proof.
  induction p as [| c p IH]; intros n n'; destruct n as [r d | es]; cbn; try discriminate.
  - intros [= <-]. eauto.
  - destruct (fs_mkdir_all _ p) as [n'' |] eqn:Hm; [| discriminate].
    intros [= <-]. cbn. rewrite lookup_insert_eq. eapply IH, Hm.
Qed.

Lemma fs_mkdir_all_noop p : forall n es,
  fs_lookup n p = Ok (Dir es) -> fs_mkdir_all n p = Ok n.
Proof.
  induction p as [| c p IH]; intros n es0; destruct n as [r d | es]; cbn; try discriminate.
  - reflexivity.
  - destruct (es !! c) as [ch |] eqn:Hc; [| discriminate].
    intros H. cbn. rewrite (IH _ _ H). rewrite insert_id by exact Hc. reflexivity.
Qed.

Lemma fs_mkdir_all_again n p n' :
  fs_mkdir_all n p = Ok n' -> fs_mkdir_all n' p = Ok n'.
Proof.
  intros H. destruct (fs_mkdir_all_dir _ _ _ H) as [es Hes].
  eapply fs_mkdir_all_noop, Hes.
Qed.

Lemma file_data_cons es c q :
  file_data (Dir es) (c :: q)
  = match es !! c with Some ch => file_data ch q | None => None end.
Proof. unfold file_data. cbn. destruct (es !! c); reflexivity. Qed.

Lemma file_data_below_file r d c q : file_data (File r d) (c :: q) = None.
Proof. reflexivity. Qed.

Lemma file_data_is_file fs p r d :
  file_data fs p = Some (r, d) <-> fs_lookup fs p = Ok (File r d).
Proof.
  unfold file_data. destruct (fs_lookup fs p) as [[r0 d0 | es] | e]; split; congruence.
Qed.

(** [fs_mkdir_all] creates no file and changes none. *)
Lemma fs_mkdir_all_file_data p : forall n n' q,
  fs_mkdir_all n p = Ok n' -> file_data n' q = file_data n q.
Proof.
  induction p as [| c p IH]; intros n n' q; destruct n as [r0 d0 | es]; cbn;
    try discriminate.
  - intros [= <-]. reflexivity.
  - destruct (fs_mkdir_all _ p) as [n'' |] eqn:Hm; [| discriminate].
    intros [= <-]. destruct q as [| c0 q]; [reflexivity |].
    rewrite !file_data_cons.
    destruct (decide (c0 = c)) as [-> | Hne].
    + rewrite lookup_insert_eq, (IH _ _ q Hm).
      destruct (es !! c) as [ch |]; cbn; [reflexivity |].
      destruct q; [reflexivity |]. rewrite file_data_cons, lookup_empty. reflexivity.
    + rewrite lookup_insert_ne by congruence. reflexivity.
Qed.

Lemma fs_mkdir_all_persists p : forall n n',
  fs_mkdir_all n p = Ok n' -> persists n n'.
Proof.
  induction p as [| c p IH]; intros n n'; destruct n as [r0 d0 | es]; cbn;
    try discriminate.
  - intros [= <-]. apply persists_refl.
  - destruct (fs_mkdir_all _ p) as [n'' |] eqn:Hm; [| discriminate].
    intros [= <-] q m. destruct q as [| c0 q]; cbn.
    + intros [= <-]. eauto.
    + destruct (decide (c0 = c)) as [-> | Hne].
      * rewrite lookup_insert_eq. destruct (es !! c) as [ch |]; [| discriminate].
        cbn in Hm. intros H. eapply IH; eassumption.
      * rewrite lookup_insert_ne by congruence. destruct (es !! c0); [| discriminate].
        eauto.
Qed.

(** The only way [fs_mkdir_all] fails. *)
Lemma fs_mkdir_all_error p : forall n e,
  fs_mkdir_all n p = Err e -> e = ENOTDIR.
Proof.
  induction p as [| c p IH]; intros n e; destruct n as [r0 d0 | es]; cbn;
    try congruence.
  destruct (fs_mkdir_all _ p) as [n'' |] eqn:Hm; [discriminate |].
  intros [= <-]. eapply IH, Hm.
Qed.

(** *** [fs_alter] *)

Lemma fs_alter_lookup f p : forall n n',
  fs_alter f n p = Ok n' ->
  exists m, fs_lookup n' p = Ok m /\ f (node_at n p) = Ok m.
Proof.
  unfold node_at.
  induction p as [| c p IH]; intros n n'.
  - cbn. intros ->. eauto.
  - destruct n as [r d | es]; [discriminate |]. rewrite fs_alter_cons. cbn [fs_lookup].
    destruct (es !! c) as [ch |] eqn:Hc.
    + destruct (fs_alter f ch p) as [n'' |] eqn:Ha; [| discriminate].
      intros [= <-]. cbn. rewrite lookup_insert_eq. eapply IH, Ha.
    + destruct p as [| c1 p]; [| discriminate].
      destruct (f None) as [n'' |] eqn:Hf; [| discriminate].
      intros [= <-]. cbn. rewrite lookup_insert_eq. eauto.
Qed.

Lemma fs_alter_dir_shape f es c p n' :
  fs_alter f (Dir es) (c :: p) = Ok n' -> exists x, n' = Dir (<[c := x]> es).
Proof.
  rewrite fs_alter_cons. destruct (es !! c) as [ch |].
  - destruct (fs_alter f ch p); [| discriminate]. intros [= <-]. eauto.
  - destruct p; [| discriminate]. destruct (f None); [| discriminate].
    intros [= <-]. eauto.
Qed.

(** A function that writes files, applied at [p], creates no file and
    changes none elsewhere. *)
Lemma fs_alter_file_data f p : writes_file f -> forall n n' q,
  fs_alter f n p = Ok n' -> q <> p -> file_data n' q = file_data n q.
Proof.
  intros [Hdir Hfile].
  induction p as [| c p IH]; intros n n' q.
  - cbn. intros Hf Hq. destruct q as [| c0 q]; [congruence |].
    pose proof (Hfile _ _ Hf) as Hn'. destruct n' as [r' d' | es']; [| discriminate].
    destruct n as [r0 d0 | es]; [reflexivity |].
    destruct (Hdir es) as [e He]. congruence.
  - destruct n as [r0 d0 | es]; [discriminate |].
    intros Ha Hq. destruct q as [| c0 q].
    { destruct (fs_alter_dir_shape _ _ _ _ _ Ha) as [x ->]. reflexivity. }
    destruct (decide (c0 = c)) as [-> | Hne].
    + revert Ha. rewrite fs_alter_cons, file_data_cons.
      destruct (es !! c) as [ch |] eqn:Hc.
      * destruct (fs_alter f ch p) as [n'' |] eqn:Hch; [| discriminate].
        intros [= <-]. rewrite file_data_cons, lookup_insert_eq.
        eapply IH; [exact Hch | congruence].
      * destruct p as [| c1 p]; [| discriminate].
        destruct (f None) as [x |] eqn:Hf; [| discriminate].
        intros [= <-]. rewrite file_data_cons, lookup_insert_eq.
        pose proof (Hfile _ _ Hf) as Hx. destruct x as [r' d' | es']; [| discriminate].
        destruct q; [congruence | reflexivity].
    + destruct (fs_alter_dir_shape _ _ _ _ _ Ha) as [x ->].
      rewrite !file_data_cons, lookup_insert_ne by congruence. reflexivity.
Qed.

Lemma fs_alter_persists f p : writes_file f -> forall n n',
  fs_alter f n p = Ok n' -> persists n n'.
Proof.
  intros [Hdir Hfile].
  induction p as [| c p IH]; intros n n'.
  - cbn. intros Hf q m. destruct n as [r0 d0 | es].
    + destruct q; cbn; [| discriminate]. intros [= <-].
      exists n'. split; [reflexivity |]. eapply Hfile, Hf.
    + destruct (Hdir es) as [e He]. congruence.
  - destruct n as [r0 d0 | es]; [discriminate |]. rewrite fs_alter_cons.
    intros Ha q m. destruct q as [| c0 q]; cbn.
    + intros [= <-]. exists n'. split; [reflexivity |].
      destruct (es !! c) as [ch |].
      * destruct (fs_alter f ch p); [| discriminate]. injection Ha as <-. reflexivity.
      * destruct p; [| discriminate]. destruct (f None); [| discriminate].
        injection Ha as <-. reflexivity.
    + destruct (decide (c0 = c)) as [-> | Hne].
      * destruct (es !! c) as [ch |] eqn:Hc; [| discriminate].
        destruct (fs_alter f ch p) as [n'' |] eqn:Hch; [| discriminate].
        injection Ha as <-. cbn. rewrite lookup_insert_eq. eapply IH, Hch.
      * assert (exists x, n' = Dir (<[c := x]> es)) as [x ->].
        { destruct (es !! c) as [ch |].
          - destruct (fs_alter f ch p); [| discriminate]. injection Ha as <-. eauto.
          - destruct p; [| discriminate]. destruct (f None); [| discriminate].
            injection Ha as <-. eauto. }
        cbn. rewrite lookup_insert_ne by congruence.
        destruct (es !! c0); [| discriminate]. eauto.
Qed.

(** Directories are left as they are by a function that writes files,
    except for the entries on the way to [p]. *)
Lemma fs_alter_node_at_self f p n n' m :
  fs_alter f n p = Ok n' -> fs_lookup n' p = Ok m -> f (node_at n p) = Ok m.
Proof.
  intros Ha Hl. destruct (fs_alter_lookup _ _ _ _ Ha) as (m' & Hm' & Hf). congruence.
Qed.


(* ================================================================= *)
(** ** [copyFile] in closed form *)

Section Files.
Context `{MR : MathRand}.
Implicit Types (w : World MR).

Lemma set_fs_same w : set_fs (w_fs w) w = w.
Proof. destruct w; reflexivity. Qed.

Lemma fs_alter_at f p : forall fs n m,
  fs_lookup fs p = Ok n -> f (Some n) = Ok m ->
  exists fs', fs_alter f fs p = Ok fs' /\ fs_lookup fs' p = Ok m.
Proof.
  induction p as [| c p IH]; intros fs n m.
  - cbn. intros [= ->] Hf. eauto.
  - destruct fs as [r d | es]; [discriminate |]. rewrite fs_alter_cons. cbn [fs_lookup].
    destruct (es !! c) as [ch |]; [| discriminate].
    intros Hl Hf. destruct (IH _ _ _ Hl Hf) as (fs' & -> & Hm).
    eexists. split; [reflexivity |]. cbn. rewrite lookup_insert_eq. exact Hm.
Qed.

(** [copyFile] on the tree: [S] and [D] are the places [src] and [dst]
    name. *)
Lemma copyFile_run src dst w :
  let S := resolve (w_cwd w) src in
  let D := resolve (w_cwd w) dst in
  copyFile src dst w =
    match os_Open w src with
    | Err e => (Done (Some e), w)
    | Ok _ =>
      match fs_alter create_node (w_fs w) D with
      | Err e => (Done (Some e), w)
      | Ok fs0 =>
        match fs_lookup fs0 S with
        | Ok (File _ data) =>
          match fs_alter (append_node data) fs0 D with
          | Ok fs1 => (Done None, set_fs fs1 w)
          | Err e => (Done (Some e), set_fs fs0 w)
          end
        | Ok (Dir _) => (Done (Some EISDIR), set_fs fs0 w)
        | Err e => (Done (Some e), set_fs fs0 w)
        end
      end
    end.
Proof.
  intros S D. unfold copyFile, bind at 1, get.
  destruct (os_Open w src); [| reflexivity].
  unfold bind at 1, os_Create, bind at 1, get, update_fs. fold D.
  destruct (fs_alter create_node _ _) as [fs0 | e]; [| reflexivity].
  unfold bind at 1, get, os_Stat. cbn [w_fs w_cwd set_fs]. fold S.
  destruct (fs_lookup fs0 S) as [[r d | es] | e]; reflexivity.
Qed.

Lemma fs_created fs p fs' :
  fs_alter create_node fs p = Ok fs' -> fs_lookup fs' p = Ok (File true "").
Proof.
  intros H. destruct (fs_alter_lookup _ _ _ _ H) as (m & Hm & Hf).
  rewrite Hm. f_equal. unfold create_node in Hf.
  destruct (node_at fs p) as [[[|] d | es] |]; congruence.
Qed.

Lemma fs_appended fs p r d bytes fs' :
  fs_lookup fs p = Ok (File r d) ->
  fs_alter (append_node bytes) fs p = Ok fs' ->
  fs_lookup fs' p = Ok (File r (d ++ bytes)).
Proof.
  intros Hl H. destruct (fs_alter_lookup _ _ _ _ H) as (m & Hm & Hf).
  rewrite Hm. f_equal. unfold node_at in Hf. rewrite Hl in Hf. cbn in Hf. congruence.
Qed.

Lemma persists_dir fs fs' p es :
  persists fs fs' -> fs_lookup fs p = Ok (Dir es) -> exists es', fs_lookup fs' p = Ok (Dir es').
Proof.
  intros Hp Hl. destruct (Hp _ _ Hl) as (n' & Hn' & Hk).
  destruct n' as [r d | es']; [discriminate |]. eauto.
Qed.

Lemma persists_file fs fs' p r d :
  persists fs fs' -> fs_lookup fs p = Ok (File r d) ->
  exists r' d', fs_lookup fs' p = Ok (File r' d').
Proof.
  intros Hp Hl. destruct (Hp _ _ Hl) as (n' & Hn' & Hk).
  destruct n' as [r' d' | es']; [| discriminate]. eauto.
Qed.

(** What a successful [copyFile] between two different places does. *)
Lemma copyFile_ok src dst w w' :
  resolve (w_cwd w) src <> resolve (w_cwd w) dst ->
  copyFile src dst w = (Done None, w') ->
  exists data fs',
    w' = set_fs fs' w /\
    file_data (w_fs w) (resolve (w_cwd w) src) = Some (true, data) /\
    file_data fs' (resolve (w_cwd w) dst) = Some (true, data) /\
    (forall q, q <> resolve (w_cwd w) dst -> file_data fs' q = file_data (w_fs w) q) /\
    persists (w_fs w) fs'.
Proof.
  intros Hne. rewrite copyFile_run. cbv zeta.
  set (S := resolve (w_cwd w) src) in *. set (D := resolve (w_cwd w) dst) in *.
  unfold os_Open, os_Stat. fold S.
  destruct (fs_lookup (w_fs w) S) as [[[|] data | es] | e] eqn:HS; cbn [open_node];
    try discriminate.
  - destruct (fs_alter create_node (w_fs w) D) as [fs0 |] eqn:Hc; [| discriminate].
    pose proof (fs_alter_file_data _ _ writes_file_create _ _ S Hc Hne) as HS0.
    apply file_data_is_file in HS. rewrite HS in HS0. apply file_data_is_file in HS0.
    rewrite HS0.
    destruct (fs_alter (append_node data) fs0 D) as [fs1 |] eqn:Ha; [| discriminate].
    intros [= <-]. exists data, fs1. split; [reflexivity |].
    split; [exact HS |]. split.
    { apply file_data_is_file.
      apply (fs_appended _ _ _ _ _ _ (fs_created _ _ _ Hc) Ha). }
    split.
    { intros q Hq.
      rewrite (fs_alter_file_data _ _ (writes_file_append data) _ _ q Ha Hq).
      apply (fs_alter_file_data _ _ writes_file_create _ _ q Hc Hq). }
    eapply persists_trans.
    + eapply fs_alter_persists; [apply writes_file_create | exact Hc].
    + eapply fs_alter_persists; [apply writes_file_append | exact Ha].
  - destruct (fs_alter create_node (w_fs w) D) as [fs0 |] eqn:Hc; [| discriminate].
    destruct (persists_dir _ fs0 _ _ (fs_alter_persists _ _ writes_file_create _ _ Hc) HS)
      as [es' ->].
    discriminate.
Qed.

(** [copyFile] of a readable file onto itself. *)
Lemma copyFile_self src dst w data :
  resolve (w_cwd w) src = resolve (w_cwd w) dst ->
  os_Stat w src = Ok (File true data) ->
  exists fs',
    copyFile src dst w = (Done None, set_fs fs' w) /\
    fs_lookup fs' (resolve (w_cwd w) src) = Ok (File true "") /\
    (forall q, q <> resolve (w_cwd w) src -> file_data fs' q = file_data (w_fs w) q).
Proof.
  intros Heq HS. rewrite copyFile_run. cbv zeta. unfold os_Open. rewrite HS. cbn [open_node].
  unfold os_Stat in HS. rewrite <- Heq.
  destruct (fs_alter_at create_node _ _ _ (File true "") HS eq_refl) as (fs0 & Hc & H0).
  rewrite Hc, H0.
  destruct (fs_alter_at (append_node "") _ _ _ (File true "") H0 eq_refl) as (fs1 & Ha & H1).
  rewrite Ha. exists fs1. split; [reflexivity |]. split; [exact H1 |].
  intros q Hq.
  rewrite (fs_alter_file_data _ _ (writes_file_append "") _ _ q Ha Hq).
  apply (fs_alter_file_data _ _ writes_file_create _ _ q Hc Hq).
Qed.

(** Whatever [copyFile] does: it does not panic, only the tree changes,
    nothing is removed and the kinds stay; no file but the destination is
    created or changed. *)
Lemma copyFile_any src dst w :
  exists r fs',
    copyFile src dst w = (Done r, set_fs fs' w) /\ persists (w_fs w) fs' /\
    (forall q, q <> resolve (w_cwd w) dst -> file_data fs' q = file_data (w_fs w) q).
Proof.
  rewrite copyFile_run. cbv zeta.
  assert (forall r : option errno,
            exists fs', (Done r, w) = (Done r, set_fs fs' w) /\ persists (w_fs w) fs' /\
              (forall q, q <> resolve (w_cwd w) dst ->
                 file_data fs' q = file_data (w_fs w) q))
    as Hstay.
  { intros r. exists (w_fs w). rewrite set_fs_same.
    split; [reflexivity |]. split; [apply persists_refl | reflexivity]. }
  destruct (os_Open w src); [| eexists; apply Hstay].
  destruct (fs_alter create_node _ _) as [fs0 |] eqn:Hc; [| eexists; apply Hstay].
  pose proof (fs_alter_persists _ _ writes_file_create _ _ Hc) as Hp0.
  pose proof (fun q => fs_alter_file_data _ _ writes_file_create _ _ q Hc) as Hf0.
  destruct (fs_lookup fs0 _) as [[r d | es] | e];
    try (eexists _, fs0; split; [reflexivity | split; [exact Hp0 | exact Hf0]]).
  destruct (fs_alter (append_node d) _ _) as [fs1 |] eqn:Ha;
    [| eexists _, fs0; split; [reflexivity | split; [exact Hp0 | exact Hf0]]].
  eexists _, fs1. split; [reflexivity |]. split.
  - eapply persists_trans; [exact Hp0 |].
    eapply fs_alter_persists; [apply writes_file_append | exact Ha].
  - intros q Hq.
    rewrite (fs_alter_file_data _ _ (writes_file_append d) _ _ q Ha Hq). apply Hf0, Hq.
Qed.

End Files.


(* ================================================================= *)
(** ** The directories of [CreateYOLOStructure] *)

Section Dirs.
Context `{MR : MathRand} `{SC : Strconv} `{YE : Yaml}.
Implicit Types (w : World MR) (c : Config).

Lemma set_fs_set_fs fs fs' w : set_fs fs' (set_fs fs w) = set_fs fs' w.
Proof. reflexivity. Qed.

Lemma os_MkdirAll_run path w :
  os_MkdirAll path w =
    match fs_mkdir_all (w_fs w) (resolve (w_cwd w) path) with
    | Ok fs => (Done None, set_fs fs w)
    | Err e => (Done (Some e), w)
    end.
Proof. reflexivity. Qed.

(** A successful [create_dirs]: only the tree changes; the directories
    exist afterwards, files are as they were and nothing is removed. *)
Lemma create_dirs_ok dirs : forall w w',
  create_dirs dirs w = (Done None, w') ->
  exists fs',
    w' = set_fs fs' w /\
    (forall dir, dir ∈ dirs -> exists es, fs_lookup fs' (resolve (w_cwd w) dir) = Ok (Dir es)) /\
    (forall q, file_data fs' q = file_data (w_fs w) q) /\
    persists (w_fs w) fs'.
Proof.
  induction dirs as [| dir dirs IH]; intros w w'; cbn [create_dirs].
  - intros [= <-]. exists (w_fs w). rewrite set_fs_same.
    repeat split; [| apply persists_refl].
    intros dir Hd. inversion Hd.
  - unfold bind at 1. rewrite os_MkdirAll_run.
    destruct (fs_mkdir_all _ _) as [fs1 |] eqn:Hm; [| discriminate].
    intros Hrun. destruct (IH _ _ Hrun) as (fs' & -> & Hdirs & Hfiles & Hp).
    cbn [w_fs w_cwd set_fs] in *.
    exists fs'. split; [reflexivity |]. split; [| split].
    + intros dir' [-> | Hd]%elem_of_cons; [| apply Hdirs, Hd].
      destruct (fs_mkdir_all_dir _ _ _ Hm) as [es Hes].
      eapply persists_dir; eassumption.
    + intros q. rewrite Hfiles. eapply fs_mkdir_all_file_data, Hm.
    + eapply persists_trans; [eapply fs_mkdir_all_persists, Hm | exact Hp].
Qed.

(** [create_dirs] on directories that exist. *)
Lemma create_dirs_noop dirs w :
  (forall dir, dir ∈ dirs -> exists es, os_Stat w dir = Ok (Dir es)) ->
  create_dirs dirs w = (Done None, w).
Proof.
  induction dirs as [| dir dirs IH]; intros H; cbn [create_dirs]; [reflexivity |].
  unfold bind at 1. rewrite os_MkdirAll_run.
  destruct (H dir) as [es Hes]; [left |]. unfold os_Stat in Hes.
  rewrite (fs_mkdir_all_noop _ _ _ Hes), set_fs_same.
  apply IH. intros d Hd. apply H. right. exact Hd.
Qed.

End Dirs.


(* ================================================================= *)
(** ** The copies of [CopyFiles], one after the other *)

Section Copy.
Context `{MR : MathRand} `{SC : Strconv} `{YE : Yaml}.
Implicit Types (w : World MR) (c : Config).

Lemma copy_each_ok ops : forall w w',
  (forall s d s' d', (s, d) ∈ ops -> (s', d') ∈ ops ->
     resolve (w_cwd w) s <> resolve (w_cwd w) d') ->
  (forall s d s' d', (s, d) ∈ ops -> (s', d') ∈ ops ->
     resolve (w_cwd w) d = resolve (w_cwd w) d' ->
     file_data (w_fs w) (resolve (w_cwd w) s) = file_data (w_fs w) (resolve (w_cwd w) s')) ->
  copy_each ops w = (Done None, w') ->
  exists fs',
    w' = set_fs fs' w /\
    (forall s d, (s, d) ∈ ops ->
       exists data,
         file_data (w_fs w) (resolve (w_cwd w) s) = Some (true, data) /\
         file_data fs' (resolve (w_cwd w) d) = Some (true, data)) /\
    (forall q, (forall s d, (s, d) ∈ ops -> q <> resolve (w_cwd w) d) ->
       file_data fs' q = file_data (w_fs w) q) /\
    persists (w_fs w) fs'.
Proof.
  induction ops as [| [s0 d0] ops IH]; intros w w' H1 H2; cbn [copy_each].
  - intros [= <-]. exists (w_fs w). rewrite set_fs_same.
    repeat split; [| apply persists_refl].
    intros s d Hin. inversion Hin.
  - unfold bind at 1.
    destruct (copyFile s0 d0 w) as [[[e |] | p] w1] eqn:Hcp; try discriminate.
    assert (resolve (w_cwd w) s0 <> resolve (w_cwd w) d0) as Hne
      by (apply (H1 s0 d0 s0 d0); left).
    destruct (copyFile_ok _ _ _ _ Hne Hcp) as (data0 & fs1 & -> & HS0 & HD0 & Hfr1 & Hp1).
    intros Hrun.
    assert (forall s d, (s, d) ∈ ops ->
              file_data fs1 (resolve (w_cwd w) s) = file_data (w_fs w) (resolve (w_cwd w) s))
      as Hsrc.
    { intros s d Hin. apply Hfr1. apply (H1 s d s0 d0); [right; exact Hin | left]. }
    destruct (IH (set_fs fs1 w) w') as (fs' & -> & Hcopied & Hfr & Hp); cbn [w_fs w_cwd set_fs].
    { intros s d s' d' Hin Hin'. apply (H1 s d s' d'); right; assumption. }
    { intros s d s' d' Hin Hin' Heq.
      rewrite (Hsrc _ _ Hin), (Hsrc _ _ Hin'). apply (H2 s d s' d'); try right; assumption. }
    { exact Hrun. }
    cbn [w_fs w_cwd set_fs] in *.
    exists fs'. split; [reflexivity |]. split; [| split].
    + intros s d [[= -> ->] | Hin]%elem_of_cons.
      * exists data0. split; [exact HS0 |].
        destruct (decide (Exists (fun o => resolve (w_cwd w) d0 = resolve (w_cwd w) (snd o)) ops))
          as [Hex | Hnex].
        -- apply Exists_exists in Hex as ([s' d'] & Hin' & Heq). cbn [snd] in Heq.
           destruct (Hcopied _ _ Hin') as (data & Hs' & Hd').
           rewrite Heq, Hd'. rewrite (Hsrc _ _ Hin') in Hs'.
           rewrite <- Hs', <- HS0. symmetry.
           apply (H2 s0 d0 s' d'); [left | right; exact Hin' | exact Heq].
        -- rewrite Hfr; [exact HD0 |].
           intros s' d' Hin' Heq. apply Hnex, Exists_exists.
           exists (s', d'). split; [exact Hin' | exact Heq].
      * destruct (Hcopied _ _ Hin) as (data & Hs & Hd).
        exists data. rewrite <- (Hsrc _ _ Hin). split; assumption.
    + intros q Hq. rewrite Hfr.
      * apply Hfr1. apply (Hq s0 d0). left.
      * intros s d Hin. apply (Hq s d). right. exact Hin.
    + eapply persists_trans; eassumption.
Qed.

(** A successful [copy_pairs] has made the copies of [copy_ops], one
    after the other. *)
Lemma copy_pairs_ok idir ldir pairs : forall w w',
  copy_pairs idir ldir pairs w = (Done None, w') ->
  copy_each (copy_ops idir ldir pairs) w = (Done None, w').
Proof.
  induction pairs as [| lp pairs IH]; intros w w'; [intros [= <-]; reflexivity |].
  cbn [copy_pairs copy_ops flat_map app copy_each]. fold (copy_ops idir ldir pairs).
  intros H. unfold bind at 1 in H. unfold bind at 1.
  destruct (copyFile (ImagePath lp) _ w) as [[[e |] | p] w1]; try discriminate.
  unfold bind at 1 in H. unfold bind at 1.
  destruct (copyFile (LabelPath lp) _ w1) as [[[e |] | p] w2]; try discriminate.
  apply IH, H.
Qed.

(** Whatever [copy_pairs] does: it does not panic, only the tree
    changes, nothing is removed and the kinds stay; no file but the
    destinations is created or changed. *)
Lemma copy_pairs_any idir ldir pairs : forall w,
  exists r fs',
    copy_pairs idir ldir pairs w = (Done r, set_fs fs' w) /\ persists (w_fs w) fs' /\
    (forall q,
       (forall lp, lp ∈ pairs ->
          q <> resolve (w_cwd w) (filepath_Join [idir; filepath_Base (ImagePath lp)]) /\
          q <> resolve (w_cwd w) (filepath_Join [ldir; filepath_Base (LabelPath lp)])) ->
       file_data fs' q = file_data (w_fs w) q).
Proof.
  induction pairs as [| lp pairs IH]; intros w; cbn [copy_pairs].
  - eexists _, (w_fs w). rewrite set_fs_same.
    split; [reflexivity |]. split; [apply persists_refl | reflexivity].
  - unfold bind at 1.
    destruct (copyFile_any (ImagePath lp) (filepath_Join [idir; filepath_Base (ImagePath lp)]) w)
      as (r1 & fs1 & -> & Hp1 & Hf1).
    destruct r1 as [e |].
    { eexists _, fs1. split; [reflexivity |]. split; [exact Hp1 |].
      intros q Hq. apply Hf1. apply (Hq lp). left. }
    unfold bind at 1.
    destruct (copyFile_any (LabelPath lp) (filepath_Join [ldir; filepath_Base (LabelPath lp)])
                           (set_fs fs1 w)) as (r2 & fs2 & -> & Hp2 & Hf2).
    cbn [w_fs w_cwd set_fs] in Hp2, Hf2.
    destruct r2 as [e |].
    { eexists _, fs2. split; [reflexivity |].
      split; [eapply persists_trans; eassumption |].
      intros q Hq. rewrite Hf2 by (apply (Hq lp); left). apply Hf1. apply (Hq lp). left. }
    destruct (IH (set_fs fs2 (set_fs fs1 w))) as (r & fs' & -> & Hp & Hf).
    cbn [w_fs w_cwd set_fs] in Hp, Hf.
    eexists r, fs'. split; [reflexivity |]. split.
    + eapply persists_trans; [exact Hp1 |]. eapply persists_trans; eassumption.
    + intros q Hq. rewrite Hf by (intros lp' Hin; apply Hq; right; exact Hin).
      rewrite Hf2 by (apply (Hq lp); left). apply Hf1. apply (Hq lp). left.
Qed.

End Copy.


(* ================================================================= *)
(** ** [Convert]: the phases that read and the phases that write *)

Section Output.
Context `{MR : MathRand} `{SC : Strconv} `{YE : Yaml}.
Implicit Types (w : World MR) (c : Config).

Lemma keeps_files_ret {A} (x : A) : keeps_files (ret x).
Proof. intros w. repeat split. Qed.

Lemma keeps_files_throw {A} p : keeps_files (@throw MR A p).
Proof. intros w. repeat split. Qed.

Lemma keeps_files_bind {A B} (m : M MR A) (k : A -> M MR B) :
  keeps_files m -> (forall x, keeps_files (k x)) -> keeps_files (bind m k).
Proof.
  intros Hm Hk w. unfold bind. specialize (Hm w).
  destruct (m w) as [[x | p] w1]; cbn [fst snd] in *; [| exact Hm].
  destruct (Hk x w1) as (H1 & H2 & H3). destruct Hm as (G1 & G2 & G3).
  repeat split; congruence.
Qed.

Lemma keeps_files_get {A} (k : World MR -> M MR A) :
  (forall w0, keeps_files (k w0)) -> keeps_files (bind get k).
Proof. intros Hk w. unfold bind, get. apply Hk. Qed.

Lemma keeps_files_slice_get s i : keeps_files (slice_get s i).
Proof. intros w. unfold slice_get. destruct (_ && _); repeat split. Qed.

Lemma keeps_files_slice_set s i v : keeps_files (slice_set s i v).
Proof. intros w. unfold slice_set. destruct (_ && _); repeat split. Qed.

Lemma keeps_files_slice_store s vs : forall i, keeps_files (slice_store s i vs).
Proof.
  induction vs as [| v vs IH]; intros i; cbn [slice_store].
  - apply keeps_files_ret.
  - apply keeps_files_bind; [apply keeps_files_slice_set | intros _; apply IH].
Qed.

Lemma keeps_files_rand_draw n : keeps_files (rand_draw n).
Proof. intros w. unfold rand_draw. destruct (rand_Intn _ _). repeat split. Qed.

Lemma keeps_files_shuffle_from swap :
  (forall i j, keeps_files (swap i j)) -> forall i, keeps_files (shuffle_from i swap).
Proof.
  intros Hswap. induction i as [| i IH]; cbn [shuffle_from].
  - apply keeps_files_ret.
  - apply keeps_files_bind; [apply keeps_files_rand_draw | intros j].
    apply keeps_files_bind; [apply Hswap | intros _; apply IH].
Qed.

Lemma keeps_files_reslice s lo hi : keeps_files (reslice s lo hi).
Proof.
  unfold reslice. destruct (negb _); [apply keeps_files_throw |].
  destruct (negb _); [apply keeps_files_throw | apply keeps_files_ret].
Qed.

Lemma keeps_files_SplitDataset c pairs : keeps_files (SplitDataset c pairs).
Proof.
  unfold SplitDataset.
  apply keeps_files_bind; [intros w; repeat split | intros _].
  apply keeps_files_bind; [intros w; repeat split | intros shuffled].
  apply keeps_files_bind.
  { unfold copy_slice. apply keeps_files_get. intros w0.
    apply keeps_files_bind; [apply keeps_files_slice_store | intros _; apply keeps_files_ret]. }
  intros _. apply keeps_files_bind.
  { apply keeps_files_shuffle_from. intros i j.
    apply keeps_files_bind; [apply keeps_files_slice_get | intros vj].
    apply keeps_files_bind; [apply keeps_files_slice_get | intros vi].
    apply keeps_files_bind; [apply keeps_files_slice_set | intros _].
    apply keeps_files_slice_set. }
  intros _. apply keeps_files_bind; [apply keeps_files_reslice | intros t].
  apply keeps_files_bind; [apply keeps_files_reslice | intros v].
  apply keeps_files_ret.
Qed.

(** [Convert], phase by phase. *)
Lemma Convert_phases c w :
  Convert c w =
    match ValidateSourceStructure c w with
    | Some err => (Done (Some err), w)
    | None =>
      match LoadClasses c w with
      | inr err => (Done (Some err), w)
      | inl classes =>
        match image_label_pairs c w with
        | inr err => (Done (Some err), w)
        | inl [] => (Done (Some ErrNoPairs), w)
        | inl R =>
          let a := fresh (dom (w_heap w)) in
          match SplitDataset c (slice_at a (length R) (length R))
                             (set_heap (<[a := R]> (w_heap w)) w) with
          | (Done (trainPairs, valPairs), w2) =>
            write_output c classes trainPairs valPairs w2
          | (Panicked p, w2) => (Panicked p, w2)
          end
        end
      end
    end.
Proof.
  unfold Convert, bind at 1, get.
  destruct (ValidateSourceStructure c w); [reflexivity |].
  destruct (LoadClasses c w) as [classes | err]; [| reflexivity].
  unfold bind at 1, GetImageLabelPairs, bind at 1, get.
  destruct (image_label_pairs c w) as [[| lp l] | err]; try reflexivity.
  unfold bind at 1, slice_of_list, ret at 1.
  change (slice_len _ =? 0) with false. cbv iota.
  unfold bind at 1, get, ValidateLabels. cbv iota beta.
  unfold bind at 1. cbv zeta. unfold slice_at.
  destruct (SplitDataset _ _ _) as [[[t v] | p] w2]; reflexivity.
Qed.

Lemma create_dirs_any dirs : forall w,
  exists r fs',
    create_dirs dirs w = (Done r, set_fs fs' w) /\ persists (w_fs w) fs' /\
    (forall q, file_data fs' q = file_data (w_fs w) q) /\
    (forall e, r = Some e -> reading_error e = false).
Proof.
  induction dirs as [| dir dirs IH]; intros w; cbn [create_dirs].
  - exists None, (w_fs w). rewrite set_fs_same.
    split; [reflexivity |]. split; [apply persists_refl |]. split; [reflexivity | discriminate].
  - unfold bind at 1. rewrite os_MkdirAll_run.
    destruct (fs_mkdir_all _ _) as [fs1 | e] eqn:Hm.
    + destruct (IH (set_fs fs1 w)) as (r & fs' & -> & Hp & Hf & Hr).
      cbn [w_fs set_fs] in Hp, Hf.
      exists r, fs'. split; [reflexivity |]. split; [| split; [| exact Hr]].
      * eapply persists_trans; [eapply fs_mkdir_all_persists, Hm | exact Hp].
      * intros q. rewrite Hf. eapply fs_mkdir_all_file_data, Hm.
    + eexists _, (w_fs w). rewrite set_fs_same.
      split; [reflexivity |]. split; [apply persists_refl |].
      split; [reflexivity |]. intros e' [= <-]. reflexivity.
Qed.

Lemma copy_pairs_late idir ldir pairs : forall w e,
  fst (copy_pairs idir ldir pairs w) = Done (Some e) -> reading_error e = false.
Proof.
  induction pairs as [| lp pairs IH]; intros w e; cbn [copy_pairs]; [discriminate |].
  unfold bind at 1.
  destruct (copyFile_any (ImagePath lp) (filepath_Join [idir; filepath_Base (ImagePath lp)]) w)
    as (r1 & fs1 & -> & _ & _).
  destruct r1 as [e1 |]; [intros [= <-]; reflexivity |].
  unfold bind at 1.
  destruct (copyFile_any (LabelPath lp) (filepath_Join [ldir; filepath_Base (LabelPath lp)])
                         (set_fs fs1 w)) as (r2 & fs2 & -> & _ & _).
  destruct r2 as [e2 |]; [intros [= <-]; reflexivity |].
  apply IH.
Qed.

Lemma CopyFiles_any c pairs splitType w :
  exists r fs',
    CopyFiles c pairs splitType w = (Done r, set_fs fs' w) /\ persists (w_fs w) fs' /\
    (forall q,
       (forall lp, lp ∈ read_slice (w_heap w) pairs ->
          q <> resolve (w_cwd w)
                 (filepath_Join [filepath_Join [OutputDir c; "images"; splitType];
                                 filepath_Base (ImagePath lp)]) /\
          q <> resolve (w_cwd w)
                 (filepath_Join [filepath_Join [OutputDir c; "labels"; splitType];
                                 filepath_Base (LabelPath lp)])) ->
       file_data fs' q = file_data (w_fs w) q) /\
    (forall e, r = Some e -> reading_error e = false).
Proof.
  unfold CopyFiles, bind, get.
  match goal with
  | |- context [copy_pairs ?i ?l ?ps w] =>
    destruct (copy_pairs_any i l ps w) as (r & fs' & Hrun & Hp & Hf);
    pose proof (copy_pairs_late i l ps w) as Hlate
  end.
  exists r, fs'. rewrite Hrun in *. split; [reflexivity |]. split; [exact Hp |].
  split; [exact Hf |]. intros e ->. apply Hlate. reflexivity.
Qed.

Lemma CreateYAMLConfig_any c classes w :
  exists r fs',
    CreateYAMLConfig c classes w = (Done r, set_fs fs' w) /\ persists (w_fs w) fs' /\
    (forall q, q <> resolve (w_cwd w) (filepath_Join [OutputDir c; "data.yaml"]) ->
       file_data fs' q = file_data (w_fs w) q) /\
    (forall e, r = Some e -> reading_error e = false).
Proof.
  rewrite CreateYAMLConfig_run. cbv zeta. set (p := resolve _ _).
  destruct (fs_alter create_node _ _) as [fs0 |] eqn:H0.
  2:{ eexists _, (w_fs w). rewrite set_fs_same. split; [reflexivity |].
      split; [apply persists_refl |]. split; [reflexivity | intros e' [= <-]; reflexivity]. }
  pose proof (fs_alter_persists _ _ writes_file_create _ _ H0) as P0.
  pose proof (fun q => fs_alter_file_data _ _ writes_file_create _ _ q H0) as F0.
  destruct (fs_alter (append_node (yaml_header _)) _ _) as [fs1 |] eqn:H1.
  2:{ eexists _, fs0. split; [reflexivity |].
      split; [exact P0 |]. split; [exact F0 | intros e' [= <-]; reflexivity]. }
  pose proof (fs_alter_persists _ _ (writes_file_append _) _ _ H1) as P1.
  pose proof (fun q => fs_alter_file_data _ _ (writes_file_append _) _ _ q H1) as F1.
  destruct (fs_alter (append_node (yaml_Encode _)) _ _) as [fs2 |] eqn:H2.
  2:{ eexists _, fs1. split; [reflexivity |].
      split; [eapply persists_trans; eassumption |].
      split; [| intros e' [= <-]; reflexivity].
      intros q Hq. rewrite F1 by exact Hq. apply F0, Hq. }
  pose proof (fs_alter_persists _ _ (writes_file_append _) _ _ H2) as P2.
  pose proof (fun q => fs_alter_file_data _ _ (writes_file_append _) _ _ q H2) as F2.
  eexists _, fs2. split; [reflexivity |].
  split; [| split; [| discriminate]].
  - eapply persists_trans; [exact P0 |]. eapply persists_trans; eassumption.
  - intros q Hq. rewrite F2, F1 by exact Hq. apply F0, Hq.
Qed.

(** The writing part never panics, removes nothing, and fails with the
    errors of its own phases only. *)
Lemma write_output_any c classes trainPairs valPairs w :
  exists r fs',
    write_output c classes trainPairs valPairs w = (Done r, set_fs fs' w) /\
    persists (w_fs w) fs' /\
    (forall e, r = Some e -> reading_error e = false).
Proof.
  unfold write_output, bind at 1, CreateYOLOStructure.
  match goal with
  | |- context [create_dirs ?dirs w] =>
    destruct (create_dirs_any dirs w) as (r1 & fs1 & -> & P1 & _ & L1)
  end.
  destruct r1 as [e1 |]; [exists (Some e1), fs1; auto |].
  unfold bind at 1.
  destruct (CopyFiles_any c trainPairs "train" (set_fs fs1 w))
    as (r2 & fs2 & -> & P2 & _ & L2).
  cbn [w_fs set_fs] in P2.
  destruct r2 as [e2 |].
  { exists (Some e2), fs2. split; [reflexivity |]. split; [| exact L2].
    eapply persists_trans; eassumption. }
  unfold bind at 1.
  destruct (CopyFiles_any c valPairs "val" (set_fs fs2 (set_fs fs1 w)))
    as (r3 & fs3 & -> & P3 & _ & L3).
  cbn [w_fs set_fs] in P3.
  destruct r3 as [e3 |].
  { exists (Some e3), fs3. split; [reflexivity |]. split; [| exact L3].
    eapply persists_trans; [exact P1 |]. eapply persists_trans; eassumption. }
  destruct (CreateYAMLConfig_any c classes (set_fs fs3 (set_fs fs2 (set_fs fs1 w))))
    as (r4 & fs4 & -> & P4 & _ & L4).
  cbn [w_fs set_fs] in P4.
  exists r4, fs4. split; [reflexivity |]. split; [| exact L4].
  eapply persists_trans; [exact P1 |]. eapply persists_trans; [exact P2 |].
  eapply persists_trans; eassumption.
Qed.

End Output.


(* ================================================================= *)
(** ** [Convert]: what no run does *)

Section ConvertProps.
Context `{MR : MathRand} `{SC : Strconv} `{YE : Yaml}.
Implicit Types (w : World MR) (c : Config).

(** X15. [Convert] fails with an error of the reading phases (a required
    directory or file is missing, classes.txt cannot be opened or read,
    the images directory cannot be scanned, no pair was found) only before
    it has written anything: the world is then exactly the one it started
    from. *)
Theorem Convert_reading_error_writes_nothing c w e :
  fst (Convert c w) = Done (Some e) -> reading_error e = true ->
  snd (Convert c w) = w.
Proof.
  rewrite Convert_phases.
  destruct (ValidateSourceStructure c w); [reflexivity |].
  destruct (LoadClasses c w) as [classes | err]; [| reflexivity].
  destruct (image_label_pairs c w) as [[| lp l] | err]; try reflexivity.
  cbv zeta. destruct (SplitDataset _ _ _) as [[[t v] | p] w2]; [| discriminate].
  destruct (write_output_any c classes t v w2) as (r & fs' & -> & _ & Hlate).
  cbn [fst snd]. intros [= ->] He. rewrite (Hlate e eq_refl) in He. discriminate.
Qed.

(** X16. A panic of [Convert] comes before the first write: the files
    are those it started from. *)
Theorem Convert_panic_writes_nothing c w p :
  fst (Convert c w) = Panicked p ->
  w_fs (snd (Convert c w)) = w_fs w.
Proof.
  rewrite Convert_phases.
  destruct (ValidateSourceStructure c w); [discriminate |].
  destruct (LoadClasses c w) as [classes | err]; [| discriminate].
  destruct (image_label_pairs c w) as [[| lp l] | err]; try discriminate.
  cbv zeta.
  match goal with
  | |- context [SplitDataset c ?s ?w1] =>
    pose proof (keeps_files_SplitDataset c s w1) as (Hfs & _ & _);
    destruct (SplitDataset c s w1) as [[[t v] | p'] w2]
  end.
  - destruct (write_output_any c classes t v w2) as (r & fs' & -> & _ & _). discriminate.
  - intros _. exact Hfs.
Qed.

(** X18. [Convert] removes nothing: whatever it returns, every path that
    named a file or a directory names one of the same kind afterwards. *)
Theorem Convert_removes_nothing c w path n :
  os_Stat w path = Ok n ->
  exists n', os_Stat (snd (Convert c w)) path = Ok n' /\ is_dir n' = is_dir n.
Proof.
  assert (persists (w_fs w) (w_fs (snd (Convert c w)))
          /\ w_cwd (snd (Convert c w)) = w_cwd w) as [Hp Hcwd].
  { rewrite Convert_phases.
    destruct (ValidateSourceStructure c w); [split; [apply persists_refl | reflexivity] |].
    destruct (LoadClasses c w) as [classes | err];
      [| split; [apply persists_refl | reflexivity]].
    destruct (image_label_pairs c w) as [[| lp l] | err];
      try (split; [apply persists_refl | reflexivity]).
    cbv zeta.
    match goal with
    | |- context [SplitDataset c ?s ?w1] =>
      pose proof (keeps_files_SplitDataset c s w1) as (Hfs & Hcwd & _);
      destruct (SplitDataset c s w1) as [[[t v] | p'] w2]
    end; cbn [fst snd w_fs w_cwd set_heap] in *.
    - destruct (write_output_any c classes t v w2) as (r & fs' & -> & Hp & _).
      cbn [fst snd w_fs w_cwd set_fs]. rewrite Hfs in Hp. split; assumption.
    - rewrite Hfs. split; [apply persists_refl | assumption]. }
  unfold os_Stat. rewrite Hcwd. apply Hp.
Qed.

End ConvertProps.


(* ================================================================= *)
(** ** A successful run, phase by phase *)

Section Success.
Context `{MR : MathRand} `{SC : Strconv} `{YE : Yaml}.
Implicit Types (w : World MR) (c : Config).

(** A successful [copyFile] leaves a file at the destination. *)
Lemma copyFile_placed src dst w w' :
  copyFile src dst w = (Done None, w') ->
  exists fs' r d,
    w' = set_fs fs' w /\ persists (w_fs w) fs' /\
    fs_lookup fs' (resolve (w_cwd w) dst) = Ok (File r d).
Proof.
  rewrite copyFile_run. cbv zeta.
  destruct (os_Open w src); [| discriminate].
  destruct (fs_alter create_node _ _) as [fs0 |] eqn:Hc; [| discriminate].
  destruct (fs_lookup fs0 _) as [[r d | es] | e]; try discriminate.
  destruct (fs_alter (append_node d) _ _) as [fs1 |] eqn:Ha; [| discriminate].
  intros [= <-]. exists fs1, true, d. split; [reflexivity |]. split.
  - eapply persists_trans.
    + eapply fs_alter_persists; [apply writes_file_create | exact Hc].
    + eapply fs_alter_persists; [apply writes_file_append | exact Ha].
  - apply (fs_appended _ _ _ _ _ _ (fs_created _ _ _ Hc) Ha).
Qed.

Lemma copy_each_placed ops : forall w w',
  copy_each ops w = (Done None, w') ->
  exists fs',
    w' = set_fs fs' w /\ persists (w_fs w) fs' /\
    forall s d, (s, d) ∈ ops ->
      exists r data, fs_lookup fs' (resolve (w_cwd w) d) = Ok (File r data).
Proof.
  induction ops as [| [s0 d0] ops IH]; intros w w'; cbn [copy_each].
  - intros [= <-]. exists (w_fs w). rewrite set_fs_same.
    split; [reflexivity |]. split; [apply persists_refl |].
    intros s d Hin. inversion Hin.
  - unfold bind at 1.
    destruct (copyFile s0 d0 w) as [[[e |] | p] w1] eqn:Hcp; try discriminate.
    destruct (copyFile_placed _ _ _ _ Hcp) as (fs1 & r0 & data0 & -> & Hp1 & HD0).
    intros Hrun. destruct (IH _ _ Hrun) as (fs' & -> & Hp & Hplaced).
    cbn [w_fs w_cwd set_fs] in *.
    exists fs'. split; [reflexivity |]. split; [eapply persists_trans; eassumption |].
    intros s d [[= -> ->] | Hin]%elem_of_cons.
    + eapply persists_file; eassumption.
    + eapply Hplaced, Hin.
Qed.

(** A successful [copy_pairs] leaves a file at the destination of the
    image and of the label of every record. *)
Lemma copy_pairs_placed idir ldir pairs w w' :
  copy_pairs idir ldir pairs w = (Done None, w') ->
  exists fs',
    w' = set_fs fs' w /\ persists (w_fs w) fs' /\
    forall lp, lp ∈ pairs ->
      (exists r data,
         fs_lookup fs' (resolve (w_cwd w)
                          (filepath_Join [idir; filepath_Base (ImagePath lp)]))
           = Ok (File r data)) /\
      (exists r data,
         fs_lookup fs' (resolve (w_cwd w)
                          (filepath_Join [ldir; filepath_Base (LabelPath lp)]))
           = Ok (File r data)).
Proof.
  intros H. apply copy_pairs_ok in H.
  destruct (copy_each_placed _ _ _ H) as (fs' & -> & Hp & Hplaced).
  exists fs'. split; [reflexivity |]. split; [exact Hp |].
  intros lp Hin. split; eapply Hplaced; unfold copy_ops; apply list_elem_of_In, in_flat_map;
    exists lp; (split; [apply list_elem_of_In, Hin |]); [left | right; left]; reflexivity.
Qed.

(** A successful [CreateYAMLConfig]: the file holds the header and the
    document, nothing else has changed. *)
Lemma CreateYAMLConfig_ok c classes w w' :
  CreateYAMLConfig c classes w = (Done None, w') ->
  let p := resolve (w_cwd w) (filepath_Join [OutputDir c; "data.yaml"]) in
  let config := {| Path := filepath_Abs (w_cwd w) (OutputDir c);
                   Train := "images/train"; Val := "images/val";
                   NC := len classes; Names := classes |} in
  exists fs',
    w' = set_fs fs' w /\
    fs_lookup fs' p = Ok (File true (yaml_header (w_now w) ++ yaml_Encode config)) /\
    (forall q, q <> p -> file_data fs' q = file_data (w_fs w) q) /\
    persists (w_fs w) fs'.
Proof.
  rewrite CreateYAMLConfig_run. cbv zeta.
  set (p := resolve _ _). set (config := {| Path := _ |}).
  destruct (fs_alter create_node _ _) as [fs0 |] eqn:H0; [| discriminate].
  destruct (fs_alter (append_node (yaml_header _)) _ _) as [fs1 |] eqn:H1; [| discriminate].
  destruct (fs_alter (append_node (yaml_Encode _)) _ _) as [fs2 |] eqn:H2; [| discriminate].
  intros [= <-]. exists fs2. split; [reflexivity |].
  pose proof (fs_appended _ _ _ _ _ _ (fs_created _ _ _ H0) H1) as G1.
  split; [exact (fs_appended _ _ _ _ _ _ G1 H2) |]. split.
  - intros q Hq.
    rewrite (fs_alter_file_data _ _ (writes_file_append _) _ _ q H2 Hq).
    rewrite (fs_alter_file_data _ _ (writes_file_append _) _ _ q H1 Hq).
    apply (fs_alter_file_data _ _ writes_file_create _ _ q H0 Hq).
  - eapply persists_trans; [eapply fs_alter_persists; [apply writes_file_create | exact H0] |].
    eapply persists_trans; eapply fs_alter_persists; try apply writes_file_append; eassumption.
Qed.

Context {MRS : MathRandSpec}.

(** The phases of a successful [Convert]: [wa] is the world after the
    split, from which the writing starts. *)
Lemma Convert_ok c w w' :
  Convert c w = (Done None, w') ->
  exists classes R wa fs1 fs2 fs3,
    LoadClasses c w = inl classes /\ image_label_pairs c w = inl R /\ R <> [] /\
    w_fs wa = w_fs w /\ w_cwd wa = w_cwd w /\ w_now wa = w_now w /\
    let k := Z.to_nat (trainCount (len R) (TrainSplit c)) in
    let sh := shuffled_list (Seed c) R in
    create_dirs [filepath_Join [OutputDir c; "images"; "train"];
                 filepath_Join [OutputDir c; "images"; "val"];
                 filepath_Join [OutputDir c; "labels"; "train"];
                 filepath_Join [OutputDir c; "labels"; "val"]] wa
      = (Done None, set_fs fs1 wa) /\
    copy_pairs (filepath_Join [OutputDir c; "images"; "train"])
               (filepath_Join [OutputDir c; "labels"; "train"])
               (take k sh) (set_fs fs1 wa)
      = (Done None, set_fs fs2 wa) /\
    copy_pairs (filepath_Join [OutputDir c; "images"; "val"])
               (filepath_Join [OutputDir c; "labels"; "val"])
               (drop k sh) (set_fs fs2 wa)
      = (Done None, set_fs fs3 wa) /\
    CreateYAMLConfig c classes (set_fs fs3 wa) = (Done None, w').
Proof.
  rewrite Convert_phases.
  destruct (ValidateSourceStructure c w); [discriminate |].
  destruct (LoadClasses c w) as [classes | err]; [| discriminate].
  destruct (image_label_pairs c w) as [[| lp l] | err]; try discriminate.
  cbv zeta. set (R := lp :: l). set (a := fresh (dom (w_heap w))).
  set (w1 := set_heap _ w). set (pairs := slice_at a _ _).
  assert (read_slice (w_heap w1) pairs = R) as HR
    by (apply read_slice_whole; [apply lookup_insert_eq | reflexivity]).
  rewrite (SplitDataset_run c w1 pairs) by (unfold backed; rewrite HR; reflexivity).
  cbv zeta. rewrite HR.
  destruct ((0 <=? trainCount (len R) (TrainSplit c))
            && (trainCount (len R) (TrainSplit c) <=? len R)) eqn:Hk; [| discriminate].
  set (wa := split_world c w1 pairs).
  unfold write_output, bind at 1, CreateYOLOStructure.
  match goal with
  | |- context [create_dirs ?dirs wa] =>
    destruct (create_dirs_any dirs wa) as (r1 & fs1 & E1 & _); rewrite E1
  end.
  destruct r1 as [e1 |]; [discriminate |].
  unfold bind at 1, CopyFiles at 1, bind at 1, get.
  match goal with
  | |- context [copy_pairs ?i ?l ?ps (set_fs fs1 wa)] =>
    destruct (copy_pairs_any i l ps (set_fs fs1 wa)) as (r2 & fs2 & E2 & _); rewrite E2
  end.
  destruct r2 as [e2 |]; [discriminate |].
  unfold bind at 1, CopyFiles at 1, bind at 1, get.
  match goal with
  | |- context [copy_pairs ?i ?l ?ps (set_fs fs2 (set_fs fs1 wa))] =>
    destruct (copy_pairs_any i l ps (set_fs fs2 (set_fs fs1 wa))) as (r3 & fs3 & E3 & _);
    rewrite E3
  end.
  destruct r3 as [e3 |]; [discriminate |].
  intros Hyaml. exists classes, R, wa, fs1, fs2, fs3.
  split; [reflexivity |]. split; [reflexivity |]. split; [discriminate |].
  split; [reflexivity |]. split; [reflexivity |]. split; [reflexivity |].
  cbv zeta. split; [exact E1 |].
  cbn [w_heap set_fs] in E2, E3. unfold wa in E2 at 1. unfold wa in E3 at 1.
  rewrite read_split_world, HR in E2. rewrite read_split_world, HR in E3.
  rewrite drop_0 in E2.
  rewrite (take_ge (drop _ _)) in E3
    by (rewrite length_drop, shuffled_list_length; cbn [length]; lia).
  split; [exact E2 |]. split; [exact E3 | exact Hyaml].
Qed.

End Success.


(* ================================================================= *)
(** ** [Convert]: what a successful run leaves *)

Section SuccessProps.
Context `{MR : MathRand} `{SC : Strconv} `{YE : Yaml} {MRS : MathRandSpec}.
Implicit Types (w : World MR) (c : Config).

(** X20. After a successful [Convert], [data.yaml] in the output
    directory holds the header, with a clock reading, followed by the
    document for the classes that [LoadClasses] read: the absolute output
    path, the two image directories, the number of classes as [nc] and
    their names in the order of classes.txt. *)
Theorem Convert_success_config c w :
  fst (Convert c w) = Done None ->
  exists classes t,
    LoadClasses c w = inl classes /\
    os_Stat (snd (Convert c w)) (filepath_Join [OutputDir c; "data.yaml"])
    = Ok (File true
            (yaml_header t
             ++ yaml_Encode {| Path := filepath_Abs (w_cwd w) (OutputDir c);
                               Train := "images/train"; Val := "images/val";
                               NC := len classes; Names := classes |})).
Proof.
  destruct (Convert c w) as [r0 w'] eqn:H. cbn [fst snd]. intros ->.
  destruct (Convert_ok _ _ _ H)
    as (classes & R & wa & fs1 & fs2 & fs3 & Hc & _ & _ & _ & Hcwd & Hnow & _ & _ & _ & Hy).
  exists classes, (w_now w). split; [exact Hc |].
  destruct (CreateYAMLConfig_ok _ _ _ _ Hy) as (fs' & -> & Hfile & _).
  cbn [w_cwd w_now set_fs] in Hfile. rewrite Hcwd, Hnow in Hfile.
  unfold os_Stat. cbn [w_fs w_cwd set_fs]. rewrite Hcwd. exact Hfile.
Qed.

(** X21. After a successful [Convert] the four directories of the YOLO
    layout exist, and every record that [GetImageLabelPairs] found has its
    image and its label in the same split: files named after them exist
    under [images/train] and [labels/train], or under [images/val] and
    [labels/val]. *)
Theorem Convert_success_records c w :
  fst (Convert c w) = Done None ->
  let w' := snd (Convert c w) in
  exists R,
    image_label_pairs c w = inl R /\ R <> [] /\
    (forall dir,
       dir ∈ [filepath_Join [OutputDir c; "images"; "train"];
              filepath_Join [OutputDir c; "images"; "val"];
              filepath_Join [OutputDir c; "labels"; "train"];
              filepath_Join [OutputDir c; "labels"; "val"]] ->
       exists es, os_Stat w' dir = Ok (Dir es)) /\
    forall lp, lp ∈ R ->
      exists splitType,
        (splitType = "train" \/ splitType = "val")%string /\
        (exists r data,
           os_Stat w' (filepath_Join [filepath_Join [OutputDir c; "images"; splitType];
                                      filepath_Base (ImagePath lp)])
           = Ok (File r data)) /\
        (exists r data,
           os_Stat w' (filepath_Join [filepath_Join [OutputDir c; "labels"; splitType];
                                      filepath_Base (LabelPath lp)])
           = Ok (File r data)).
Proof.
  destruct (Convert c w) as [r0 w'] eqn:H. cbn [fst snd]. intros ->.
  destruct (Convert_ok _ _ _ H)
    as (classes & R & wa & fs1 & fs2 & fs3 & _ & HR & Hne & _ & Hcwd & _ & Hd & Ht & Hv & Hy).
  cbv zeta in Ht, Hv.
  exists R. split; [exact HR |]. split; [exact Hne |].
  destruct (create_dirs_ok _ _ _ Hd) as (fs1' & E1 & Hdirs & _ & _).
  assert (fs1' = fs1) as -> by (apply (f_equal w_fs) in E1; cbn in E1; congruence).
  destruct (copy_pairs_placed _ _ _ _ _ Ht) as (fs2' & E2 & P2 & Htrain).
  assert (fs2' = fs2) as -> by (apply (f_equal w_fs) in E2; cbn in E2; congruence).
  destruct (copy_pairs_placed _ _ _ _ _ Hv) as (fs3' & E3 & P3 & Hval).
  assert (fs3' = fs3) as -> by (apply (f_equal w_fs) in E3; cbn in E3; congruence).
  destruct (CreateYAMLConfig_ok _ _ _ _ Hy) as (fs4 & -> & _ & _ & P4).
  cbn [w_fs w_cwd set_fs] in *.
  unfold os_Stat. cbn [w_fs w_cwd set_fs]. rewrite Hcwd in *.
  split.
  - intros dir Hdir. destruct (Hdirs dir Hdir) as [es Hes].
    eapply persists_dir; [| exact Hes].
    eapply persists_trans; [exact P2 |]. eapply persists_trans; eassumption.
  - intros lp Hlp.
    assert (lp ∈ take (Z.to_nat (trainCount (len R) (TrainSplit c))) (shuffled_list (Seed c) R)
            \/ lp ∈ drop (Z.to_nat (trainCount (len R) (TrainSplit c)))
                        (shuffled_list (Seed c) R)) as [Hin | Hin].
    { apply elem_of_app. rewrite take_drop. rewrite (shuffled_list_perm (Seed c) R).
      exact Hlp. }
    + exists "train"%string. split; [left; reflexivity |].
      destruct (Htrain lp Hin) as [(r & d & Hi) (r' & d' & Hl)].
      split; (eapply persists_file; [| eassumption]);
        eapply persists_trans; eassumption.
    + exists "val"%string. split; [right; reflexivity |].
      destruct (Hval lp Hin) as [(r & d & Hi) (r' & d' & Hl)].
      split; (eapply persists_file; [| eassumption]); exact P4.
Qed.

(** X17. With a train fraction within [0,1] (and fewer than 2^53
    records) [Convert] does not panic: it returns, with an error or
    without. *)
Theorem Convert_never_panics c w :
  f64_valid (TrainSplit c) = true ->
  f64_leb f64_zero (TrainSplit c) = true ->
  f64_leb (TrainSplit c) f64_one = true ->
  (forall R, image_label_pairs c w = inl R -> len R < 2 ^ 53) ->
  exists r w', Convert c w = (Done r, w').
Proof.
  intros Hvalid H0 H1 Hsize. rewrite Convert_phases.
  destruct (ValidateSourceStructure c w); [eauto |].
  destruct (LoadClasses c w) as [classes | err]; [| eauto].
  destruct (image_label_pairs c w) as [[| lp l] | err]; eauto.
  cbv zeta. set (R := lp :: l) in *. set (a := fresh (dom (w_heap w))).
  set (w1 := set_heap _ w). set (pairs := slice_at a _ _).
  assert (read_slice (w_heap w1) pairs = R) as HR
    by (apply read_slice_whole; [apply lookup_insert_eq | reflexivity]).
  rewrite (SplitDataset_run c w1 pairs) by (unfold backed; rewrite HR; reflexivity).
  cbv zeta. rewrite HR.
  destruct (trainCount_unit_interval (len R) (TrainSplit c)) as [Hk _]; try assumption.
  { split; [unfold len; lia | apply Hsize; reflexivity]. }
  replace ((0 <=? trainCount (len R) (TrainSplit c))
           && (trainCount (len R) (TrainSplit c) <=? len R)) with true
    by (symmetry; apply andb_true_intro; split; apply Z.leb_le; lia).
  match goal with
  | |- context [write_output c classes ?t ?v ?w2] =>
    destruct (write_output_any c classes t v w2) as (r & fs' & -> & _)
  end.
  eauto.
Qed.

End SuccessProps.


(* ================================================================= *)
(** ** The writing methods one by one *)

Section Functions.
Context `{MR : MathRand} `{SC : Strconv} `{YE : Yaml}.
Implicit Types (w : World MR) (c : Config).

Lemma os_Stat_file_data w path r d :
  os_Stat w path = Ok (File r d) <->
  file_data (w_fs w) (resolve (w_cwd w) path) = Some (r, d).
Proof. unfold os_Stat. symmetry. apply file_data_is_file. Qed.

(** X6. When [CreateYOLOStructure] returns nil, the four directories
    exist; it has created no file and changed none, and nothing that
    existed has been removed. *)
Theorem CreateYOLOStructure_creates c w w' :
  CreateYOLOStructure c w = (Done None, w') ->
  (forall dir,
     dir ∈ [filepath_Join [OutputDir c; "images"; "train"];
            filepath_Join [OutputDir c; "images"; "val"];
            filepath_Join [OutputDir c; "labels"; "train"];
            filepath_Join [OutputDir c; "labels"; "val"]] ->
     exists es, os_Stat w' dir = Ok (Dir es)) /\
  (forall path r d, os_Stat w' path = Ok (File r d) <-> os_Stat w path = Ok (File r d)) /\
  (forall path n, os_Stat w path = Ok n ->
     exists n', os_Stat w' path = Ok n' /\ is_dir n' = is_dir n).
Proof.
  unfold CreateYOLOStructure. intros H.
  destruct (create_dirs_ok _ _ _ H) as (fs' & -> & Hdirs & Hfiles & Hp).
  split; [exact Hdirs |]. split.
  - intros path r d. rewrite !os_Stat_file_data. cbn [w_fs w_cwd set_fs].
    rewrite Hfiles. reflexivity.
  - intros path n. unfold os_Stat. cbn [w_fs w_cwd set_fs]. apply Hp.
Qed.

(** X7. [CreateYOLOStructure] can be repeated: called again in the
    world a successful call has left, it returns nil and changes
    nothing. *)
Theorem CreateYOLOStructure_idempotent c w w' :
  CreateYOLOStructure c w = (Done None, w') ->
  CreateYOLOStructure c w' = (Done None, w').
Proof.
  unfold CreateYOLOStructure. intros H.
  destruct (create_dirs_ok _ _ _ H) as (fs' & -> & Hdirs & _).
  apply create_dirs_noop. exact Hdirs.
Qed.

(** X9. A successful [copyFile] between two different places: the
    source was a readable file, the destination is a file with the same
    contents, and no other file has been created or changed (the source
    included). *)
Theorem copyFile_copies src dst w w' :
  resolve (w_cwd w) src <> resolve (w_cwd w) dst ->
  copyFile src dst w = (Done None, w') ->
  exists data,
    os_Stat w src = Ok (File true data) /\
    os_Stat w' dst = Ok (File true data) /\
    os_Stat w' src = Ok (File true data) /\
    forall path r d,
      resolve (w_cwd w) path <> resolve (w_cwd w) dst ->
      (os_Stat w' path = Ok (File r d) <-> os_Stat w path = Ok (File r d)).
Proof.
  intros Hne H.
  destruct (copyFile_ok _ _ _ _ Hne H) as (data & fs' & -> & HS & HD & Hfr & _).
  exists data. rewrite !os_Stat_file_data. cbn [w_fs w_cwd set_fs].
  split; [exact HS |]. split; [exact HD |]. split; [rewrite Hfr; assumption |].
  intros path r d Hpath. rewrite !os_Stat_file_data. cbn [w_fs w_cwd set_fs].
  rewrite Hfr by exact Hpath. reflexivity.
Qed.

(** X10. [copyFile] onto itself (two paths that name the same place):
    when it returns nil, the path named a file, and that file is left
    empty, whatever it held: the destination is truncated before the
    source is read.  No other file has been created or changed. *)
Theorem copyFile_onto_itself src dst w w' :
  resolve (w_cwd w) src = resolve (w_cwd w) dst ->
  copyFile src dst w = (Done None, w') ->
  (exists data, os_Stat w src = Ok (File true data)) /\
  os_Stat w' src = Ok (File true "") /\
  forall path r d,
    resolve (w_cwd w) path <> resolve (w_cwd w) src ->
    (os_Stat w' path = Ok (File r d) <-> os_Stat w path = Ok (File r d)).
Proof.
  intros Heq Hrun.
  assert (exists data, os_Stat w src = Ok (File true data)) as [data HS].
  { revert Hrun. rewrite copyFile_run. cbv zeta. unfold os_Open, os_Stat.
    destruct (fs_lookup (w_fs w) (resolve (w_cwd w) src)) as [[[|] data | es] | e] eqn:HS;
      cbn [open_node]; try discriminate.
    - intros _. exists data. reflexivity.
    - rewrite <- Heq.
      destruct (fs_alter create_node _ _) as [fs0 | e] eqn:Hc; [| discriminate].
      destruct (fs_alter_lookup _ _ _ _ Hc) as (m & _ & Hf).
      unfold node_at in Hf. rewrite HS in Hf. discriminate Hf. }
  destruct (copyFile_self _ _ _ _ Heq HS) as (fs' & Hrun' & Hempty & Hfr).
  rewrite Hrun in Hrun'. injection Hrun' as ->.
  split; [exists data; exact HS |]. split; [exact Hempty |].
  intros path r d Hpath. rewrite !os_Stat_file_data. cbn [w_fs w_cwd set_fs].
  rewrite Hfr by exact Hpath. reflexivity.
Qed.

(** X8. A successful [CopyFiles], when no source is also a destination
    and sources copied to the same destination are the same: every
    image and every label of the records was a readable file and is at
    its destination, named after its last path element, with the same
    contents; the sources are as they were, and so is every file that
    is not a destination. *)
Theorem CopyFiles_copies c pairs splitType w w' :
  let ops := copy_ops (filepath_Join [OutputDir c; "images"; splitType])
                      (filepath_Join [OutputDir c; "labels"; splitType])
                      (read_slice (w_heap w) pairs) in
  (forall s d s' d', (s, d) ∈ ops -> (s', d') ∈ ops ->
     resolve (w_cwd w) s <> resolve (w_cwd w) d') ->
  (forall s d s' d', (s, d) ∈ ops -> (s', d') ∈ ops ->
     resolve (w_cwd w) d = resolve (w_cwd w) d' -> os_Stat w s = os_Stat w s') ->
  CopyFiles c pairs splitType w = (Done None, w') ->
  (forall s d, (s, d) ∈ ops ->
     exists data,
       os_Stat w s = Ok (File true data) /\
       os_Stat w' d = Ok (File true data) /\
       os_Stat w' s = Ok (File true data)) /\
  (forall path r d,
     (forall s d', (s, d') ∈ ops -> resolve (w_cwd w) path <> resolve (w_cwd w) d') ->
     (os_Stat w' path = Ok (File r d) <-> os_Stat w path = Ok (File r d))).
Proof.
  intros ops H1 H2. unfold CopyFiles, bind, get. intros H. apply copy_pairs_ok in H.
  fold ops in H.
  destruct (copy_each_ok ops w w' H1) as (fs' & -> & Hcopied & Hfr & _); [| exact H |].
  { intros s d s' d' Hin Hin' Heq. unfold file_data.
    change (fs_lookup (w_fs w) (resolve (w_cwd w) s)) with (os_Stat w s).
    change (fs_lookup (w_fs w) (resolve (w_cwd w) s')) with (os_Stat w s').
    rewrite (H2 s d s' d' Hin Hin' Heq). reflexivity. }
  split.
  - intros s d Hin. destruct (Hcopied s d Hin) as (data & Hs & Hd).
    exists data. rewrite !os_Stat_file_data. cbn [w_fs w_cwd set_fs].
    split; [exact Hs |]. split; [exact Hd |].
    rewrite Hfr; [exact Hs |].
    intros s' d' Hin'. apply (H1 s d s' d' Hin Hin').
  - intros path r d Hpath. rewrite !os_Stat_file_data. cbn [w_fs w_cwd set_fs].
    rewrite Hfr; [reflexivity |]. exact Hpath.
Qed.

(** X11. When [CreateYAMLConfig] returns nil, [data.yaml] in the output
    directory holds the header, with the time of the call, followed by
    the document for the given classes, whatever it held before; no
    other file has been created or changed. *)
Theorem CreateYAMLConfig_writes c classes w w' :
  CreateYAMLConfig c classes w = (Done None, w') ->
  let yamlPath := filepath_Join [OutputDir c; "data.yaml"] in
  os_Stat w' yamlPath
  = Ok (File true
          (yaml_header (w_now w)
           ++ yaml_Encode {| Path := filepath_Abs (w_cwd w) (OutputDir c);
                             Train := "images/train"; Val := "images/val";
                             NC := len classes; Names := classes |})) /\
  forall path r d,
    resolve (w_cwd w) path <> resolve (w_cwd w) yamlPath ->
    (os_Stat w' path = Ok (File r d) <-> os_Stat w path = Ok (File r d)).
Proof.
  intros H yamlPath.
  destruct (CreateYAMLConfig_ok _ _ _ _ H) as (fs' & -> & Hfile & Hfr & _).
  split; [exact Hfile |].
  intros path r d Hpath. rewrite !os_Stat_file_data. cbn [w_fs w_cwd set_fs].
  rewrite Hfr by exact Hpath. reflexivity.
Qed.

End Functions.


(* ================================================================= *)
(** ** [ValidateLabels]: the counters as sums over the label files *)

Section Totals.
Context `{MR : MathRand} `{SC : Strconv}.
Implicit Types (w : World MR) (st : ValidationStats).

Lemma len_filter_le {A} (p : A -> bool) (l : list A) : 0 <= len (List.filter p l) <= len l.
Proof.
  unfold len. induction l as [| x l IH]; cbn; [lia |].
  destruct (p x); cbn [length]; lia.
Qed.

Lemma valid_lines_cons text lines :
  valid_lines (text :: lines)
  = (match verdict_with coord_in_range text with Valid => 1 | _ => 0 end) + valid_lines lines.
Proof.
  unfold valid_lines, len. cbn [List.filter].
  destruct (verdict_with coord_in_range text); cbn [length]; lia.
Qed.

Lemma invalid_lines_cons text lines :
  invalid_lines (text :: lines)
  = (match verdict_with coord_in_range text with Invalid => 1 | _ => 0 end)
    + invalid_lines lines.
Proof.
  unfold invalid_lines, len. cbn [List.filter].
  destruct (verdict_with coord_in_range text); cbn [length]; lia.
Qed.

Lemma nonblank_lines_cons text lines :
  nonblank_lines (text :: lines)
  = (match verdict_with coord_in_range text with Blank => 0 | _ => 1 end)
    + nonblank_lines lines.
Proof.
  unfold nonblank_lines, len, verdict_with. cbn [List.filter].
  destruct (String.eqb (strings_TrimSpace text) ""); cbn [negb length]; [lia |].
  destruct (strings_Fields _) as [| ? [| ? [| ? [| ? [| ? [| ? ?]]]]]];
    try destruct (_ && _); lia.
Qed.

(** Every line that is not blank is counted once, as valid or as
    invalid. *)
Lemma lines_partition lines :
  valid_lines lines + invalid_lines lines = nonblank_lines lines.
Proof.
  induction lines as [| text lines IH]; [reflexivity |].
  rewrite valid_lines_cons, invalid_lines_cons, nonblank_lines_cons.
  destruct (verdict_with coord_in_range text); lia.
Qed.

Lemma valid_lines_range lines : 0 <= valid_lines lines <= len lines.
Proof. apply len_filter_le. Qed.

Lemma invalid_lines_range lines : 0 <= invalid_lines lines <= len lines.
Proof. apply len_filter_le. Qed.

(** The loop over the lines of one file, without overflow. *)
Lemma scan_lines_totals lines : forall i v,
  0 <= i -> 0 <= v -> i + len lines <= max_int -> v + len lines <= max_int ->
  fold_left scan_line lines (i, v) = (i + invalid_lines lines, v + valid_lines lines).
Proof.
  assert (min_int <= 0) as Hmin by (unfold min_int; lia).
  induction lines as [| text lines IH]; intros i v Hi Hv Hib Hvb.
  - cbn. f_equal; unfold invalid_lines, valid_lines, len; cbn; lia.
  - cbn [fold_left]. rewrite scan_line_verdict.
    rewrite valid_lines_cons, invalid_lines_cons.
    unfold len in *. cbn [length] in *.
    destruct (verdict_with coord_in_range text); cbn [count_verdict fst snd].
    + rewrite IH by lia. f_equal; lia.
    + rewrite int_incr_small by lia. rewrite IH by lia. f_equal; lia.
    + rewrite int_incr_small by lia. rewrite IH by lia. f_equal; lia.
Qed.

(** One record, without overflow. *)
Lemma validate_file_totals w st lp :
  0 <= TotalAnnotations st -> 0 <= FilesWithAnnotations st ->
  0 <= EmptyFiles st -> 0 <= InvalidLines st ->
  TotalAnnotations st + len (label_lines w lp) <= max_int ->
  InvalidLines st + len (label_lines w lp) < max_int ->
  FilesWithAnnotations st < max_int -> EmptyFiles st < max_int ->
  validate_file w st lp =
    {| TotalFiles := TotalFiles st;
       TotalAnnotations := TotalAnnotations st + file_annotations w lp;
       FilesWithAnnotations :=
         FilesWithAnnotations st + (if 0 <? file_annotations w lp then 1 else 0);
       EmptyFiles :=
         EmptyFiles st
         + (if negb (unreadable w lp) && (file_annotations w lp =? 0) then 1 else 0);
       InvalidLines := InvalidLines st + file_rejections w lp |}.
Proof.
  assert (min_int <= 0) as Hmin by (unfold min_int; lia).
  intros Ha Hf He Hi Hab Hib Hfb Heb.
  unfold validate_file, file_annotations, file_rejections, unreadable, label_lines in *.
  destruct (os_Open w (LabelPath lp)) as [file | e].
  - destruct (scan_lines file) as [lines scan_err]. cbn [fst snd] in *.
    pose proof (valid_lines_range lines) as Hvr.
    pose proof (invalid_lines_range lines) as Hir.
    rewrite scan_lines_totals by lia.
    destruct scan_err.
    + unfold set_InvalidLines. rewrite int_incr_small by lia.
      destruct st; cbn in *. f_equal; lia.
    + cbn [negb andb]. unfold int_add. rewrite wrap_int_small by (unfold in_int; lia).
      replace (0 + valid_lines lines) with (valid_lines lines) by lia.
      destruct (Z.gtb_spec (valid_lines lines) 0) as [Hpos | Hzero].
      * replace (0 <? valid_lines lines) with true by (symmetry; apply Z.ltb_lt; lia).
        replace (valid_lines lines =? 0) with false by (symmetry; apply Z.eqb_neq; lia).
        rewrite int_incr_small by lia. f_equal; lia.
      * replace (0 <? valid_lines lines) with false by (symmetry; apply Z.ltb_ge; lia).
        replace (valid_lines lines =? 0) with true by (symmetry; apply Z.eqb_eq; lia).
        rewrite int_incr_small by lia. f_equal; lia.
  - change (len (@nil string)) with 0 in *.
    unfold set_InvalidLines, invalid_lines, valid_lines, len. cbn.
    rewrite int_incr_small by lia. destruct st; cbn in *. f_equal; lia.
Qed.

Lemma file_annotations_range w lp : 0 <= file_annotations w lp <= len (label_lines w lp).
Proof.
  unfold file_annotations. pose proof (valid_lines_range (label_lines w lp)).
  destruct (unreadable w lp); unfold len in *; lia.
Qed.

Lemma file_rejections_range w lp : 0 <= file_rejections w lp <= len (label_lines w lp) + 1.
Proof.
  unfold file_rejections. pose proof (invalid_lines_range (label_lines w lp)).
  destruct (unreadable w lp); lia.
Qed.

Lemma sum_over_cons {A} (f : A -> Z) x l : sum_over f (x :: l) = f x + sum_over f l.
Proof. reflexivity. Qed.

Lemma sum_over_nonneg {A} (f : A -> Z) l : (forall x, 0 <= f x) -> 0 <= sum_over f l.
Proof.
  intros Hf. induction l as [| x l IH]; [cbn; lia |].
  rewrite sum_over_cons. specialize (Hf x). lia.
Qed.

(** All records, without overflow: [budget] bounds what the counters
    can grow by. *)
Lemma validate_files_totals w l : forall st,
  0 <= TotalAnnotations st -> 0 <= FilesWithAnnotations st ->
  0 <= EmptyFiles st -> 0 <= InvalidLines st ->
  let budget := sum_over (fun lp => len (label_lines w lp) + 1) l in
  TotalAnnotations st + budget <= max_int ->
  InvalidLines st + budget <= max_int ->
  FilesWithAnnotations st + budget <= max_int ->
  EmptyFiles st + budget <= max_int ->
  fold_left (validate_file w) l st =
    {| TotalFiles := TotalFiles st;
       TotalAnnotations := TotalAnnotations st + sum_over (file_annotations w) l;
       FilesWithAnnotations :=
         FilesWithAnnotations st
         + len (List.filter (fun lp => 0 <? file_annotations w lp) l);
       EmptyFiles :=
         EmptyFiles st
         + len (List.filter (fun lp => negb (unreadable w lp)
                                       && (file_annotations w lp =? 0)) l);
       InvalidLines := InvalidLines st + sum_over (file_rejections w) l |}.
Proof.
  induction l as [| lp l IH]; intros st Ha Hf He Hi budget Hab Hib Hfb Heb.
  - cbn. unfold len. cbn. destruct st; cbn. f_equal; lia.
  - subst budget. rewrite sum_over_cons in Hab, Hib, Hfb, Heb.
    cbn [fold_left List.filter]. rewrite !sum_over_cons.
    set (B := sum_over (fun lp => len (label_lines w lp) + 1) l) in *.
    assert (0 <= B) as HB by (apply sum_over_nonneg; intros x; unfold len; lia).
    assert (0 <= len (label_lines w lp)) as Hl by (unfold len; lia).
    pose proof (file_annotations_range w lp) as Har.
    pose proof (file_rejections_range w lp) as Hrr.
    rewrite validate_file_totals by lia.
    rewrite IH; cbn [TotalFiles TotalAnnotations FilesWithAnnotations EmptyFiles InvalidLines];
      try (destruct (0 <? file_annotations w lp);
           destruct (negb (unreadable w lp) && (file_annotations w lp =? 0)); lia).
    unfold len.
    destruct (0 <? file_annotations w lp);
      destruct (negb (unreadable w lp) && (file_annotations w lp =? 0));
      cbn [length]; f_equal; lia.
Qed.

(** X13. The counters of [ValidateLabels], as long as they do not
    overflow: [TotalAnnotations] is the number of valid lines in the
    label files that were scanned to their end; [InvalidLines] is the
    number of invalid lines seen in all files, plus one for every file
    that did not open or whose scan ended in an error;
    [FilesWithAnnotations] counts the files scanned to their end with a
    valid line, [EmptyFiles] those without one. *)
Theorem ValidateLabels_totals w pairs :
  let R := read_slice (w_heap w) pairs in
  sum_over (fun lp => len (label_lines w lp) + 1) R <= max_int ->
  let stats := fst (ValidateLabels w pairs) in
  TotalAnnotations stats = sum_over (file_annotations w) R /\
  InvalidLines stats = sum_over (file_rejections w) R /\
  FilesWithAnnotations stats = len (List.filter (fun lp => 0 <? file_annotations w lp) R) /\
  EmptyFiles stats
  = len (List.filter (fun lp => negb (unreadable w lp) && (file_annotations w lp =? 0)) R).
Proof.
  intros R Hbudget stats. unfold stats, ValidateLabels. cbn [fst]. fold R.
  rewrite validate_files_totals;
    cbn [TotalFiles TotalAnnotations FilesWithAnnotations EmptyFiles InvalidLines];
    try lia; exact Hbudget.
Qed.

Lemma sum_over_ext {A} (f g : A -> Z) (l : list A) :
  Forall (fun x => f x = g x) l -> sum_over f l = sum_over g l.
Proof.
  induction 1 as [| x l Hx _ IH]; [reflexivity |].
  rewrite !sum_over_cons. congruence.
Qed.

Lemma sum_over_add {A} (f g : A -> Z) (l : list A) :
  sum_over (fun x => f x + g x) l = sum_over f l + sum_over g l.
Proof.
  induction l as [| x l IH]; [reflexivity |].
  rewrite !sum_over_cons. lia.
Qed.

(** X14. When every label file opens and is scanned to its end (and
    the counters do not overflow), [ValidateLabels] accounts for every
    line that is not blank, once: [TotalAnnotations] and [InvalidLines]
    add up to the number of such lines in all label files. *)
Theorem ValidateLabels_counts_every_line w pairs :
  let R := read_slice (w_heap w) pairs in
  sum_over (fun lp => len (label_lines w lp) + 1) R <= max_int ->
  Forall (fun lp => unreadable w lp = false) R ->
  let stats := fst (ValidateLabels w pairs) in
  TotalAnnotations stats + InvalidLines stats
  = sum_over (fun lp => nonblank_lines (label_lines w lp)) R.
Proof.
  intros R Hbudget Hall stats. unfold stats, ValidateLabels. cbn [fst]. fold R.
  rewrite validate_files_totals;
    cbn [TotalFiles TotalAnnotations FilesWithAnnotations EmptyFiles InvalidLines];
    try lia; try exact Hbudget.
  rewrite !Z.add_0_l, <- sum_over_add. apply sum_over_ext.
  eapply Forall_impl; [exact Hall |]. intros lp Hlp. cbv beta.
  unfold file_annotations, file_rejections. rewrite Hlp.
  rewrite <- lines_partition. lia.
Qed.

End Totals.


(* ================================================================= *)
(** ** Paths: [filepath.Clean], [filepath.Join] and [filepath.Base] *)

Lemma append_empty_l (s : string) : ("" ++ s)%string = s.
Proof. reflexivity. Qed.

Lemma append_String ch (a b : string) : (String ch a ++ b)%string = String ch (a ++ b).
Proof. reflexivity. Qed.

Lemma split_on_nonempty sep s : split_on sep s <> [].
Proof.
  destruct s as [| ch s]; cbn [split_on]; [discriminate |].
  destruct (Ascii.eqb ch sep); [discriminate |].
  destruct (split_on sep s); discriminate.
Qed.

Lemma split_on_app sep a b :
  split_on sep (a ++ String sep b) = split_on sep a ++ split_on sep b.
Proof.
  induction a as [| ch a IH];
    rewrite ?append_empty_l, ?append_String; cbn [split_on].
  - rewrite Ascii.eqb_refl. reflexivity.
  - destruct (Ascii.eqb ch sep); [rewrite IH; reflexivity |].
    rewrite IH. pose proof (split_on_nonempty sep a).
    destruct (split_on sep a); [congruence | reflexivity].
Qed.

Lemma split_on_slash_free e : slash_free e = true -> split_on slash e = [e].
Proof.
  induction e as [| ch e IH]; cbn [slash_free split_on]; [reflexivity |].
  intros [Hc He]%andb_true_iff. apply negb_true_iff in Hc. rewrite Hc, (IH He).
  reflexivity.
Qed.

Lemma split_on_slash_free_all s : Forall (fun e => slash_free e = true) (split_on slash s).
Proof.
  induction s as [| ch s IH]; cbn [split_on]; [repeat constructor |].
  destruct (Ascii.eqb ch slash) eqn:Hc; [constructor; [reflexivity | exact IH] |].
  destruct (split_on slash s) as [| f fs];
    [repeat constructor; cbn [slash_free]; rewrite Hc; reflexivity |].
  inversion IH; subst. constructor; [cbn [slash_free]; rewrite Hc; assumption | assumption].
Qed.

Lemma split_join l :
  l <> [] -> split_on slash (join_with "/" l) = concat (map (split_on slash) l).
Proof.
  induction l as [| x l IH]; [congruence |]. intros _.
  destruct l as [| y l].
  - cbn. rewrite app_nil_r. reflexivity.
  - change (join_with "/" (x :: y :: l)) with (x ++ String slash (join_with "/" (y :: l)))%string.
    rewrite split_on_app, IH by discriminate. reflexivity.
Qed.

Lemma concat_split_slash_free l :
  Forall (fun e => slash_free e = true) l -> concat (map (split_on slash) l) = l.
Proof.
  induction 1 as [| x l Hx _ IH]; [reflexivity |].
  cbn. rewrite (split_on_slash_free _ Hx), IH. reflexivity.
Qed.

Lemma is_rooted_app a b : a <> ""%string -> is_rooted (a ++ b) = is_rooted a.
Proof. destruct a; [congruence | reflexivity]. Qed.

(** *** [clean_elems] *)

Lemma clean_elems_app rooted l1 : forall acc l2,
  clean_elems rooted acc (l1 ++ l2)
  = clean_elems rooted (rev (clean_elems rooted acc l1)) l2.
Proof.
  induction l1 as [| e l1 IH]; intros acc l2.
  - cbn. rewrite rev_involutive. reflexivity.
  - cbn [app clean_elems].
    destruct (String.eqb e "" || String.eqb e "."); [apply IH |].
    destruct (String.eqb e "..").
    + destruct acc as [| top acc']; [destruct rooted; apply IH |].
      destruct (String.eqb top ".."); apply IH.
    + apply IH.
Qed.

Lemma plain_spec e :
  plain e = true <-> e <> ""%string /\ e <> "."%string /\ e <> ".."%string.
Proof.
  unfold plain. rewrite negb_true_iff, !orb_false_iff.
  rewrite !String.eqb_neq. tauto.
Qed.

Lemma clean_elems_plain rooted l : forall acc,
  Forall (fun e => plain e = true) l -> clean_elems rooted acc l = rev acc ++ l.
Proof.
  induction l as [| e l IH]; intros acc Hl.
  - cbn. rewrite app_nil_r. reflexivity.
  - inversion Hl as [| ? ? He Hl']; subst. cbn [clean_elems].
    apply plain_spec in He as (H1 & H2 & H3).
    apply String.eqb_neq in H1, H2, H3. rewrite H1, H2, H3. cbn [orb].
    rewrite IH by assumption. cbn [rev]. rewrite <- app_assoc. reflexivity.
Qed.

(** From the root, the result has plain elements only. *)
Lemma clean_elems_rooted_plain es : forall acc,
  Forall (fun e => plain e = true) acc ->
  Forall (fun e => plain e = true) (clean_elems true acc es).
Proof.
  induction es as [| e es IH]; intros acc Hacc.
  - cbn. apply Forall_rev. exact Hacc.
  - cbn [clean_elems].
    destruct (String.eqb e "" || String.eqb e ".") eqn:Hskip; [apply IH, Hacc |].
    destruct (String.eqb e "..") eqn:Hdd.
    + destruct acc as [| top acc']; [apply IH, Hacc |].
      inversion Hacc as [| ? ? Htop Hacc']; subst.
      apply plain_spec in Htop as (_ & _ & Htop). apply String.eqb_neq in Htop.
      rewrite Htop. apply IH, Hacc'.
    + apply IH. constructor; [| exact Hacc].
      unfold plain. apply orb_false_iff in Hskip as [-> ->]. rewrite Hdd. reflexivity.
Qed.

(** Resolving what [clean_elems] made of a relative path, from any
    place, is resolving the path. *)
Lemma clean_elems_resolved es : forall acc acc',
  Forall (fun e => kept e = true) acc' ->
  clean_elems true acc (clean_elems false acc' es)
  = clean_elems true acc (rev acc' ++ es).
Proof.
  induction es as [| e es IH]; intros acc acc' Hacc'.
  - cbn. rewrite app_nil_r. reflexivity.
  - cbn [clean_elems].
    destruct (String.eqb e "" || String.eqb e ".") eqn:Hskip.
    { rewrite IH by assumption. rewrite !clean_elems_app. cbn [clean_elems].
      rewrite Hskip. reflexivity. }
    destruct (String.eqb e "..") eqn:Hdd.
    + apply String.eqb_eq in Hdd as ->.
      destruct acc' as [| top acc''].
      * rewrite IH by (repeat constructor). reflexivity.
      * destruct (String.eqb top "..") eqn:Htop.
        -- rewrite IH by (constructor; [reflexivity | assumption]).
           cbn [rev]. rewrite <- !app_assoc. reflexivity.
        -- inversion Hacc' as [| ? ? Hk Hacc'']; subst.
           rewrite IH by assumption. cbn [rev]. rewrite <- !app_assoc. cbn [app].
           rewrite (clean_elems_app true (rev acc'') acc es).
           rewrite (clean_elems_app true (rev acc'') acc (top :: ".." :: es)).
           unfold kept in Hk. apply negb_true_iff in Hk.
           cbn [clean_elems]. rewrite Hk, Htop.
           change (String.eqb ".." "" || String.eqb ".." ".") with false.
           change (String.eqb ".." "..") with true. cbv iota.
           reflexivity.
    + rewrite IH.
      * cbn [rev]. rewrite <- app_assoc. reflexivity.
      * constructor; [| assumption]. unfold kept. rewrite Hskip. reflexivity.
Qed.

Lemma clean_elems_slash_free rooted es : forall acc,
  Forall (fun e => slash_free e = true) acc ->
  Forall (fun e => slash_free e = true) es ->
  Forall (fun e => slash_free e = true) (clean_elems rooted acc es).
Proof.
  induction es as [| e es IH]; intros acc Hacc Hes.
  - cbn. apply Forall_rev. exact Hacc.
  - inversion Hes as [| ? ? He Hes']; subst. cbn [clean_elems].
    destruct (String.eqb e "" || String.eqb e "."); [apply IH; assumption |].
    destruct (String.eqb e "..").
    + destruct acc as [| top acc'].
      * destruct rooted; apply IH; try assumption. constructor; assumption.
      * inversion Hacc; subst.
        destruct (String.eqb top ".."); apply IH; try assumption.
        constructor; assumption.
    + apply IH; [constructor |]; assumption.
Qed.

Lemma clean_elems_kept rooted es : forall acc,
  Forall (fun e => kept e = true) acc ->
  Forall (fun e => kept e = true) (clean_elems rooted acc es).
Proof.
  induction es as [| e es IH]; intros acc Hacc.
  - cbn. apply Forall_rev. exact Hacc.
  - cbn [clean_elems].
    destruct (String.eqb e "" || String.eqb e ".") eqn:Hskip; [apply IH; assumption |].
    assert (kept e = true) as He by (unfold kept; rewrite Hskip; reflexivity).
    destruct (String.eqb e "..").
    + destruct acc as [| top acc'].
      * destruct rooted; apply IH; try assumption. constructor; assumption.
      * inversion Hacc; subst.
        destruct (String.eqb top ".."); apply IH; try assumption.
        constructor; assumption.
    + apply IH. constructor; assumption.
Qed.

Lemma kept_nonempty e : kept e = true -> e <> ""%string.
Proof. unfold kept. intros H ->. discriminate. Qed.

Lemma join_with_cons x y l :
  join_with "/" (x :: y :: l) = (x ++ String slash (join_with "/" (y :: l)))%string.
Proof. reflexivity. Qed.

Lemma join_with_empty l :
  Forall (fun e => kept e = true) l -> join_with "/" l = ""%string -> l = [].
Proof.
  intros Hl. destruct l as [| x l]; [reflexivity |].
  inversion Hl as [| ? ? Hx _]; subst. apply kept_nonempty in Hx.
  destruct l as [| y l]; [cbn; congruence |].
  rewrite join_with_cons. destruct x; [congruence | discriminate].
Qed.

Lemma is_rooted_slash_free e : slash_free e = true -> is_rooted e = false.
Proof.
  destruct e as [| ch e]; [reflexivity |]. cbn [slash_free is_rooted].
  intros [Hc _]%andb_true_iff. apply negb_true_iff in Hc. exact Hc.
Qed.

Lemma is_rooted_join l :
  Forall (fun e => kept e = true) l -> Forall (fun e => slash_free e = true) l ->
  is_rooted (join_with "/" l) = false.
Proof.
  intros Hk Hs. destruct l as [| x l]; [reflexivity |].
  inversion Hk as [| ? ? Hx _]; subst. inversion Hs as [| ? ? Hsx _]; subst.
  apply kept_nonempty in Hx.
  destruct l as [| y l]; [apply is_rooted_slash_free, Hsx |].
  rewrite join_with_cons, is_rooted_app by exact Hx. apply is_rooted_slash_free, Hsx.
Qed.

Lemma plain_kept e : plain e = true -> kept e = true.
Proof.
  unfold plain, kept. rewrite !negb_true_iff, !orb_false_iff. tauto.
Qed.

(** The operating system resolves a cleaned path as the path itself. *)
Lemma resolve_Clean cwd p : resolve cwd (filepath_Clean p) = resolve cwd p.
Proof.
  unfold resolve at 2. unfold filepath_Clean.
  pose proof (split_on_slash_free_all p) as Hsf.
  destruct (is_rooted p) eqn:Hr.
  - set (L := clean_elems true [] (split_on slash p)).
    assert (Forall (fun e => plain e = true) L) as HL
      by (apply clean_elems_rooted_plain; constructor).
    assert (Forall (fun e => slash_free e = true) L) as HLs
      by (apply clean_elems_slash_free; [constructor | exact Hsf]).
    unfold resolve. cbn [is_rooted]. unfold slash at 1. rewrite Ascii.eqb_refl.
    cbn [split_on]. unfold slash at 1. rewrite Ascii.eqb_refl. cbn [clean_elems].
    change (String.eqb "" "" || String.eqb "" ".") with true. cbv iota.
    destruct L as [| x L'] eqn:HLeq.
    + reflexivity.
    + rewrite split_join by discriminate.
      rewrite concat_split_slash_free by exact HLs.
      rewrite clean_elems_plain by exact HL. reflexivity.
  - set (L := clean_elems false [] (split_on slash p)).
    assert (Forall (fun e => kept e = true) L) as HL
      by (apply clean_elems_kept; constructor).
    assert (Forall (fun e => slash_free e = true) L) as HLs
      by (apply clean_elems_slash_free; [constructor | exact Hsf]).
    rewrite (clean_elems_app true (split_on slash cwd) [] (split_on slash p)).
    set (X := rev (clean_elems true [] (split_on slash cwd))).
    assert (clean_elems true X (split_on slash p) = clean_elems true X L) as ->
      by (symmetry; apply (clean_elems_resolved (split_on slash p) X []); constructor).
    destruct (String.eqb_spec (join_with "/" L) "") as [Hempty | Hne].
    + rewrite (join_with_empty L HL Hempty).
      unfold resolve. cbn [is_rooted]. change (Ascii.eqb "." slash) with false. cbv iota.
      rewrite (clean_elems_app true (split_on slash cwd) [] _). fold X. reflexivity.
    + unfold resolve. rewrite (is_rooted_join L HL HLs).
      rewrite (clean_elems_app true (split_on slash cwd) [] _). fold X.
      assert (L <> []) as HLne by (intros ->; apply Hne; reflexivity).
      rewrite split_join by exact HLne.
      rewrite concat_split_slash_free by exact HLs. reflexivity.
Qed.


Lemma resolve_plain cwd p : Forall (fun e => plain e = true) (resolve cwd p).
Proof. apply clean_elems_rooted_plain. constructor. Qed.

Lemma resolve_empty cwd : resolve cwd "" = clean_elems true [] (split_on slash cwd).
Proof.
  unfold resolve. cbn [is_rooted split_on]. rewrite clean_elems_app. cbn [clean_elems].
  change (String.eqb "" "" || String.eqb "" ".") with true. cbv iota. cbn [clean_elems].
  apply rev_involutive.
Qed.

Lemma filepath_Clean_nonempty p : filepath_Clean p <> ""%string.
Proof.
  unfold filepath_Clean. destruct (is_rooted p); [discriminate |].
  destruct (String.eqb_spec (join_with "/" (clean_elems false [] (split_on slash p))) "");
    [discriminate | assumption].
Qed.

Lemma filter_nonempty_plain l :
  Forall (fun e => plain e = true) l ->
  filter (fun e => negb (String.eqb e "")) l = l.
Proof.
  induction 1 as [| x l Hx _ IH]; [reflexivity |].
  rewrite filter_cons. apply plain_spec in Hx as (Hx & _). apply String.eqb_neq in Hx.
  destruct (decide _) as [_ | Hn]; [rewrite IH; reflexivity |].
  exfalso. apply Hn. rewrite Hx. exact I.
Qed.

(** Joining plain elements to a path, as the operating system resolves
    the result. *)
Lemma resolve_Join_plain cwd o rest :
  Forall (fun e => plain e = true) rest ->
  Forall (fun e => slash_free e = true) rest ->
  resolve cwd (filepath_Join (o :: rest)) = resolve cwd o ++ rest.
Proof.
  intros Hp Hs. unfold filepath_Join. rewrite filter_cons.
  rewrite (filter_nonempty_plain rest Hp).
  assert (Forall (fun e => kept e = true) rest) as Hk
    by (eapply Forall_impl; [exact Hp | intros e; apply plain_kept]).
  destruct (String.eqb_spec o "") as [-> | Ho].
  - destruct (decide _) as [Hd | _]; [exfalso; exact Hd |].
    rewrite resolve_empty.
    destruct rest as [| a rest'] eqn:Hrest.
    + rewrite resolve_empty, app_nil_r. reflexivity.
    + rewrite <- Hrest in *. rewrite resolve_Clean. unfold resolve.
      rewrite (is_rooted_join rest Hk Hs).
      rewrite split_join by (rewrite Hrest; discriminate).
      rewrite concat_split_slash_free by exact Hs.
      rewrite clean_elems_app, clean_elems_plain by exact Hp.
      rewrite rev_involutive. reflexivity.
  - destruct (decide _) as [_ | Hd]; [| exfalso; apply Hd; exact I].
    rewrite resolve_Clean.
    destruct rest as [| a rest'] eqn:Hrest.
    + cbn [join_with]. rewrite app_nil_r. reflexivity.
    + rewrite <- Hrest in *.
      assert (join_with "/" (o :: rest) = (o ++ String slash (join_with "/" rest))%string) as ->
        by (rewrite Hrest; reflexivity).
      unfold resolve. rewrite is_rooted_app by exact Ho.
      rewrite split_on_app.
      rewrite split_join by (rewrite Hrest; discriminate).
      rewrite concat_split_slash_free by exact Hs.
      destruct (is_rooted o).
      * rewrite clean_elems_app, clean_elems_plain by exact Hp.
        rewrite rev_involutive. reflexivity.
      * rewrite app_assoc, clean_elems_app, clean_elems_plain by exact Hp.
        rewrite rev_involutive. reflexivity.
Qed.

(** Joining one more path to a directory. *)
Lemma resolve_Join_pair cwd d nm :
  d <> ""%string -> nm <> ""%string ->
  resolve cwd (filepath_Join [d; nm])
  = clean_elems true (rev (resolve cwd d)) (split_on slash nm).
Proof.
  intros Hd Hnm. unfold filepath_Join. rewrite !filter_cons, filter_nil.
  apply String.eqb_neq in Hd as Hd', Hnm as Hnm'.
  destruct (decide _) as [_ | Hn]; [| exfalso; apply Hn; rewrite Hd'; exact I].
  destruct (decide _) as [_ | Hn]; [| exfalso; apply Hn; rewrite Hnm'; exact I].
  rewrite resolve_Clean.
  change (join_with "/" [d; nm]) with (d ++ String slash nm)%string.
  unfold resolve. rewrite is_rooted_app by exact Hd. rewrite split_on_app.
  destruct (is_rooted d).
  - rewrite clean_elems_app. reflexivity.
  - rewrite app_assoc, clean_elems_app. reflexivity.
Qed.

Lemma filepath_Join_nonempty o a rest :
  plain a = true -> filepath_Join (o :: a :: rest) <> ""%string.
Proof.
  intros Ha. unfold filepath_Join. rewrite !filter_cons.
  apply plain_spec in Ha as (Ha & _). apply String.eqb_neq in Ha.
  destruct (decide (negb (String.eqb a ""))) as [_ | Hn]; [| exfalso; apply Hn; rewrite Ha; exact I].
  destruct (decide _); apply filepath_Clean_nonempty.
Qed.

(** [filepath.Base] returns a single element, or the separator. *)
Lemma filepath_Base_cases p :
  filepath_Base p = "/"%string
  \/ (slash_free (filepath_Base p) = true /\ filepath_Base p <> ""%string).
Proof.
  unfold filepath_Base. destruct (String.eqb p ""); [right; split; [reflexivity | discriminate] |].
  pose proof (split_on_slash_free_all p) as Hsf.
  destruct (rev _) as [| e l] eqn:Hrev; [left; reflexivity |]. right.
  assert (e ∈ filter (fun e => negb (String.eqb e "")) (split_on slash p)) as Hin.
  { apply list_elem_of_In, in_rev. rewrite Hrev. left. reflexivity. }
  apply list_elem_of_filter in Hin as [Hne Hin]. split.
  - rewrite Forall_forall in Hsf. apply Hsf, Hin.
  - intros ->. apply Hne.
Qed.

(** A file placed in a directory two levels below [P], under the name
    [filepath.Base] gives, is below [P]. *)
Lemma below_after_Base P a s p :
  Forall (fun e => plain e = true) P -> plain a = true -> plain s = true ->
  P `prefix_of`
    clean_elems true (rev (P ++ [a; s])) (split_on slash (filepath_Base p)).
Proof.
  intros HP Ha Hs. rewrite rev_app_distr. cbn [rev app].
  destruct (filepath_Base_cases p) as [-> | [Hsf Hne]].
  - exists [a; s]. cbn. rewrite rev_involutive, <- !app_assoc. reflexivity.
  - rewrite (split_on_slash_free _ Hsf). set (e := filepath_Base p) in *.
    cbn [clean_elems].
    destruct (String.eqb e "" || String.eqb e ".").
    { exists [a; s]. cbn [rev]. rewrite rev_involutive, <- !app_assoc. reflexivity. }
    destruct (String.eqb e "..").
    + apply plain_spec in Hs as (_ & _ & Hs). apply String.eqb_neq in Hs. rewrite Hs.
      exists [a]. cbn [rev]. rewrite rev_involutive. reflexivity.
    + exists [a; s; e]. cbn [rev]. rewrite rev_involutive, <- !app_assoc. reflexivity.
Qed.


(* ================================================================= *)
(** ** [Convert] writes below the output directory *)

Section Confined.
Context `{MR : MathRand} `{SC : Strconv} `{YE : Yaml}.
Implicit Types (w : World MR) (c : Config).

Lemma filepath_Base_nonempty p : filepath_Base p <> ""%string.
Proof. destruct (filepath_Base_cases p) as [-> | [_ H]]; [discriminate | exact H]. Qed.

(** Where [CopyFiles] puts a file is below the output directory. *)
Lemma destination_below cwd o a s p :
  plain a = true -> slash_free a = true -> plain s = true -> slash_free s = true ->
  resolve cwd o `prefix_of`
    resolve cwd (filepath_Join [filepath_Join [o; a; s]; filepath_Base p]).
Proof.
  intros Ha Hsa Hs Hss.
  rewrite resolve_Join_pair
    by (try apply filepath_Join_nonempty; try apply filepath_Base_nonempty; exact Ha).
  rewrite resolve_Join_plain by (repeat constructor; assumption).
  apply below_after_Base; [apply resolve_plain | assumption | assumption].
Qed.

Lemma CopyFiles_below c pairs splitType w q :
  plain splitType = true -> slash_free splitType = true ->
  ~ resolve (w_cwd w) (OutputDir c) `prefix_of` q ->
  file_data (w_fs (snd (CopyFiles c pairs splitType w))) q = file_data (w_fs w) q.
Proof.
  intros Hs Hss Hq.
  destruct (CopyFiles_any c pairs splitType w) as (r & fs' & -> & _ & Hf & _).
  cbn [snd w_fs set_fs]. apply Hf. intros lp _.
  split; intros ->; apply Hq; apply destination_below; try assumption; reflexivity.
Qed.

(** The writing part creates and changes files below the output
    directory only. *)
Lemma write_output_below c classes trainPairs valPairs w q :
  ~ resolve (w_cwd w) (OutputDir c) `prefix_of` q ->
  file_data (w_fs (snd (write_output c classes trainPairs valPairs w))) q
  = file_data (w_fs w) q.
Proof.
  intros Hq. unfold write_output, bind at 1, CreateYOLOStructure.
  match goal with
  | |- context [create_dirs ?dirs w] =>
    destruct (create_dirs_any dirs w) as (r1 & fs1 & -> & _ & F1 & _)
  end.
  destruct r1 as [e1 |]; [unfold ret; cbn [snd w_fs set_fs]; exact (F1 q) |].
  unfold bind at 1.
  pose proof (CopyFiles_below c trainPairs "train" (set_fs fs1 w) q eq_refl eq_refl Hq) as F2.
  destruct (CopyFiles_any c trainPairs "train" (set_fs fs1 w)) as (r2 & fs2 & E2 & _).
  rewrite E2 in *. cbn [snd w_fs set_fs] in F2.
  destruct r2 as [e2 |]; [unfold ret; cbn [snd w_fs set_fs]; rewrite F2; exact (F1 q) |].
  unfold bind at 1.
  pose proof (CopyFiles_below c valPairs "val" (set_fs fs2 (set_fs fs1 w)) q
                eq_refl eq_refl Hq) as F3.
  destruct (CopyFiles_any c valPairs "val" (set_fs fs2 (set_fs fs1 w)))
    as (r3 & fs3 & E3 & _).
  rewrite E3 in *. cbn [snd w_fs set_fs] in F3.
  destruct r3 as [e3 |]; [unfold ret; cbn [snd w_fs set_fs]; rewrite F3, F2; exact (F1 q) |].
  destruct (CreateYAMLConfig_any c classes (set_fs fs3 (set_fs fs2 (set_fs fs1 w))))
    as (r4 & fs4 & -> & _ & F4 & _).
  cbn [snd w_fs w_cwd set_fs] in *. rewrite F4, F3, F2; [exact (F1 q) |].
  intros ->. apply Hq.
  rewrite (resolve_Join_plain (w_cwd w) (OutputDir c) ["data.yaml"%string])
    by (repeat constructor).
  exists ["data.yaml"%string]. reflexivity.
Qed.

(** X19. [Convert] writes below the output directory only: whatever it
    returns, a path that does not lead into the output directory names a
    file afterwards exactly when it did before, with the same contents.
    An export outside the output directory is left as it was. *)
Theorem Convert_writes_below_output c w path r d :
  ~ resolve (w_cwd w) (OutputDir c) `prefix_of` resolve (w_cwd w) path ->
  (os_Stat (snd (Convert c w)) path = Ok (File r d) <-> os_Stat w path = Ok (File r d)).
Proof.
  intros Hq.
  assert (file_data (w_fs (snd (Convert c w))) (resolve (w_cwd w) path)
          = file_data (w_fs w) (resolve (w_cwd w) path)
          /\ w_cwd (snd (Convert c w)) = w_cwd w) as [Hf Hcwd].
  { rewrite Convert_phases.
    destruct (ValidateSourceStructure c w); [split; reflexivity |].
    destruct (LoadClasses c w) as [classes | err]; [| split; reflexivity].
    destruct (image_label_pairs c w) as [[| lp l] | err]; try (split; reflexivity).
    cbv zeta.
    match goal with
    | |- context [SplitDataset c ?s ?w1] =>
      pose proof (keeps_files_SplitDataset c s w1) as (Hfs & Hcwd & _);
      destruct (SplitDataset c s w1) as [[[t v] | p'] w2]
    end; cbn [fst snd w_fs w_cwd set_heap] in *.
    - rewrite <- Hfs, <- Hcwd. split.
      + apply write_output_below. rewrite Hcwd. exact Hq.
      + destruct (write_output_any c classes t v w2) as (r' & fs' & -> & _).
        reflexivity.
    - rewrite Hfs. split; [reflexivity | exact Hcwd]. }
  unfold os_Stat. rewrite Hcwd, <- !file_data_is_file, Hf. reflexivity.
Qed.

End Confined.


(* ================================================================= *)
(** ** [GetImageLabelPairs] on a directory of files *)

Lemma ascii_compare_eq a b : Ascii.compare a b = Eq -> a = b.
Proof. apply Ascii.compare_eq_iff. Qed.

Lemma ascii_compare_trans_lt a b c :
  Ascii.compare a b = Lt -> Ascii.compare b c = Lt -> Ascii.compare a c = Lt.
Proof.
  unfold Ascii.compare. rewrite !N.compare_lt_iff. lia.
Qed.

Lemma string_compare_refl s : String.compare s s = Eq.
Proof.
  induction s as [| ch s IH]; [reflexivity |]. cbn.
  unfold Ascii.compare. rewrite N.compare_refl. exact IH.
Qed.

Lemma string_leb_trans a : forall b c,
  String.leb a b = true -> String.leb b c = true -> String.leb a c = true.
Proof.
  unfold String.leb.
  induction a as [| x a IH]; intros [| y b] [| z c]; cbn; try congruence.
  destruct (Ascii.compare x y) eqn:Hxy; try discriminate;
    destruct (Ascii.compare y z) eqn:Hyz; try discriminate.
  - apply ascii_compare_eq in Hxy as ->. rewrite Hyz. apply IH.
  - apply ascii_compare_eq in Hxy as ->. rewrite Hyz. reflexivity.
  - apply ascii_compare_eq in Hyz as <-. rewrite Hxy. reflexivity.
  - rewrite (ascii_compare_trans_lt _ _ _ Hxy Hyz). reflexivity.
Qed.

Lemma insert_by_name_perm x l : insert_by_name x l ≡ₚ x :: l.
Proof.
  induction l as [| y l IH]; cbn [insert_by_name]; [reflexivity |].
  destruct (String.leb (fst x) (fst y)); [reflexivity |].
  rewrite IH. apply Permutation_swap.
Qed.

Lemma sort_by_name_perm l : sort_by_name l ≡ₚ l.
Proof.
  unfold sort_by_name. induction l as [| x l IH]; [reflexivity |].
  cbn [fold_right]. rewrite insert_by_name_perm, IH. reflexivity.
Qed.

Lemma insert_by_name_sorted x l :
  StronglySorted (fun a b => name_le (fst a) (fst b)) l ->
  StronglySorted (fun a b => name_le (fst a) (fst b)) (insert_by_name x l).
Proof.
  induction 1 as [| y l Hl IH Hy]; cbn [insert_by_name].
  - repeat constructor.
  - destruct (String.leb (fst x) (fst y)) eqn:Hxy.
    + constructor; [constructor; assumption |].
      constructor; [exact Hxy |].
      eapply Forall_impl; [exact Hy |]. intros z Hz.
      eapply string_leb_trans; [exact Hxy | exact Hz].
    + constructor; [exact IH |].
      rewrite (insert_by_name_perm x l). constructor; [| exact Hy].
      destruct (String.leb_total (fst x) (fst y)) as [H | H]; [congruence | exact H].
Qed.

Lemma sort_by_name_sorted l :
  StronglySorted (fun a b => name_le (fst a) (fst b)) (sort_by_name l).
Proof.
  unfold sort_by_name. induction l as [| x l IH]; cbn [fold_right]; [constructor |].
  apply insert_by_name_sorted, IH.
Qed.

Lemma StronglySorted_fmap {A B} (f : A -> B) (R : B -> B -> Prop) l :
  StronglySorted (fun a b => R (f a) (f b)) l -> StronglySorted R (f <$> l).
Proof.
  induction 1 as [| x l Hl IH Hx]; cbn; constructor; [exact IH |].
  apply Forall_fmap. exact Hx.
Qed.

Lemma StronglySorted_filter {A} (R : A -> A -> Prop) (p : A -> bool) l :
  StronglySorted R l -> StronglySorted R (List.filter p l).
Proof.
  induction 1 as [| x l Hl IH Hx]; cbn; [constructor |].
  assert (Forall (R x) (List.filter p l)) as Hx'.
  { apply Forall_forall. intros y Hy. rewrite Forall_forall in Hx. apply Hx.
    apply list_elem_of_In in Hy. apply filter_In in Hy as [Hy _].
    apply list_elem_of_In, Hy. }
  destruct (p x); [constructor; assumption | exact IH].
Qed.

Section Flat.
Context `{MR : MathRand}.
Implicit Types (w : World MR) (c : Config).

Lemma visit_image_file w labelsDir pairs path name :
  visit_image w labelsDir pairs (Visit path name false)
  = if matched w labelsDir name
    then pairs ++ [{| ImagePath := path; LabelPath := label_path_for labelsDir name |}]
    else pairs.
Proof.
  unfold visit_image, matched, recognized, label_path_for.
  destruct (default false _); [| reflexivity]. cbn [negb andb].
  destruct (os_Stat w _); reflexivity.
Qed.

(** The walk function over the files of one directory. *)
Lemma visit_images_files w root labelsDir names : forall pairs,
  fold_left (visit_image w labelsDir)
            ((fun nm => Visit (filepath_Join [root; nm]) nm false) <$> names) pairs
  = pairs ++ (record_for root labelsDir <$> List.filter (matched w labelsDir) names).
Proof.
  induction names as [| nm names IH]; intros pairs; cbn [fmap list_fmap fold_left List.filter].
  - rewrite app_nil_r. reflexivity.
  - change (list_fmap _ _ ?f ?l) with (f <$> l). rewrite IH, visit_image_file.
    destruct (matched w labelsDir nm); [| reflexivity].
    cbn [fmap list_fmap]. rewrite <- app_assoc. reflexivity.
Qed.

Lemma walk_list entries root :
  map_fold (fun nm child acc =>
              (nm, walk_node (filepath_Join [root; nm]) nm child) :: acc) [] entries
  = (fun kv => (fst kv, walk_node (filepath_Join [root; fst kv]) (fst kv) (snd kv)))
      <$> map_to_list entries.
Proof.
  rewrite map_fold_foldr.
  induction (map_to_list entries) as [| [nm child] l IH]; [reflexivity |].
  cbn [foldr uncurry fmap list_fmap fst snd]. f_equal. exact IH.
Qed.

Lemma walk_order_perm entries root : walk_order entries root ≡ₚ (map_to_list entries).*1.
Proof.
  unfold walk_order. rewrite sort_by_name_perm, walk_list, <- list_fmap_compose.
  reflexivity.
Qed.

Lemma walk_order_sorted entries root : StronglySorted name_le (walk_order entries root).
Proof. apply StronglySorted_fmap, sort_by_name_sorted. Qed.

Lemma walk_order_NoDup entries root : NoDup (walk_order entries root).
Proof. rewrite walk_order_perm. apply NoDup_fst_map_to_list. Qed.

Lemma walk_order_elem entries root nm :
  nm ∈ walk_order entries root <-> is_Some (entries !! nm).
Proof.
  rewrite walk_order_perm, list_elem_of_fmap. split.
  - intros ([k v] & -> & Hin). apply elem_of_map_to_list in Hin. eauto.
  - intros [v Hv]. exists (nm, v). split; [reflexivity |].
    apply elem_of_map_to_list, Hv.
Qed.

(** The walk of a directory without subdirectory. *)
Lemma walk_node_flat root name entries :
  map_Forall (fun _ n => is_dir n = false) entries ->
  walk_node root name (Dir entries)
  = Visit root name true
      :: ((fun nm => Visit (filepath_Join [root; nm]) nm false) <$> walk_order entries root).
Proof.
  intros Hflat. cbn [walk_node]. f_equal. unfold walk_order.
  assert (Forall (fun x => snd x = [Visit (filepath_Join [root; fst x]) (fst x) false])
                 (sort_by_name
                    (map_fold (fun nm child acc =>
                                 (nm, walk_node (filepath_Join [root; nm]) nm child) :: acc)
                              [] entries))) as Hall.
  { rewrite sort_by_name_perm, walk_list. apply Forall_fmap, Forall_forall.
    intros [nm child] Hin. apply elem_of_map_to_list in Hin.
    specialize (Hflat nm child Hin). cbn [fst snd] in *.
    destruct child; [reflexivity | discriminate]. }
  induction Hall as [| [nm v] l Hx _ IH]; [reflexivity |].
  cbn [map concat fmap list_fmap fst snd] in *. rewrite Hx, IH. reflexivity.
Qed.

End Flat.


Lemma filter_nonempty_kept l :
  Forall (fun e => kept e = true) l ->
  filter (fun e => negb (String.eqb e "")) l = l.
Proof.
  induction 1 as [| x l Hx _ IH]; [reflexivity |].
  rewrite filter_cons. apply kept_nonempty, String.eqb_neq in Hx.
  destruct (decide _) as [_ | Hn]; [rewrite IH; reflexivity |].
  exfalso. apply Hn. rewrite Hx. exact I.
Qed.

Lemma last_of_rev_app {A} (l : list A) x : rev (l ++ [x]) = x :: rev l.
Proof. rewrite rev_app_distr. reflexivity. Qed.

(** The last element of a cleaned path. *)
Lemma filepath_Base_Clean p L nm :
  clean_elems (is_rooted p) [] (split_on slash p) = L ++ [nm] ->
  filepath_Base (filepath_Clean p) = nm.
Proof.
  intros HL.
  assert (Forall (fun e => kept e = true) (L ++ [nm])) as Hk
    by (rewrite <- HL; apply clean_elems_kept; constructor).
  assert (Forall (fun e => slash_free e = true) (L ++ [nm])) as Hs
    by (rewrite <- HL; apply clean_elems_slash_free;
        [constructor | apply split_on_slash_free_all]).
  assert (L ++ [nm] <> []) as Hne by (destruct L; discriminate).
  unfold filepath_Base.
  pose proof (filepath_Clean_nonempty p) as Hc. apply String.eqb_neq in Hc. rewrite Hc.
  unfold filepath_Clean. rewrite HL.
  destruct (is_rooted p).
  - cbn [split_on]. unfold slash at 1. rewrite Ascii.eqb_refl.
    rewrite split_join, concat_split_slash_free by assumption.
    rewrite filter_cons. destruct (decide _) as [Hd | _]; [exfalso; exact Hd |].
    rewrite filter_nonempty_kept, last_of_rev_app by exact Hk. reflexivity.
  - destruct (String.eqb_spec (join_with "/" (L ++ [nm])) "") as [He | _].
    { apply join_with_empty in He; [congruence | exact Hk]. }
    rewrite split_join, concat_split_slash_free by assumption.
    rewrite filter_nonempty_kept, last_of_rev_app by exact Hk. reflexivity.
Qed.

Lemma clean_elems_snoc rooted acc l nm :
  plain nm = true ->
  clean_elems rooted acc (l ++ [nm]) = clean_elems rooted acc l ++ [nm].
Proof.
  intros Hnm. rewrite clean_elems_app, clean_elems_plain by (repeat constructor; exact Hnm).
  rewrite rev_involutive. reflexivity.
Qed.

(** The name under which a file was joined to a directory. *)
Lemma filepath_Base_Join d nm :
  plain nm = true -> slash_free nm = true ->
  filepath_Base (filepath_Join [d; nm]) = nm.
Proof.
  intros Hp Hs. unfold filepath_Join. rewrite !filter_cons, filter_nil.
  pose proof Hp as Hne. apply plain_spec in Hne as (Hne & _). apply String.eqb_neq in Hne.
  destruct (decide (negb (String.eqb nm ""))) as [_ | Hn];
    [| exfalso; apply Hn; rewrite Hne; exact I].
  destruct (decide (negb (String.eqb d ""))) as [Hd | Hd].
  - change (join_with "/" [d; nm]) with (d ++ String slash nm)%string.
    apply (filepath_Base_Clean _ (clean_elems (is_rooted d) [] (split_on slash d))).
    assert (d <> ""%string) as Hd' by (intros ->; exact Hd).
    rewrite is_rooted_app, split_on_app, (split_on_slash_free nm Hs) by exact Hd'.
    apply clean_elems_snoc, Hp.
  - cbn [join_with]. apply (filepath_Base_Clean _ []).
    rewrite (is_rooted_slash_free nm Hs), (split_on_slash_free nm Hs).
    apply (clean_elems_snoc false [] [] nm Hp).
Qed.

Section FlatProps.
Context `{MR : MathRand}.
Implicit Types (w : World MR) (c : Config).

(** The records found in an images directory without subdirectory. *)
Lemma image_label_pairs_flat c w entries :
  let imagesDir := filepath_Join [SourceDir c; "images"] in
  let labelsDir := filepath_Join [SourceDir c; "labels"] in
  os_Stat w imagesDir = Ok (Dir entries) ->
  map_Forall (fun _ n => is_dir n = false) entries ->
  image_label_pairs c w
  = inl (record_for imagesDir labelsDir
           <$> List.filter (matched w labelsDir) (walk_order entries imagesDir)).
Proof.
  intros imagesDir labelsDir Hdir Hflat.
  unfold image_label_pairs, filepath_Walk. fold imagesDir. fold labelsDir.
  rewrite Hdir, (walk_node_flat _ _ _ Hflat). cbn [fold_left visit_image].
  rewrite visit_images_files. reflexivity.
Qed.

(** X3. The records [GetImageLabelPairs] finds in an images directory
    without subdirectory whose entries have ASCII names: one for every
    entry whose extension, in lower case, is recognized and whose label
    path exists, in the order of the entry names (byte-wise), each entry
    once. *)
Theorem GetImageLabelPairs_flat c w entries :
  let imagesDir := filepath_Join [SourceDir c; "images"] in
  let labelsDir := filepath_Join [SourceDir c; "labels"] in
  os_Stat w imagesDir = Ok (Dir entries) ->
  map_Forall (fun nm n => is_dir n = false /\ is_ascii nm = true) entries ->
  exists names,
    image_label_pairs c w = inl (record_for imagesDir labelsDir <$> names) /\
    StronglySorted name_le names /\ NoDup names /\
    forall nm, nm ∈ names <-> is_Some (entries !! nm) /\ matched w labelsDir nm = true.
Proof.
  intros imagesDir labelsDir Hdir Hnames.
  assert (map_Forall (fun _ n => is_dir n = false) entries) as Hflat
    by (intros nm n Hn; exact (proj1 (Hnames nm n Hn))).
  exists (List.filter (matched w labelsDir) (walk_order entries imagesDir)).
  split; [apply image_label_pairs_flat; assumption |].
  split; [apply StronglySorted_filter, walk_order_sorted |].
  split.
  - apply NoDup_ListNoDup, List.NoDup_filter, NoDup_ListNoDup, walk_order_NoDup.
  - intros nm. rewrite list_elem_of_In, filter_In, <- list_elem_of_In, walk_order_elem.
    reflexivity.
Qed.

(** X4. When the entries of the images directory are files with
    proper names, the records of [GetImageLabelPairs] are pairwise
    distinct, the image path of each names the image file itself, and
    its label path exists. *)
Theorem GetImageLabelPairs_records_distinct c w entries records :
  let imagesDir := filepath_Join [SourceDir c; "images"] in
  os_Stat w imagesDir = Ok (Dir entries) ->
  map_Forall (fun nm n => is_dir n = false /\ plain nm = true /\ slash_free nm = true)
             entries ->
  image_label_pairs c w = inl records ->
  NoDup records /\
  forall lp, lp ∈ records ->
    (exists nm r data,
       entries !! nm = Some (File r data) /\
       os_Stat w (ImagePath lp) = Ok (File r data) /\
       filepath_Base (ImagePath lp) = nm) /\
    (exists n, os_Stat w (LabelPath lp) = Ok n).
Proof.
  intros imagesDir Hdir Hwf.
  rewrite (image_label_pairs_flat c w entries Hdir)
    by (intros nm n Hn; apply (Hwf nm n Hn)).
  fold imagesDir. set (labelsDir := filepath_Join [SourceDir c; "labels"]).
  intros [= <-].
  assert (forall nm, nm ∈ List.filter (matched w labelsDir) (walk_order entries imagesDir) ->
            exists r data, entries !! nm = Some (File r data)
                           /\ plain nm = true /\ slash_free nm = true
                           /\ matched w labelsDir nm = true) as Hnames.
  { intros nm Hin. apply list_elem_of_In, filter_In in Hin as [Hin Hm].
    apply list_elem_of_In, walk_order_elem in Hin as [n Hn].
    destruct (Hwf nm n Hn) as (Hfile & Hp & Hs).
    destruct n as [r data | es]; [| discriminate]. eauto 6. }
  assert (forall nm, plain nm = true -> slash_free nm = true ->
            resolve (w_cwd w) (filepath_Join [imagesDir; nm])
            = resolve (w_cwd w) imagesDir ++ [nm]) as Hres.
  { intros nm Hp Hs. apply resolve_Join_plain; repeat constructor; assumption. }
  split.
  - apply NoDup_fmap_2_strong.
    + intros nm1 nm2 H1 H2 Heq.
      destruct (Hnames _ H1) as (_ & _ & _ & Hp1 & Hs1 & _).
      destruct (Hnames _ H2) as (_ & _ & _ & Hp2 & Hs2 & _).
      apply (f_equal ImagePath) in Heq. cbn [record_for ImagePath] in Heq.
      apply (f_equal (resolve (w_cwd w))) in Heq.
      rewrite !Hres in Heq by assumption.
      apply app_inv_head in Heq. congruence.
    + apply NoDup_ListNoDup, List.NoDup_filter, NoDup_ListNoDup, walk_order_NoDup.
  - intros lp Hlp. apply list_elem_of_fmap in Hlp as (nm & -> & Hin).
    destruct (Hnames _ Hin) as (r & data & Hnm & Hp & Hs & Hm).
    cbn [record_for ImagePath LabelPath]. split.
    + exists nm, r, data. split; [exact Hnm |]. split.
      * unfold os_Stat in *. rewrite Hres, fs_lookup_app, Hdir by assumption.
        cbn [fs_lookup]. rewrite Hnm. reflexivity.
      * apply filepath_Base_Join; assumption.
    + unfold matched in Hm. apply andb_true_iff in Hm as [_ Hm].
      destruct (os_Stat w (label_path_for labelsDir nm)) as [n |]; [eauto | discriminate].
Qed.

(** X5. When the images path names a regular file, not a directory,
    [GetImageLabelPairs] returns no record and no error. *)
Theorem GetImageLabelPairs_images_not_directory c w r data :
  os_Stat w (filepath_Join [SourceDir c; "images"]) = Ok (File r data) ->
  image_label_pairs c w = inl [].
Proof.
  intros Hfile. unfold image_label_pairs, filepath_Walk. rewrite Hfile.
  cbn [walk_node fold_left]. rewrite visit_image_file.
  rewrite filepath_Base_Join by reflexivity.
  unfold matched. change (recognized "images") with false. reflexivity.
Qed.

End FlatProps.


(* ================================================================= *)
(** ** A source or an output path of the wrong kind *)

Lemma fs_alter_below_missing f P x : forall fs e,
  fs_lookup fs P = Err e -> fs_alter f fs (P ++ [x]) = Err e.
Proof.
  induction P as [| c P IH]; intros fs e; [discriminate |].
  destruct fs as [r d | es]; [trivial |].
  cbn [app]. rewrite fs_alter_cons. cbn [fs_lookup].
  destruct (es !! c) as [ch |].
  - intros H. rewrite (IH _ _ H). reflexivity.
  - intros [= <-]. destruct P; reflexivity.
Qed.

Section Source.
Context `{MR : MathRand} `{SC : Strconv} `{YE : Yaml}.
Implicit Types (w : World MR) (c : Config).

Lemma os_Stat_Join w d nm :
  plain nm = true -> slash_free nm = true ->
  os_Stat w (filepath_Join [d; nm])
  = match os_Stat w d with
    | Ok n => fs_lookup n [nm]
    | Err e => Err e
    end.
Proof.
  intros Hp Hs. unfold os_Stat.
  rewrite resolve_Join_plain by (repeat constructor; assumption).
  apply fs_lookup_app.
Qed.

(** X1. [ValidateSourceStructure] reports what is absent and nothing
    else.  When the source path names a regular file, it returns nil, and
    [Convert] fails in [LoadClasses] with "failed to open classes.txt"
    (not a directory), leaving the world as it was.  When the source path
    names nothing, it returns "required directory not found" with the
    images path. *)
Theorem ValidateSourceStructure_source_path c w :
  ((exists r data, os_Stat w (SourceDir c) = Ok (File r data)) ->
   ValidateSourceStructure c w = None /\
   Convert c w = (Done (Some (ErrOpenClasses ENOTDIR)), w)) /\
  (os_Stat w (SourceDir c) = Err ENOENT ->
   ValidateSourceStructure c w
   = Some (ErrRequiredDir (filepath_Join [SourceDir c; "images"]))).
Proof.
  split.
  - intros (r & data & Hsrc).
    assert (forall nm, plain nm = true -> slash_free nm = true ->
              os_Stat w (filepath_Join [SourceDir c; nm]) = Err ENOTDIR) as Hbelow.
    { intros nm Hp Hs. rewrite os_Stat_Join, Hsrc by assumption. reflexivity. }
    assert (ValidateSourceStructure c w = None) as Hv.
    { unfold ValidateSourceStructure. cbn [List.find].
      rewrite !Hbelow by reflexivity. reflexivity. }
    split; [exact Hv |].
    rewrite Convert_phases, Hv. unfold LoadClasses, os_Open.
    rewrite Hbelow by reflexivity. reflexivity.
  - intros Hsrc. unfold ValidateSourceStructure. cbn [List.find].
    rewrite os_Stat_Join, Hsrc by reflexivity. reflexivity.
Qed.

(** X12. [CreateYAMLConfig] does not create the output directory: when
    the output path names nothing, it fails with "failed to create YAML
    file" and leaves the world as it was. *)
Theorem CreateYAMLConfig_needs_directory c classes w :
  os_Stat w (OutputDir c) = Err ENOENT ->
  CreateYAMLConfig c classes w = (Done (Some (ErrCreateYAML ENOENT)), w).
Proof.
  intros Hout. rewrite CreateYAMLConfig_run. cbv zeta.
  rewrite (resolve_Join_plain (w_cwd w) (OutputDir c) ["data.yaml"%string])
    by (repeat constructor).
  rewrite (fs_alter_below_missing _ _ _ _ _ Hout). reflexivity.
Qed.

End Source.


(* ================================================================= *)
(** ** [strings.TrimSpace] and the names of [LoadClasses] *)

Ltac runes_cases :=
  repeat match goal with
         | |- context [if ?c then _ else _] => destruct c eqn:?
         | |- context [match ?t with EmptyString => _ | String _ _ => _ end] =>
           is_var t; destruct t
         end.

(** What follows the first rune is decoded on its own. *)
Lemma runes_cons_inv s rb rest :
  runes s = rb :: rest -> exists s', s = (snd rb ++ s')%string /\ rest = runes s'.
Proof.
  destruct s as [| b0 t1]; [discriminate |].
  cbn [runes]. cbv zeta.
  runes_cases; intros [= <- <-]; eexists; (split; [reflexivity | reflexivity]).
Qed.

Lemma rune_bytes_cons rb rs : rune_bytes (rb :: rs) = (snd rb ++ rune_bytes rs)%string.
Proof. reflexivity. Qed.

Lemma rune_bytes_app rs1 rs2 :
  rune_bytes (rs1 ++ rs2) = (rune_bytes rs1 ++ rune_bytes rs2)%string.
Proof.
  induction rs1 as [| rb rs1 IH]; [reflexivity |].
  cbn [app]. rewrite !rune_bytes_cons, IH.
  generalize (snd rb) as x. intros x. induction x as [| ch x IHx]; [reflexivity |].
  rewrite !append_String, IHx. reflexivity.
Qed.

Lemma string_length_app (a b : string) :
  String.length (a ++ b) = (String.length a + String.length b)%nat.
Proof.
  induction a as [| ch a IH]; [reflexivity |].
  rewrite append_String. change (String.length (String ch ?x)) with (S (String.length x)).
  rewrite IH. reflexivity.
Qed.

(** Decoding loses no byte. *)
Lemma rune_bytes_runes_le n : forall s, (String.length s <= n)%nat -> rune_bytes (runes s) = s.
Proof.
  induction n as [| n IH]; intros s Hn.
  - destruct s; [reflexivity | cbn in Hn; lia].
  - destruct (runes s) as [| rb rest] eqn:Hr.
    + destruct s as [| b0 t1]; [reflexivity |]. exfalso. revert Hr.
      cbn [runes]. cbv zeta. runes_cases; discriminate.
    + destruct (runes_cons_inv _ _ _ Hr) as (s' & -> & ->).
      rewrite rune_bytes_cons. f_equal. apply IH.
      assert (snd rb <> ""%string) as Hne.
      { intros He. rewrite He, append_empty_l in Hr.
        apply (f_equal (@length _)) in Hr. cbn [length] in Hr. lia. }
      rewrite string_length_app in Hn.
      destruct (snd rb) as [| ch x]; [congruence |].
      change (String.length (String ch x)) with (S (String.length x)) in Hn. lia.
Qed.

Lemma rune_bytes_runes s : rune_bytes (runes s) = s.
Proof. apply (rune_bytes_runes_le (String.length s)). lia. Qed.

(** One step of [runes]. *)
Lemma runes_unfold b0 t1 :
  runes (String b0 t1) =
    let bad := (RuneError, String b0 EmptyString) :: runes t1 in
    if is_ascii_byte b0 then (byte_val b0, String b0 EmptyString) :: runes t1
    else
      match t1 with
      | EmptyString => bad
      | String b1 t2 =>
        if in_range 194 223 b0 && is_cont b1 then
          ((byte_val b0 - 192) * 64 + low6 b1,
           String b0 (String b1 EmptyString)) :: runes t2
        else
          match t2 with
          | EmptyString => bad
          | String b2 t3 =>
            if second_ok3 b0 b1 && is_cont b2 then
              ((byte_val b0 - 224) * 4096 + low6 b1 * 64 + low6 b2,
               String b0 (String b1 (String b2 EmptyString))) :: runes t3
            else
              match t3 with
              | EmptyString => bad
              | String b3 t4 =>
                if second_ok4 b0 b1 && is_cont b2 && is_cont b3 then
                  ((byte_val b0 - 240) * 262144 + low6 b1 * 4096
                     + low6 b2 * 64 + low6 b3,
                   String b0 (String b1 (String b2 (String b3 EmptyString))))
                    :: runes t4
                else bad
              end
          end
      end.
Proof. reflexivity. Qed.

Ltac use_conditions :=
  repeat (cbv beta iota zeta;
          match goal with
          | H : ?c = _ |- context [if ?c then _ else _] => rewrite H
          end);
  cbv beta iota zeta.

(** The first rune of a string is the same when what follows it is cut
    short. *)
Lemma runes_first_stable s rb rest :
  runes s = rb :: rest ->
  forall s' p q, s = (snd rb ++ s')%string -> s' = (p ++ q)%string ->
    runes (snd rb ++ p) = rb :: runes p.
Proof.
  destruct s as [| b0 t1]; [discriminate |].
  rewrite runes_unfold. cbv zeta.
  runes_cases; intros [= <- <-] s' p q Heq ->; cbn [snd] in *;
    rewrite ?append_String, ?append_empty_l in *;
    first
      [ solve [rewrite runes_unfold; use_conditions; reflexivity]
      | destruct p as [| c1 p]; rewrite ?append_String, ?append_empty_l in *;
        simplify_eq;
        first
          [ solve [rewrite runes_unfold; use_conditions; reflexivity]
          | destruct p as [| c2 p]; rewrite ?append_String, ?append_empty_l in *;
            simplify_eq;
            first
              [ solve [rewrite runes_unfold; use_conditions; reflexivity]
              | destruct p as [| c3 p]; rewrite ?append_String, ?append_empty_l in *;
                simplify_eq;
                solve [rewrite runes_unfold; use_conditions; reflexivity] ] ] ].
Qed.

(** The runes decoded from the start of a string decode to themselves. *)
Lemma runes_prefix m : forall s post,
  runes s = m ++ post -> runes (rune_bytes m) = m.
Proof.
  induction m as [| rb m IH]; intros s post H; [reflexivity |].
  cbn [app] in H. destruct (runes_cons_inv _ _ _ H) as (s' & Hs & Hrest).
  rewrite rune_bytes_cons.
  rewrite (runes_first_stable s rb (m ++ post) H s' (rune_bytes m) (rune_bytes post) Hs).
  - f_equal. apply (IH s' post). symmetry. exact Hrest.
  - rewrite <- rune_bytes_app, Hrest. symmetry. apply rune_bytes_runes.
Qed.

Lemma runes_suffix pre : forall s tail,
  runes s = pre ++ tail -> exists s', runes s' = tail.
Proof.
  induction pre as [| rb pre IH]; intros s tail H; [eauto |].
  cbn [app] in H. destruct (runes_cons_inv _ _ _ H) as (s' & _ & Hrest).
  apply (IH s'). symmetry. exact Hrest.
Qed.

Lemma drop_while_suffix {A} (p : A -> bool) l : exists pre, l = pre ++ drop_while p l.
Proof.
  induction l as [| x l [pre IH]]; [exists []; reflexivity |].
  cbn [drop_while]. destruct (p x); [| exists []; reflexivity].
  exists (x :: pre). cbn [app]. f_equal. exact IH.
Qed.

Lemma drop_while_head {A} (p : A -> bool) l x l' :
  drop_while p l = x :: l' -> p x = false.
Proof.
  induction l as [| y l IH]; [discriminate |].
  cbn [drop_while]. destruct (p y) eqn:Hy; [exact IH |].
  intros [= -> _]. exact Hy.
Qed.

Lemma drop_while_fixed {A} (p : A -> bool) x l : p x = false -> drop_while p (x :: l) = x :: l.
Proof. intros H. cbn [drop_while]. rewrite H. reflexivity. Qed.

Lemma drop_while_again {A} (p : A -> bool) l : drop_while p (drop_while p l) = drop_while p l.
Proof.
  destruct (drop_while p l) as [| x l'] eqn:H; [reflexivity |].
  apply drop_while_fixed. eapply drop_while_head, H.
Qed.

(** [strings.TrimSpace] leaves nothing to trim. *)
Lemma strings_TrimSpace_again s :
  strings_TrimSpace (strings_TrimSpace s) = strings_TrimSpace s.
Proof.
  unfold strings_TrimSpace at 2 3.
  set (l1 := drop_while rune_is_space (runes s)).
  set (l2 := drop_while rune_is_space (rev l1)).
  destruct (drop_while_suffix rune_is_space (runes s)) as [pre Hpre]. fold l1 in Hpre.
  destruct (drop_while_suffix rune_is_space (rev l1)) as [pre2 Hpre2]. fold l2 in Hpre2.
  assert (l1 = rev l2 ++ rev pre2) as Hl1.
  { rewrite <- rev_app_distr, <- Hpre2, rev_involutive. reflexivity. }
  assert (runes (rune_bytes (rev l2)) = rev l2) as Hdec.
  { rewrite Hl1 in Hpre. destruct (runes_suffix _ _ _ Hpre) as [s1 Hs1].
    apply (runes_prefix _ _ _ Hs1). }
  unfold strings_TrimSpace. rewrite Hdec.
  assert (drop_while rune_is_space (rev l2) = rev l2) as ->.
  { destruct (rev l2) as [| x m] eqn:Hm; [reflexivity |].
    apply drop_while_fixed. cbn [app] in Hl1.
    eapply drop_while_head. unfold l1 in Hl1. exact Hl1. }
  rewrite rev_involutive. unfold l2 at 1. rewrite drop_while_again. reflexivity.
Qed.


Section Classes.
Context `{MR : MathRand}.
Implicit Types (w : World MR) (c : Config).

(** The loop of [LoadClasses] over the lines. *)
Lemma LoadClasses_loop lines : forall classes,
  fold_left (fun classes text =>
               let line := strings_TrimSpace text in
               if negb (String.eqb line "") then classes ++ [line] else classes)
            lines classes
  = classes ++ List.filter (fun line => negb (String.eqb line ""))
                           (strings_TrimSpace <$> lines).
Proof.
  induction lines as [| text lines IH]; intros classes.
  - cbn. rewrite app_nil_r. reflexivity.
  - cbn [fold_left fmap list_fmap List.filter]. cbv zeta. rewrite IH.
    change (list_fmap _ _ ?f ?l) with (f <$> l).
    destruct (negb (String.eqb (strings_TrimSpace text) "")); [| reflexivity].
    rewrite <- app_assoc. reflexivity.
Qed.

(** X2. The class names [LoadClasses] returns are the lines of
    classes.txt that are not blank, trimmed, in the order of the file:
    no name is empty, and none has white space around it (trimming it
    again changes nothing).  It returns them only when classes.txt is a
    readable file that was scanned to its end. *)
Theorem LoadClasses_names c w classes :
  LoadClasses c w = inl classes ->
  exists data lines,
    os_Stat w (filepath_Join [SourceDir c; "classes.txt"]) = Ok (File true data) /\
    scan_lines (OpenedFile data) = (lines, false) /\
    classes = List.filter (fun line => negb (String.eqb line ""))
                          (strings_TrimSpace <$> lines) /\
    Forall (fun name => name <> ""%string /\ strings_TrimSpace name = name) classes.
Proof.
  unfold LoadClasses, os_Open.
  destruct (os_Stat w _) as [[[|] data | es] | e]; cbn [open_node]; try discriminate.
  destruct (scan_lines (OpenedFile data)) as [lines scan_err] eqn:Hscan.
  destruct scan_err; [discriminate |].
  rewrite LoadClasses_loop. cbn [app]. intros [= <-].
  exists data, lines. split; [reflexivity |]. split; [exact Hscan |].
  split; [reflexivity |].
  apply Forall_forall. intros name Hin.
  apply list_elem_of_In, filter_In in Hin as [Hin Hne].
  apply list_elem_of_In, list_elem_of_fmap in Hin as (text & -> & _).
  split.
  + intros He. rewrite He in Hne. discriminate.
  + apply strings_TrimSpace_again.
Qed.

End Classes.


(* ================================================================= *)
(** ** [Convert] run again

    The second run starts in the world the first run left.  What the
    first run wrote lies below the output directory; when that is apart
    from the images and the labels directory of the export, the second
    run reads what the first read, finds every directory and every copy
    in place, and writes [data.yaml] again. *)

Lemma apart_below O P p q :
  apart O P -> O `prefix_of` p -> P `prefix_of` q -> apart p q.
Proof.
  intros [H1 H2] HOp HPq. split; intros H.
  - destruct (prefix_weak_total O P q) as [? | ?];
      [etransitivity; eassumption | assumption | tauto | tauto].
  - destruct (prefix_weak_total O P p) as [? | ?];
      [assumption | etransitivity; eassumption | tauto | tauto].
Qed.

Lemma apart_differ O P x y : apart O P -> O ++ x <> P ++ y.
Proof.
  intros [H1 H2] E.
  destruct (prefix_weak_total O P (O ++ x)) as [? | ?]; try tauto.
  - apply prefix_app_r. reflexivity.
  - rewrite E. apply prefix_app_r. reflexivity.
Qed.

(** What lies apart from the place [fs_mkdir_all] or [fs_alter] works at
    is the same node afterwards, directories included. *)
Lemma fs_mkdir_all_apart p : forall n n' q,
  fs_mkdir_all n p = Ok n' -> apart p q -> fs_lookup n' q = fs_lookup n q.
Proof.
  induction p as [| c p IH]; intros n n' q H [Hpq Hqp].
  - destruct Hpq. apply prefix_nil.
  - destruct q as [| d q]; [destruct Hqp; apply prefix_nil |].
    destruct n as [r dt | es]; [discriminate |].
    cbn [fs_mkdir_all] in H.
    destruct (fs_mkdir_all (default (Dir ∅) (es !! c)) p) as [x |] eqn:Hx; [| discriminate].
    injection H as <-. cbn [fs_lookup].
    destruct (decide (d = c)) as [-> | Hd].
    + rewrite lookup_insert_eq.
      assert (apart p q) as Hap.
      { split; intros Hp; [apply Hpq | apply Hqp]; apply prefix_cons; exact Hp. }
      rewrite (IH _ _ _ Hx Hap).
      destruct (es !! c) as [ch |]; [reflexivity |]. cbn [default].
      destruct q as [| e q]; [destruct (proj2 Hap); apply prefix_nil |].
      cbn [fs_lookup]. rewrite lookup_empty. reflexivity.
    + rewrite lookup_insert_ne by congruence. reflexivity.
Qed.

Lemma fs_alter_apart f p : forall n n' q,
  fs_alter f n p = Ok n' -> apart p q -> fs_lookup n' q = fs_lookup n q.
Proof.
  induction p as [| c p IH]; intros n n' q H [Hpq Hqp].
  - destruct Hpq. apply prefix_nil.
  - destruct q as [| d q]; [destruct Hqp; apply prefix_nil |].
    destruct n as [r dt | es]; [discriminate |].
    rewrite fs_alter_cons in H. cbn [fs_lookup].
    destruct (decide (d = c)) as [-> | Hd].
    + assert (apart p q) as Hap.
      { split; intros Hp; [apply Hpq | apply Hqp]; apply prefix_cons; exact Hp. }
      destruct (es !! c) as [ch |] eqn:Hc.
      * destruct (fs_alter f ch p) as [x |] eqn:Hx; [| discriminate].
        injection H as <-. cbn [fs_lookup]. rewrite lookup_insert_eq.
        apply (IH _ _ _ Hx Hap).
      * destruct p as [| e p]; [destruct (proj1 Hap); apply prefix_nil | discriminate].
    + destruct (es !! c) as [ch |] eqn:Hc.
      * destruct (fs_alter f ch p) as [x |]; [| discriminate].
        injection H as <-. cbn [fs_lookup]. rewrite lookup_insert_ne by congruence.
        reflexivity.
      * destruct p as [| e p]; [| discriminate].
        destruct (f None) as [x |]; [| discriminate].
        injection H as <-. cbn [fs_lookup]. rewrite lookup_insert_ne by congruence.
        reflexivity.
Qed.

(** Two changes at the same place, as one. *)
Lemma fs_alter_alter f g p : forall fs fs0,
  fs_alter f fs p = Ok fs0 ->
  fs_alter g fs0 p
  = fs_alter (fun o => match f o with Ok n => g (Some n) | Err e => Err e end) fs p.
Proof.
  set (h := fun o => match f o with Ok n => g (Some n) | Err e => Err e end).
  induction p as [| c p IH]; intros fs fs0 H.
  - cbn in *. unfold h. rewrite H. reflexivity.
  - destruct fs as [r dt | es]; [discriminate |].
    rewrite fs_alter_cons in H. rewrite (fs_alter_cons h es).
    destruct (es !! c) as [ch |] eqn:Hc.
    + destruct (fs_alter f ch p) as [x |] eqn:Hx; [| discriminate].
      injection H as <-. rewrite fs_alter_cons, lookup_insert_eq.
      rewrite (IH _ _ Hx).
      destruct (fs_alter h ch p) as [y |]; [| reflexivity].
      rewrite insert_insert_eq. reflexivity.
    + destruct p as [| e p]; [| discriminate].
      destruct (f None) as [x |] eqn:Hx; [| discriminate].
      injection H as <-. rewrite fs_alter_cons, lookup_insert_eq. cbn [fs_alter].
      unfold h. rewrite Hx.
      destruct (g (Some x)) as [y |]; [| reflexivity].
      rewrite insert_insert_eq. reflexivity.
Qed.

(** A change that puts back what is there. *)
Lemma fs_alter_same f p : forall fs n,
  fs_lookup fs p = Ok n -> f (Some n) = Ok n -> fs_alter f fs p = Ok fs.
Proof.
  induction p as [| c p IH]; intros fs n Hl Hf.
  - cbn in *. injection Hl as ->. exact Hf.
  - destruct fs as [r dt | es]; [discriminate |].
    rewrite fs_alter_cons. cbn [fs_lookup] in Hl.
    destruct (es !! c) as [ch |] eqn:Hc; [| discriminate].
    rewrite (IH _ _ Hl Hf), insert_id by exact Hc. reflexivity.
Qed.

Lemma fs_alter_ext f g p : (forall o, f o = g o) -> forall fs,
  fs_alter f fs p = fs_alter g fs p.
Proof.
  intros H. induction p as [| c p IH]; intros fs.
  - cbn. apply H.
  - destruct fs as [r dt | es]; [reflexivity |]. rewrite !fs_alter_cons.
    destruct (es !! c) as [ch |]; [rewrite IH; reflexivity |].
    destruct p; [rewrite H |]; reflexivity.
Qed.


Section Again.
Context `{MR : MathRand} `{SC : Strconv} `{YE : Yaml}.
Implicit Types (w : World MR) (c : Config).

(** [copyFile] to a destination that already holds the contents of the
    source changes nothing. *)
Lemma copyFile_noop src dst w data :
  resolve (w_cwd w) src <> resolve (w_cwd w) dst ->
  os_Stat w src = Ok (File true data) ->
  os_Stat w dst = Ok (File true data) ->
  copyFile src dst w = (Done None, w).
Proof.
  intros Hne HS HD. rewrite copyFile_run. cbv zeta. unfold os_Open. rewrite HS.
  cbn [open_node]. unfold os_Stat in HS, HD.
  destruct (fs_alter_at create_node _ _ _ (File true "") HD eq_refl) as (fs0 & Hc & H0).
  rewrite Hc.
  assert (fs_lookup fs0 (resolve (w_cwd w) src) = Ok (File true data)) as ->.
  { apply file_data_is_file.
    rewrite (fs_alter_file_data _ _ writes_file_create _ _ _ Hc Hne).
    apply file_data_is_file. exact HS. }
  rewrite (fs_alter_alter _ _ _ _ _ Hc).
  rewrite (fs_alter_same _ _ _ (File true data) HD) by reflexivity.
  rewrite set_fs_same. reflexivity.
Qed.

Lemma copy_each_noop ops w :
  (forall s d, (s, d) ∈ ops ->
     resolve (w_cwd w) s <> resolve (w_cwd w) d /\
     exists data, os_Stat w s = Ok (File true data) /\
                  os_Stat w d = Ok (File true data)) ->
  copy_each ops w = (Done None, w).
Proof.
  induction ops as [| [s d] ops IH]; intros H; [reflexivity |].
  cbn [copy_each]. unfold bind.
  destruct (H s d) as (Hne & data & HS & HD); [left |].
  rewrite (copyFile_noop _ _ _ _ Hne HS HD).
  apply IH. intros s' d' Hin. apply H. right. exact Hin.
Qed.

(** The node-level frame of the writing phases, when they succeed. *)
Lemma copyFile_apart src dst w w' q :
  copyFile src dst w = (Done None, w') ->
  apart (resolve (w_cwd w) dst) q ->
  fs_lookup (w_fs w') q = fs_lookup (w_fs w) q.
Proof.
  rewrite copyFile_run. cbv zeta.
  destruct (os_Open w src); [| discriminate].
  destruct (fs_alter create_node _ _) as [fs0 |] eqn:Hc; [| discriminate].
  destruct (fs_lookup fs0 _) as [[r data | es] |]; try discriminate.
  destruct (fs_alter (append_node data) fs0 _) as [fs1 |] eqn:Ha; [| discriminate].
  intros [= <-] Hq. cbn [w_fs set_fs].
  rewrite (fs_alter_apart _ _ _ _ _ Ha Hq). apply (fs_alter_apart _ _ _ _ _ Hc Hq).
Qed.

Lemma copy_each_apart q ops : forall w w',
  copy_each ops w = (Done None, w') ->
  (forall s d, (s, d) ∈ ops -> apart (resolve (w_cwd w) d) q) ->
  fs_lookup (w_fs w') q = fs_lookup (w_fs w) q.
Proof.
  induction ops as [| [s d] ops IH]; intros w w'.
  - intros [= <-] _. reflexivity.
  - cbn [copy_each]. unfold bind.
    destruct (copyFile_any s d w) as (r & fs' & E & _). rewrite E.
    destruct r as [e |]; [discriminate |].
    intros Hrest Hq.
    rewrite (IH _ _ Hrest) by (intros s' d' Hin; apply (Hq s' d'); right; exact Hin).
    apply (copyFile_apart _ _ _ _ _ E). apply (Hq s d). left.
Qed.

Lemma create_dirs_apart q dirs : forall w w',
  create_dirs dirs w = (Done None, w') ->
  (forall dir, dir ∈ dirs -> apart (resolve (w_cwd w) dir) q) ->
  fs_lookup (w_fs w') q = fs_lookup (w_fs w) q.
Proof.
  induction dirs as [| dir dirs IH]; intros w w'.
  - intros [= <-] _. reflexivity.
  - cbn [create_dirs]. unfold bind. rewrite os_MkdirAll_run.
    destruct (fs_mkdir_all _ _) as [fs' |] eqn:Hm; [| discriminate].
    intros Hrest Hq.
    rewrite (IH _ _ Hrest) by (intros d' Hin; apply Hq; right; exact Hin).
    cbn [w_fs set_fs]. apply (fs_mkdir_all_apart _ _ _ _ Hm). apply Hq. left.
Qed.

Lemma CreateYAMLConfig_apart c classes w w' q :
  CreateYAMLConfig c classes w = (Done None, w') ->
  apart (resolve (w_cwd w) (filepath_Join [OutputDir c; "data.yaml"])) q ->
  fs_lookup (w_fs w') q = fs_lookup (w_fs w) q.
Proof.
  rewrite CreateYAMLConfig_run. cbv zeta.
  destruct (fs_alter create_node _ _) as [fs0 |] eqn:H0; [| discriminate].
  destruct (fs_alter _ fs0 _) as [fs1 |] eqn:H1; [| discriminate].
  destruct (fs_alter _ fs1 _) as [fs2 |] eqn:H2; [| discriminate].
  intros [= <-] Hq. cbn [w_fs set_fs].
  rewrite (fs_alter_apart _ _ _ _ _ H2 Hq), (fs_alter_apart _ _ _ _ _ H1 Hq).
  apply (fs_alter_apart _ _ _ _ _ H0 Hq).
Qed.

(** [CreateYAMLConfig] where [data.yaml] is: the tree with [data.yaml]
    emptied is the same afterwards, and the whole tree is when the file
    is written as it was. *)
Lemma CreateYAMLConfig_over c classes w w' old :
  os_Stat w (filepath_Join [OutputDir c; "data.yaml"]) = Ok (File true old) ->
  CreateYAMLConfig c classes w = (Done None, w') ->
  without_config c w' = without_config c w /\
  (os_Stat w' (filepath_Join [OutputDir c; "data.yaml"]) = Ok (File true old) -> w' = w).
Proof.
  intros Hold Hrun.
  destruct (CreateYAMLConfig_ok _ _ _ _ Hrun) as (fs' & -> & Hnew & _).
  cbv zeta in Hnew. revert Hrun. rewrite CreateYAMLConfig_run. cbv zeta.
  set (p := resolve (w_cwd w) (filepath_Join [OutputDir c; "data.yaml"])) in *.
  set (config := {| Path := filepath_Abs (w_cwd w) (OutputDir c) |}) in *.
  unfold os_Stat in *. cbn [w_fs w_cwd set_fs]. fold p in Hold |- *.
  destruct (fs_alter create_node (w_fs w) p) as [fs0 |] eqn:H0; [| discriminate].
  destruct (fs_alter _ fs0 p) as [fs1 |] eqn:H1; [| discriminate].
  destruct (fs_alter _ fs1 p) as [fs2 |] eqn:H2; [| discriminate].
  intros [= E]. subst fs2.
  rewrite (fs_alter_alter _ _ _ _ _ H1) in H2.
  rewrite (fs_alter_alter _ _ _ _ _ H0) in H2.
  split.
  - unfold without_config. cbn [w_fs w_cwd set_fs]. fold p.
    rewrite (fs_alter_alter _ _ _ _ _ H2). apply fs_alter_ext.
    intros [[[|] d | es] |]; reflexivity.
  - intros Hsame. rewrite Hnew in Hsame. injection Hsame as Hsame.
    rewrite (fs_alter_same _ _ _ _ Hold) in H2.
    + injection H2 as <-. apply set_fs_same.
    + cbn. rewrite <- Hsame. reflexivity.
Qed.

End Again.


Lemma slash_free_app (a b : string) :
  slash_free (a ++ b) = slash_free a && slash_free b.
Proof.
  induction a as [| ch a IH]; [reflexivity |].
  rewrite append_String. cbn [slash_free]. rewrite IH, andb_assoc. reflexivity.
Qed.

Lemma slash_free_substring s : forall n m,
  slash_free s = true -> slash_free (substring n m s) = true.
Proof.
  induction s as [| ch s IH]; intros n m H.
  - destruct n, m; reflexivity.
  - cbn [slash_free] in H. apply andb_true_iff in H as [Hc Hs].
    destruct n as [| n]; cbn [substring].
    + destruct m as [| m]; [reflexivity |]. cbn [slash_free]. rewrite Hc. apply IH, Hs.
    + apply IH, Hs.
Qed.

Lemma slash_free_TrimSuffix s suffix :
  slash_free s = true -> slash_free (strings_TrimSuffix s suffix) = true.
Proof.
  intros H. unfold strings_TrimSuffix.
  destruct (strings_HasSuffix s suffix); [apply slash_free_substring |]; exact H.
Qed.

(** The name of the label file derived for an image name is a proper
    file name. *)
Lemma label_name_proper nm ext :
  slash_free nm = true ->
  plain (strings_TrimSuffix nm ext ++ ".txt") = true
  /\ slash_free (strings_TrimSuffix nm ext ++ ".txt") = true.
Proof.
  intros H. split.
  - apply plain_spec.
    repeat split; intros E; apply (f_equal String.length) in E;
      rewrite string_length_app in E; cbn in E; lia.
  - rewrite slash_free_app, slash_free_TrimSuffix by exact H. reflexivity.
Qed.

Lemma label_path_resolved cwd labelsDir nm :
  slash_free nm = true ->
  resolve cwd (label_path_for labelsDir nm)
  = resolve cwd labelsDir
    ++ [(strings_TrimSuffix nm (strings_ToLower (filepath_Ext nm)) ++ ".txt")%string].
Proof.
  intros H. unfold label_path_for.
  destruct (label_name_proper nm (strings_ToLower (filepath_Ext nm)) H) as [Hp Hs].
  apply resolve_Join_plain; repeat constructor; assumption.
Qed.

Lemma label_path_Base labelsDir nm :
  slash_free nm = true ->
  filepath_Base (label_path_for labelsDir nm)
  = (strings_TrimSuffix nm (strings_ToLower (filepath_Ext nm)) ++ ".txt")%string.
Proof.
  intros H. unfold label_path_for.
  destruct (label_name_proper nm (strings_ToLower (filepath_Ext nm)) H) as [Hp Hs].
  apply filepath_Base_Join; assumption.
Qed.

Lemma image_path_resolved cwd imagesDir nm :
  plain nm = true -> slash_free nm = true ->
  resolve cwd (filepath_Join [imagesDir; nm]) = resolve cwd imagesDir ++ [nm].
Proof. intros Hp Hs. apply resolve_Join_plain; repeat constructor; assumption. Qed.

(** Where the copies for a record of a flat images directory go. *)
Lemma destination_resolved cwd o a s x :
  plain a = true -> slash_free a = true -> plain s = true -> slash_free s = true ->
  plain x = true -> slash_free x = true ->
  resolve cwd (filepath_Join [filepath_Join [o; a; s]; x]) = resolve cwd o ++ [a; s; x].
Proof.
  intros. rewrite (resolve_Join_plain cwd _ [x]) by (repeat constructor; assumption).
  rewrite (resolve_Join_plain cwd o [a; s]) by (repeat constructor; assumption).
  rewrite <- app_assoc. reflexivity.
Qed.


Section Rerun.
Context `{MR : MathRand} `{SC : Strconv} `{YE : Yaml}.
Variables (c : Config) (w : World MR) (entries : gmap string node).

Let imagesDir := filepath_Join [SourceDir c; "images"].
Let labelsDir := filepath_Join [SourceDir c; "labels"].
Let cwd := w_cwd w.
Let O := resolve cwd (OutputDir c).
Let I := resolve cwd imagesDir.
Let Lb := resolve cwd labelsDir.

Hypothesis Hnames :
  map_Forall (fun nm n => is_dir n = false /\ plain nm = true /\ slash_free nm = true)
             entries.
Hypothesis HOI : apart O I.
Hypothesis HOL : apart O Lb.

Lemma entry_proper nm :
  is_Some (entries !! nm) -> plain nm = true /\ slash_free nm = true.
Proof. intros [n Hn]. exact (proj2 (Hnames nm n Hn)). Qed.

(** The copies for records of the images directory: from below the
    images or the labels directory to below the output directory. *)
Lemma copy_ops_shape sp L s d :
  plain sp = true -> slash_free sp = true ->
  Forall (listed entries imagesDir labelsDir) L ->
  (s, d) ∈ copy_ops (filepath_Join [OutputDir c; "images"; sp])
                    (filepath_Join [OutputDir c; "labels"; sp]) L ->
  exists nm,
    (s = filepath_Join [imagesDir; nm] /\ resolve cwd s = I ++ [nm]
     /\ resolve cwd d = O ++ ["images"; sp; nm]%string)
    \/ (s = label_path_for labelsDir nm /\ resolve cwd s = Lb ++ [label_name nm]
        /\ resolve cwd d = O ++ ["labels"; sp; label_name nm]%string).
Proof.
  intros Hp Hs HL Hin. unfold copy_ops in Hin.
  apply list_elem_of_In, in_flat_map in Hin as (lp & Hlp & Hin).
  rewrite Forall_forall in HL.
  destruct (HL lp (proj2 (list_elem_of_In _ _) Hlp)) as (nm & Hnm & ->).
  destruct (entry_proper nm Hnm) as [Hpn Hsn]. exists nm.
  destruct (label_name_proper nm (strings_ToLower (filepath_Ext nm)) Hsn) as [Hpl Hsl].
  cbn [record_for ImagePath LabelPath] in Hin.
  destruct Hin as [[= <- <-] | [[= <- <-] | []]].
  - left. split; [reflexivity |]. split; [apply image_path_resolved; assumption |].
    rewrite filepath_Base_Join by assumption.
    apply destination_resolved; try assumption; reflexivity.
  - right. split; [reflexivity |]. split; [apply label_path_resolved; assumption |].
    rewrite label_path_Base by assumption.
    apply destination_resolved; try assumption; reflexivity.
Qed.

(** One copy phase of the first run. *)
Lemma copy_phase sp L (wA wB : World MR) :
  plain sp = true -> slash_free sp = true ->
  Forall (listed entries imagesDir labelsDir) L ->
  w_cwd wA = cwd ->
  copy_pairs (filepath_Join [OutputDir c; "images"; sp])
             (filepath_Join [OutputDir c; "labels"; sp]) L wA = (Done None, wB) ->
  exists fsB,
    wB = set_fs fsB wA /\ persists (w_fs wA) fsB /\
    (forall s d,
       (s, d) ∈ copy_ops (filepath_Join [OutputDir c; "images"; sp])
                         (filepath_Join [OutputDir c; "labels"; sp]) L ->
       exists data,
         file_data (w_fs wA) (resolve cwd s) = Some (true, data) /\
         file_data fsB (resolve cwd d) = Some (true, data)) /\
    (forall q,
       (forall nm, q <> O ++ ["images"; sp; nm]%string
                   /\ q <> O ++ ["labels"; sp; label_name nm]%string) ->
       file_data fsB q = file_data (w_fs wA) q) /\
    (forall q, (forall p, O `prefix_of` p -> apart p q) ->
       fs_lookup fsB q = fs_lookup (w_fs wA) q).
Proof.
  intros Hp Hs HL Hcwd Hrun. apply copy_pairs_ok in Hrun.
  set (ops := copy_ops _ _ L) in *.
  assert (forall s d, (s, d) ∈ ops ->
            exists nm,
              (s = filepath_Join [imagesDir; nm] /\ resolve cwd s = I ++ [nm]
               /\ resolve cwd d = O ++ ["images"; sp; nm]%string)
              \/ (s = label_path_for labelsDir nm /\ resolve cwd s = Lb ++ [label_name nm]
                  /\ resolve cwd d = O ++ ["labels"; sp; label_name nm]%string)) as Hshape
    by (intros s d; apply copy_ops_shape; assumption).
  destruct (copy_each_ok ops wA wB) as (fsB & -> & Hdata & Hframe & Hpers);
    [| | exact Hrun |].
  - rewrite Hcwd. intros s d s' d' Hin Hin' E.
    destruct (Hshape _ _ Hin) as [nm [(_ & Hs1 & _) | (_ & Hs1 & _)]];
      destruct (Hshape _ _ Hin') as [nm' [(_ & _ & Hd1) | (_ & _ & Hd1)]];
      rewrite Hs1, Hd1 in E; symmetry in E;
      first [exact (apart_differ _ _ _ _ HOI E) | exact (apart_differ _ _ _ _ HOL E)].
  - rewrite Hcwd. intros s d s' d' Hin Hin' E.
    destruct (Hshape _ _ Hin) as [nm [(Es & Hs1 & Hd1) | (Es & Hs1 & Hd1)]];
      destruct (Hshape _ _ Hin') as [nm' [(Es' & Hs1' & Hd1') | (Es' & Hs1' & Hd1')]];
      rewrite Hd1, Hd1' in E; apply app_inv_head in E; try discriminate E;
      injection E as E; rewrite Hs1, Hs1', E; reflexivity.
  - exists fsB. split; [reflexivity |]. split; [exact Hpers |].
    rewrite Hcwd in Hdata, Hframe. split; [exact Hdata |]. split.
    + intros q Hq. apply Hframe. intros s d Hin.
      destruct (Hshape _ _ Hin) as [nm [(_ & _ & ->) | (_ & _ & ->)]]; apply Hq.
    + intros q Hq. change fsB with (w_fs (set_fs fsB wA)).
      apply (copy_each_apart q ops _ _ Hrun). intros s d Hin. rewrite Hcwd.
      apply Hq. destruct (Hshape _ _ Hin) as [nm [(_ & _ & ->) | (_ & _ & ->)]];
        apply prefix_app_r; reflexivity.
Qed.

Context {MRS : MathRandSpec}.
Hypothesis Himg : os_Stat w imagesDir = Ok (Dir entries).

Lemma dir_resolved a s :
  plain a = true -> slash_free a = true -> plain s = true -> slash_free s = true ->
  resolve cwd (filepath_Join [OutputDir c; a; s]) = O ++ [a; s].
Proof. intros. apply resolve_Join_plain; repeat constructor; assumption. Qed.

Lemma yaml_resolved :
  resolve cwd (filepath_Join [OutputDir c; "data.yaml"]) = O ++ ["data.yaml"]%string.
Proof. apply resolve_Join_plain; repeat constructor. Qed.

(** The world a successful run leaves. *)
Lemma Convert_first_run w1 :
  Convert c w = (Done None, w1) ->
  exists classes R,
    LoadClasses c w = inl classes /\ image_label_pairs c w = inl R /\
    Forall (listed entries imagesDir labelsDir) R /\
    w_cwd w1 = cwd /\ persists (w_fs w) (w_fs w1) /\
    (forall q, (forall p, O `prefix_of` p -> apart p q) ->
       fs_lookup (w_fs w1) q = fs_lookup (w_fs w) q) /\
    (forall q, ~ O `prefix_of` q -> file_data (w_fs w1) q = file_data (w_fs w) q) /\
    (forall dir,
       dir ∈ [filepath_Join [OutputDir c; "images"; "train"];
              filepath_Join [OutputDir c; "images"; "val"];
              filepath_Join [OutputDir c; "labels"; "train"];
              filepath_Join [OutputDir c; "labels"; "val"]] ->
       exists es, os_Stat w1 dir = Ok (Dir es)) /\
    (let k := Z.to_nat (trainCount (len R) (TrainSplit c)) in
     let sh := shuffled_list (Seed c) R in
     forall sp L, (sp, L) ∈ [("train"%string, take k sh); ("val"%string, drop k sh)] ->
     forall s d,
       (s, d) ∈ copy_ops (filepath_Join [OutputDir c; "images"; sp])
                         (filepath_Join [OutputDir c; "labels"; sp]) L ->
       resolve cwd s <> resolve cwd d /\
       exists data, os_Stat w1 s = Ok (File true data) /\ os_Stat w1 d = Ok (File true data)) /\
    os_Stat w1 (filepath_Join [OutputDir c; "data.yaml"])
    = Ok (File true
            (yaml_header (w_now w)
             ++ yaml_Encode {| Path := filepath_Abs cwd (OutputDir c);
                               Train := "images/train"; Val := "images/val";
                               NC := len classes; Names := classes |})).
Proof.
  intros Hrun.
  destruct (Convert_ok _ _ _ Hrun)
    as (classes & R & wa & fs1 & fs2 & fs3 & Hc & HR & _ & Hfs & Hcwd & Hnow
        & Hd & HT & HV & HY).
  cbv zeta in Hd, HT, HV, HY.
  exists classes, R. split; [exact Hc |]. split; [exact HR |].
  assert (Forall (listed entries imagesDir labelsDir) R) as HlR.
  { rewrite (image_label_pairs_flat c w entries Himg) in HR
      by (intros nm n Hn; exact (proj1 (Hnames nm n Hn))).
    injection HR as <-. apply Forall_fmap, Forall_forall. intros nm Hin.
    apply list_elem_of_In, filter_In in Hin as [Hin _].
    apply list_elem_of_In, walk_order_elem in Hin. exists nm. split; [exact Hin | reflexivity]. }
  split; [exact HlR |].
  set (k := Z.to_nat (trainCount (len R) (TrainSplit c))) in *.
  set (sh := shuffled_list (Seed c) R) in *.
  assert (Forall (listed entries imagesDir labelsDir) sh) as Hlsh.
  { apply Forall_forall. intros lp Hin. rewrite Forall_forall in HlR. apply HlR.
    unfold sh in Hin. rewrite shuffled_list_perm in Hin. exact Hin. }
  (* the four phases *)
  destruct (create_dirs_ok _ _ _ Hd) as (fs1' & E1 & Hdirs1 & Hfd1 & Hp1).
  apply (f_equal w_fs) in E1. cbn [w_fs set_fs] in E1. subst fs1'.
  pose proof (fun q => create_dirs_apart q _ _ _ Hd) as Hn1. cbn [w_fs set_fs] in Hn1.
  destruct (copy_phase "train" (take k sh) (set_fs fs1 wa) (set_fs fs2 wa) eq_refl eq_refl
              ltac:(apply Forall_take; exact Hlsh) Hcwd HT)
    as (fs2' & E2 & Hp2 & Hdata2 & Hfd2 & Hn2).
  apply (f_equal w_fs) in E2. cbn [w_fs set_fs] in E2. subst fs2'.
  cbn [w_fs set_fs] in Hp2, Hdata2, Hfd2, Hn2.
  destruct (copy_phase "val" (drop k sh) (set_fs fs2 wa) (set_fs fs3 wa) eq_refl eq_refl
              ltac:(apply Forall_drop; exact Hlsh) Hcwd HV)
    as (fs3' & E3 & Hp3 & Hdata3 & Hfd3 & Hn3).
  apply (f_equal w_fs) in E3. cbn [w_fs set_fs] in E3. subst fs3'.
  cbn [w_fs set_fs] in Hp3, Hdata3, Hfd3, Hn3.
  destruct (CreateYAMLConfig_ok _ _ _ _ HY) as (fs4 & -> & Hy4 & Hfd4 & Hp4).
  pose proof (fun q => CreateYAMLConfig_apart _ _ _ _ q HY) as Hn4.
  cbv zeta in Hy4. cbn [w_fs w_cwd w_now set_fs] in Hy4, Hfd4, Hp4, Hn4, Hdirs1, Hfd1, Hp1.
  change (w_cwd wa = cwd) in Hcwd.
  rewrite Hcwd in Hy4, Hfd4, Hn4, Hdirs1, Hn1. rewrite yaml_resolved in Hy4, Hfd4, Hn4.
  unfold os_Stat. cbn [w_fs w_cwd set_fs]. rewrite Hcwd.
  split; [reflexivity |].
  split.
  { rewrite <- Hfs. apply (persists_trans _ fs1); [exact Hp1 |].
    apply (persists_trans _ fs2); [exact Hp2 |].
    apply (persists_trans _ fs3); [exact Hp3 | exact Hp4]. }
  assert (forall q, (forall p, O `prefix_of` p -> apart p q) ->
            fs_lookup fs4 q = fs_lookup (w_fs w) q) as Hnode.
  { intros q Hq. rewrite Hn4 by (apply Hq, prefix_app_r; reflexivity).
    rewrite Hn3, Hn2 by exact Hq. rewrite <- Hfs. apply Hn1.
    intros dir Hdir. apply Hq.
    repeat (apply elem_of_cons in Hdir as [-> | Hdir]);
      [rewrite dir_resolved by reflexivity; apply prefix_app_r; reflexivity .. |].
    apply elem_of_nil in Hdir. destruct Hdir. }
  split; [exact Hnode |].
  assert (forall q, ~ O `prefix_of` q -> file_data fs4 q = file_data (w_fs w) q) as Hfile.
  { intros q Hq.
    assert (forall x, q <> O ++ x) as Hne
      by (intros x ->; apply Hq, prefix_app_r; reflexivity).
    rewrite Hfd4 by apply Hne. rewrite Hfd3 by (intros nm; split; apply Hne).
    rewrite Hfd2 by (intros nm; split; apply Hne). rewrite Hfd1, Hfs. reflexivity. }
  split; [exact Hfile |].
  split.
  { intros dir Hdir. destruct (Hdirs1 dir Hdir) as [es Hes].
    apply (persists_dir fs1 fs4 _ es); [| exact Hes].
    apply (persists_trans _ fs2); [exact Hp2 |].
    apply (persists_trans _ fs3); [exact Hp3 | exact Hp4]. }
  split; [| rewrite yaml_resolved, <- Hnow; exact Hy4].
  intros sp L HspL s d Hin.
  assert (forall P x, apart O P -> ~ O `prefix_of` P ++ x) as Hout.
  { intros P x HP. apply (apart_below O P O (P ++ x) HP); [reflexivity |].
    apply prefix_app_r. reflexivity. }
  assert (forall q, file_data fs1 q = file_data (w_fs w) q) as Hfd1'
    by (intros q; rewrite Hfd1, Hfs; reflexivity).
  repeat (apply elem_of_cons in HspL as [[= -> ->] | HspL]);
    [| | apply elem_of_nil in HspL; destruct HspL].
  - destruct (copy_ops_shape "train" (take k sh) s d eq_refl eq_refl
                ltac:(apply Forall_take; exact Hlsh) Hin)
      as [nm [(_ & Hs1 & Hd1) | (_ & Hs1 & Hd1)]];
      destruct (Hdata2 s d Hin) as (data & Hsd & Hdd);
      rewrite Hs1, Hd1 in *;
      (split;
       [intros E; symmetry in E;
        first [exact (apart_differ _ _ _ _ HOI E) | exact (apart_differ _ _ _ _ HOL E)] |]);
      exists data; split; apply file_data_is_file.
    + rewrite Hfile by (apply Hout, HOI). rewrite <- Hfd1'. exact Hsd.
    + rewrite Hfd4 by (intros E; apply app_inv_head in E; discriminate E).
      rewrite Hfd3
        by (intros nm'; split; intros E; apply app_inv_head in E; discriminate E).
      exact Hdd.
    + rewrite Hfile by (apply Hout, HOL). rewrite <- Hfd1'. exact Hsd.
    + rewrite Hfd4 by (intros E; apply app_inv_head in E; discriminate E).
      rewrite Hfd3
        by (intros nm'; split; intros E; apply app_inv_head in E; discriminate E).
      exact Hdd.
  - destruct (copy_ops_shape "val" (drop k sh) s d eq_refl eq_refl
                ltac:(apply Forall_drop; exact Hlsh) Hin)
      as [nm [(_ & Hs1 & Hd1) | (_ & Hs1 & Hd1)]];
      destruct (Hdata3 s d Hin) as (data & Hsd & Hdd);
      rewrite Hs1, Hd1 in *;
      (split;
       [intros E; symmetry in E;
        first [exact (apart_differ _ _ _ _ HOI E) | exact (apart_differ _ _ _ _ HOL E)] |]);
      exists data; split; apply file_data_is_file.
    + rewrite Hfile by (apply Hout, HOI). rewrite <- Hfd1'.
      rewrite <- Hfd2; [exact Hsd |].
      intros nm'; split; intros E; symmetry in E; exact (apart_differ _ _ _ _ HOI E).
    + rewrite Hfd4 by (intros E; apply app_inv_head in E; discriminate E).
      exact Hdd.
    + rewrite Hfile by (apply Hout, HOL). rewrite <- Hfd1'.
      rewrite <- Hfd2; [exact Hsd |].
      intros nm'; split; intros E; symmetry in E; exact (apart_differ _ _ _ _ HOL E).
    + rewrite Hfd4 by (intros E; apply app_inv_head in E; discriminate E).
      exact Hdd.
Qed.

(** [classes.txt] does not lie below the output directory of a
    successful run. *)
Lemma classes_outside w1 classes :
  Convert c w = (Done None, w1) -> LoadClasses c w = inl classes ->
  exists data,
    os_Stat w (filepath_Join [SourceDir c; "classes.txt"]) = Ok (File true data) /\
    ~ O `prefix_of` resolve cwd (filepath_Join [SourceDir c; "classes.txt"]).
Proof.
  intros Hrun Hc.
  assert (exists data,
            os_Stat w (filepath_Join [SourceDir c; "classes.txt"]) = Ok (File true data))
    as [data Hst].
  { revert Hc. unfold LoadClasses, os_Open.
    destruct (os_Stat w (filepath_Join [SourceDir c; "classes.txt"]))
      as [[[|] data | es] | e]; cbn [open_node]; try discriminate.
    intros _. exists data. reflexivity. }
  exists data. split; [exact Hst |].
  destruct (Convert_first_run w1 Hrun) as (_ & _ & _ & _ & _ & Hcwd1 & Hpers & _ & _ & Hdirs & _).
  assert (resolve cwd (filepath_Join [SourceDir c; "classes.txt"])
          = resolve cwd (SourceDir c) ++ ["classes.txt"]%string) as Ecls
    by (apply resolve_Join_plain; repeat constructor).
  assert (I = resolve cwd (SourceDir c) ++ ["images"]%string) as EI
    by (apply resolve_Join_plain; repeat constructor).
  rewrite Ecls. intros [k Hk].
  destruct k as [| y k _] using rev_ind.
  - rewrite app_nil_r in Hk.
    destruct (Hdirs (filepath_Join [OutputDir c; "images"; "train"])) as [es Hes]; [left |].
    unfold os_Stat in Hes, Hst. rewrite Hcwd1 in Hes. fold cwd in Hst.
    rewrite dir_resolved in Hes by reflexivity. rewrite Ecls, Hk in Hst.
    destruct (persists_file _ _ _ _ _ Hpers Hst) as (r' & d' & Hf).
    rewrite fs_lookup_app, Hf in Hes. discriminate Hes.
  - rewrite app_assoc in Hk. apply app_inj_tail in Hk as [Hk _].
    apply (proj1 HOI). rewrite EI, Hk, <- app_assoc. apply prefix_app_r. reflexivity.
Qed.

(** The run repeated in the world the first run left. *)
Lemma run_again w1 t w2 :
  Convert c w = (Done None, w1) ->
  Convert c (set_now t w1) = (Done None, w2) ->
  let yamlPath := filepath_Join [OutputDir c; "data.yaml"] in
  without_config c w2 = without_config c w1 /\
  (exists t0 body,
     os_Stat w1 yamlPath = Ok (File true (yaml_header t0 ++ body)) /\
     os_Stat w2 yamlPath = Ok (File true (yaml_header t ++ body))) /\
  (os_Stat w2 yamlPath = os_Stat w1 yamlPath -> w_fs w2 = w_fs w1).
Proof.
  intros H1 H2 yamlPath.
  destruct (Convert_first_run w1 H1)
    as (classes & R & Hc & HR & HlR & Hcwd1 & Hpers & Hnode & Hfile & Hdirs & Hcopies & Hyaml).
  destruct (classes_outside w1 classes H1 Hc) as (cdata & Hcst & Hcout).
  set (W := set_now t w1) in *.
  assert (same_files W w1) as HW by (split; reflexivity).
  destruct (Convert_ok _ _ _ H2)
    as (classes' & R' & wa & fs1 & fs2 & fs3 & Hc' & HR' & _ & Hfs & Hcwd & Hnow
        & Hd & HT & HV & HY).
  cbv zeta in Hd, HT, HV, HY.
  assert (same_files wa w1) as Hwa by (split; [exact Hfs | exact Hcwd]).
  assert (w_cwd wa = cwd) as Hcwda by (rewrite Hcwd; exact Hcwd1).
  (* the second run reads what the first read *)
  assert (classes' = classes) as ->.
  { assert (LoadClasses c W = LoadClasses c w) as E; [| congruence].
    unfold LoadClasses, os_Open. rewrite (os_Stat_same _ _ _ HW), Hcst.
    assert (os_Stat w1 (filepath_Join [SourceDir c; "classes.txt"]) = Ok (File true cdata))
      as ->; [| reflexivity].
    unfold os_Stat in *. rewrite Hcwd1. apply file_data_is_file.
    rewrite (Hfile _ Hcout). apply file_data_is_file. exact Hcst. }
  assert (R' = R) as ->.
  { assert (forall P x, apart O P -> fs_lookup (w_fs w1) (P ++ x) = fs_lookup (w_fs w) (P ++ x))
      as Hsrc.
    { intros P x HP. apply Hnode. intros p Hp.
      apply (apart_below O P p (P ++ x) HP Hp). apply prefix_app_r. reflexivity. }
    assert (os_Stat W imagesDir = Ok (Dir entries)) as HimgW.
    { rewrite (os_Stat_same _ _ _ HW). unfold os_Stat. rewrite Hcwd1.
      fold I. rewrite <- (app_nil_r I), (Hsrc I [] HOI), app_nil_r. exact Himg. }
    assert (map_Forall (fun _ n => is_dir n = false) entries) as Hflat
      by (intros nm n Hn; exact (proj1 (Hnames nm n Hn))).
    rewrite (image_label_pairs_flat c W entries HimgW Hflat) in HR'.
    rewrite (image_label_pairs_flat c w entries Himg Hflat) in HR.
    injection HR' as <-. injection HR as <-. f_equal. apply filter_ext_in.
    intros nm Hin. apply list_elem_of_In, walk_order_elem in Hin.
    destruct (entry_proper nm Hin) as [_ Hsl].
    unfold matched. f_equal. rewrite (os_Stat_same _ _ _ HW). unfold os_Stat.
    rewrite Hcwd1. fold cwd. rewrite (label_path_resolved cwd _ nm Hsl).
    fold Lb. rewrite (Hsrc Lb _ HOL). reflexivity. }
  set (k := Z.to_nat (trainCount (len R) (TrainSplit c))) in *.
  set (sh := shuffled_list (Seed c) R) in *.
  (* the directories are there *)
  rewrite create_dirs_noop in Hd
    by (intros dir Hdir; rewrite (os_Stat_same _ _ _ Hwa); apply Hdirs, Hdir).
  injection Hd as Hd. rewrite <- Hd in HT. clear Hd fs1.
  (* every copy is in place *)
  assert (forall sp L,
            (sp, L) ∈ [("train"%string, take k sh); ("val"%string, drop k sh)] ->
            copy_each (copy_ops (filepath_Join [OutputDir c; "images"; sp])
                                (filepath_Join [OutputDir c; "labels"; sp]) L) wa
            = (Done None, wa)) as Hnoop.
  { intros sp L HspL. apply copy_each_noop. intros s d Hin.
    destruct (Hcopies sp L HspL s d Hin) as (Hne & data & Hs & Hdd).
    rewrite Hcwda, !(os_Stat_same _ _ _ Hwa). split; [exact Hne |].
    exists data. split; assumption. }
  apply copy_pairs_ok in HT. rewrite Hnoop in HT by (left).
  injection HT as HT. rewrite <- HT in HV. clear HT fs2.
  apply copy_pairs_ok in HV. rewrite Hnoop in HV by (right; left).
  injection HV as HV. rewrite <- HV in HY. clear HV fs3.
  (* [data.yaml] is written again *)
  assert (os_Stat wa yamlPath = os_Stat w1 yamlPath) as Hsame by (apply os_Stat_same, Hwa).
  destruct (CreateYAMLConfig_over c classes wa w2 _ (eq_trans Hsame Hyaml) HY) as [Hwc Hback].
  destruct (CreateYAMLConfig_ok _ _ _ _ HY) as (fs' & E & Hnew & _).
  cbv zeta in Hnew.
  split; [rewrite Hwc; apply without_config_same, Hwa |].
  split.
  - eexists _, _. split; [exact Hyaml |].
    subst w2. unfold os_Stat. cbn [w_fs w_cwd set_fs].
    rewrite Hcwda, Hnow in Hnew. rewrite Hcwda. exact Hnew.
  - intros Heq. unfold yamlPath in Heq. rewrite Hyaml in Heq. rewrite (Hback Heq).
    exact Hfs.
Qed.

End Rerun.


Section RerunProps.
Context `{MR : MathRand} `{SC : Strconv} `{YE : Yaml} {MRS : MathRandSpec}.
Implicit Types (w : World MR) (c : Config).


End RerunProps.


(* ================================================================= *)
(** ** The theorems of this part at concrete inputs *)

Lemma ValidateSourceStructure_source_path_witness :
  ValidateSourceStructure test_config source_file_world = None /\
  Convert test_config source_file_world
  = (Done (Some (ErrOpenClasses ENOTDIR)), source_file_world).
Proof.
  apply (ValidateSourceStructure_source_path test_config source_file_world).
  exists true, "an archive"%string. vm_compute. reflexivity.
Defined.

Lemma LoadClasses_names_witness :
  exists data lines,
    os_Stat test_world (filepath_Join [SourceDir test_config; "classes.txt"])
    = Ok (File true data) /\
    scan_lines (OpenedFile data) = (lines, false) /\
    ["book"; "person"]%string
    = List.filter (fun line => negb (String.eqb line "")) (strings_TrimSpace <$> lines) /\
    Forall (fun name => name <> ""%string /\ strings_TrimSpace name = name)
           ["book"; "person"]%string.
Proof.
  apply (LoadClasses_names test_config test_world ["book"; "person"]%string).
  vm_compute. reflexivity.
Defined.

Lemma GetImageLabelPairs_flat_witness :
  exists names,
    image_label_pairs test_config test_world
    = inl (record_for "export/images" "export/labels" <$> names) /\
    StronglySorted name_le names /\ NoDup names /\
    forall nm, nm ∈ names <->
      is_Some (test_images !! nm) /\ matched test_world "export/labels" nm = true.
Proof.
  apply (GetImageLabelPairs_flat test_config test_world test_images).
  - vm_compute. reflexivity.
  - apply map_Forall_to_list. vm_compute. repeat constructor.
Defined.

Lemma GetImageLabelPairs_records_distinct_witness : NoDup test_records.
Proof.
  apply (GetImageLabelPairs_records_distinct test_config test_world test_images test_records).
  - vm_compute. reflexivity.
  - apply map_Forall_to_list. vm_compute. repeat constructor.
  - vm_compute. reflexivity.
Defined.

Lemma GetImageLabelPairs_images_not_directory_witness :
  image_label_pairs test_config images_file_world = inl [].
Proof.
  apply (GetImageLabelPairs_images_not_directory test_config images_file_world
           true "fake image data").
  vm_compute. reflexivity.
Defined.

Lemma CreateYOLOStructure_creates_witness :
  exists es,
    os_Stat (snd (CreateYOLOStructure test_config test_world))
            (filepath_Join ["./yolo_dataset"; "labels"; "val"]) = Ok (Dir es).
Proof.
  apply (CreateYOLOStructure_creates test_config test_world
           (snd (CreateYOLOStructure test_config test_world))).
  - reflexivity.
  - do 3 right. left.
Defined.

Lemma CreateYOLOStructure_idempotent_witness :
  CreateYOLOStructure test_config (snd (CreateYOLOStructure test_config test_world))
  = (Done None, snd (CreateYOLOStructure test_config test_world)).
Proof.
  apply (CreateYOLOStructure_idempotent test_config test_world).
  reflexivity.
Defined.

Lemma CopyFiles_copies_witness :
  os_Stat (snd (CopyFiles test_config (whole one_record) "train"
                          (loaded one_record prepared_world)))
          "yolo_dataset/labels/train/image1.txt"
  = Ok (File true ("0 0.5 0.5 0.3 0.3" ++ nl ++ "1 0.2 0.8 0.1 0.1" ++ nl)).
Proof.
  destruct (CopyFiles_copies test_config (whole one_record) "train"
              (loaded one_record prepared_world)
              (snd (CopyFiles test_config (whole one_record) "train"
                              (loaded one_record prepared_world))))
    as [Hcopied _].
  - intros s d s' d' Hin Hin'.
    apply list_elem_of_In in Hin, Hin'. vm_compute in Hin, Hin'.
    destruct Hin as [[= <- <-] | [[= <- <-] | []]];
      destruct Hin' as [[= <- <-] | [[= <- <-] | []]]; vm_compute; discriminate.
  - intros s d s' d' Hin Hin'.
    apply list_elem_of_In in Hin, Hin'. vm_compute in Hin, Hin'.
    destruct Hin as [[= <- <-] | [[= <- <-] | []]];
      destruct Hin' as [[= <- <-] | [[= <- <-] | []]];
      intros Heq; try reflexivity; vm_compute in Heq; discriminate Heq.
  - reflexivity.
  - destruct (Hcopied "export/labels/image1.txt"%string
                      "yolo_dataset/labels/train/image1.txt"%string)
      as (data & Hsrc & Hdst & _).
    + apply list_elem_of_In. vm_compute. right. left. reflexivity.
    + rewrite Hdst, <- Hsrc. vm_compute. reflexivity.
Defined.

Lemma copyFile_copies_witness :
  exists data,
    os_Stat test_world "export/classes.txt" = Ok (File true data) /\
    os_Stat (snd (copyFile "export/classes.txt" "names.txt" test_world)) "names.txt"
    = Ok (File true data) /\
    os_Stat (snd (copyFile "export/classes.txt" "names.txt" test_world)) "export/classes.txt"
    = Ok (File true data) /\
    forall path r d,
      resolve (w_cwd test_world) path <> resolve (w_cwd test_world) "names.txt" ->
      (os_Stat (snd (copyFile "export/classes.txt" "names.txt" test_world)) path
       = Ok (File r d) <-> os_Stat test_world path = Ok (File r d)).
Proof.
  apply (copyFile_copies "export/classes.txt" "names.txt" test_world).
  - vm_compute. discriminate.
  - reflexivity.
Defined.

Lemma copyFile_onto_itself_witness :
  os_Stat test_world "export/classes.txt"
  = Ok (File true ("book" ++ nl ++ "person" ++ nl)) /\
  os_Stat (snd (copyFile "export/classes.txt" "./export/../export/classes.txt" test_world))
          "export/classes.txt"
  = Ok (File true "").
Proof.
  split; [vm_compute; reflexivity |].
  destruct (copyFile_onto_itself "export/classes.txt" "./export/../export/classes.txt"
              test_world
              (snd (copyFile "export/classes.txt" "./export/../export/classes.txt"
                             test_world)))
    as (_ & Hempty & _).
  - vm_compute. reflexivity.
  - apply injective_projections; [vm_compute; reflexivity | reflexivity].
  - exact Hempty.
Defined.

Lemma CreateYAMLConfig_writes_witness :
  os_Stat (snd (CreateYAMLConfig test_config ["book"; "person"]%string prepared_world))
          (filepath_Join [OutputDir test_config; "data.yaml"])
  = Ok (File true
          (yaml_header (w_now prepared_world)
           ++ yaml_Encode {| Path := filepath_Abs (w_cwd prepared_world) (OutputDir test_config);
                             Train := "images/train"; Val := "images/val";
                             NC := len ["book"; "person"]%string;
                             Names := ["book"; "person"]%string |})).
Proof.
  destruct (CreateYAMLConfig_writes test_config ["book"; "person"]%string prepared_world
              (snd (CreateYAMLConfig test_config ["book"; "person"]%string prepared_world)))
    as [Hfile _].
  - apply injective_projections; [vm_compute; reflexivity | reflexivity].
  - exact Hfile.
Defined.

Lemma CreateYAMLConfig_needs_directory_witness :
  CreateYAMLConfig test_config ["book"%string] test_world
  = (Done (Some (ErrCreateYAML ENOENT)), test_world).
Proof.
  apply (CreateYAMLConfig_needs_directory test_config ["book"%string] test_world).
  vm_compute. reflexivity.
Defined.

Lemma ValidateLabels_totals_witness :
  let stats := fst (ValidateLabels (loaded test_records test_world) (whole test_records)) in
  TotalAnnotations stats = 5 /\ InvalidLines stats = 0 /\
  FilesWithAnnotations stats = 3 /\ EmptyFiles stats = 0.
Proof.
  destruct (ValidateLabels_totals (loaded test_records test_world) (whole test_records))
    as (Ha & Hi & Hf & He); [vm_compute; discriminate |].
  cbv zeta.
  split; [etransitivity; [exact Ha | vm_compute; reflexivity] |].
  split; [etransitivity; [exact Hi | vm_compute; reflexivity] |].
  split; [etransitivity; [exact Hf | vm_compute; reflexivity] |].
  etransitivity; [exact He | vm_compute; reflexivity].
Defined.

Lemma ValidateLabels_counts_every_line_witness :
  let stats := fst (ValidateLabels (loaded test_records test_world) (whole test_records)) in
  TotalAnnotations stats + InvalidLines stats = 5.
Proof.
  cbv zeta. etransitivity.
  - apply (ValidateLabels_counts_every_line (loaded test_records test_world)
             (whole test_records)).
    + vm_compute. discriminate.
    + repeat constructor.
  - vm_compute. reflexivity.
Defined.

Lemma Convert_reading_error_writes_nothing_witness :
  snd (Convert test_config bare_world) = bare_world.
Proof.
  apply (Convert_reading_error_writes_nothing test_config bare_world
           (ErrRequiredDir "export/images")).
  - vm_compute. reflexivity.
  - reflexivity.
Defined.

Lemma Convert_panic_writes_nothing_witness :
  w_fs (snd (Convert (config_with f64_1_5) test_world)) = w_fs test_world.
Proof.
  apply (Convert_panic_writes_nothing (config_with f64_1_5) test_world
           (SliceBoundsOutOfRange 4 3)).
  vm_compute. reflexivity.
Defined.

Lemma Convert_never_panics_witness :
  exists r w', Convert test_config test_world = (Done r, w').
Proof.
  apply (Convert_never_panics (MRS := lcg_rand_spec) test_config test_world).
  - reflexivity.
  - reflexivity.
  - reflexivity.
  - intros R HR. vm_compute in HR. injection HR as <-. reflexivity.
Defined.

Lemma Convert_removes_nothing_witness :
  exists n',
    os_Stat (snd (Convert test_config test_world)) "export/images" = Ok n' /\
    is_dir n' = true.
Proof.
  apply (Convert_removes_nothing test_config test_world "export/images"
           (Dir test_images)).
  vm_compute. reflexivity.
Defined.

Lemma Convert_writes_below_output_witness :
  os_Stat (snd (Convert test_config test_world)) "export/labels/image2.txt"
  = Ok (File true ("0 0.4 0.6 0.2 0.4" ++ nl)).
Proof.
  apply (Convert_writes_below_output test_config test_world "export/labels/image2.txt").
  - intros [k Hk]. vm_compute in Hk. discriminate Hk.
  - vm_compute. reflexivity.
Defined.

Lemma Convert_success_config_witness :
  exists classes t,
    LoadClasses test_config test_world = inl classes /\
    os_Stat (snd (Convert test_config test_world))
            (filepath_Join [OutputDir test_config; "data.yaml"])
    = Ok (File true
            (yaml_header t
             ++ yaml_Encode {| Path := filepath_Abs (w_cwd test_world) (OutputDir test_config);
                               Train := "images/train"; Val := "images/val";
                               NC := len classes; Names := classes |})).
Proof.
  apply (Convert_success_config (MRS := lcg_rand_spec) test_config test_world).
  vm_compute. reflexivity.
Defined.

Lemma Convert_success_records_witness :
  exists R,
    image_label_pairs test_config test_world = inl R /\ R <> [] /\
    (forall dir,
       dir ∈ [filepath_Join [OutputDir test_config; "images"; "train"];
              filepath_Join [OutputDir test_config; "images"; "val"];
              filepath_Join [OutputDir test_config; "labels"; "train"];
              filepath_Join [OutputDir test_config; "labels"; "val"]] ->
       exists es, os_Stat (snd (Convert test_config test_world)) dir = Ok (Dir es)) /\
    forall lp, lp ∈ R ->
      exists splitType,
        (splitType = "train" \/ splitType = "val")%string /\
        (exists r data,
           os_Stat (snd (Convert test_config test_world))
                   (filepath_Join [filepath_Join [OutputDir test_config; "images"; splitType];
                                   filepath_Base (ImagePath lp)])
           = Ok (File r data)) /\
        (exists r data,
           os_Stat (snd (Convert test_config test_world))
                   (filepath_Join [filepath_Join [OutputDir test_config; "labels"; splitType];
                                   filepath_Base (LabelPath lp)])
           = Ok (File r data)).
Proof.
  apply (Convert_success_records (MRS := lcg_rand_spec) test_config test_world).
  vm_compute. reflexivity.
Defined.


